(** * Chat relay: room registry, message relay, persistence and polling mirror

    A shallow embedding of the Node.js chat server:
    - [server/db.js]        the SQLite message store ([saveMessage], [getHistory]);
    - [server/websocket.js] the push channel: the [rooms] and [clients] maps,
                            the join / leave / chat handlers, the heartbeat;
    - [server/app.js]       the pull channel: [recentMessages], POST /api/send,
                            POST /api/join, GET /api/messages.

    Modelling conventions.
    - A WebSocket object is a reference; it is modelled by a natural number and
      its mutable properties ([readyState], [isAlive]) live in a heap
      [sockets].  A JS [Map] keyed by strings is a [gmap string _]; a JS [Set]
      of connections is a duplicate-free list in insertion order (the order
      [forEach] visits it).
    - Fields of an inbound JSON frame are modelled at their protocol type:
      an absent (undefined) field is [None], a string field is [Some s], an
      integer field is [Some z].  JS truthiness on them ([truthy], [or_str],
      [or_num]): undefined, the empty string and 0 are falsy.
    - [Date.now()], [Math.random()] and the outcome of the SQLite I/O are
      inputs of the environment, collected in [Env]; one [Env] is supplied per
      event.
    - Handlers are [async] functions; an event is modelled as running to
      completion (every [await] resolves before the next event is taken).
      A rejected promise is an exception: [Throw].  State changes made before
      an exception are kept, as in JS. *)

From Stdlib Require Import ZArith Lia.
From stdpp Require Import base option list gmap strings sorting pretty.

Local Open Scope Z_scope.

(** ** JS values of the wire protocol *)

Definition truthy_str (o : option string) : bool :=
  match o with
  | Some s => negb (bool_decide (s = ""))
  | None => false
  end.

(** [a || b] on optional numbers and strings. *)
Definition or_num (a : option Z) (b : Z) : Z :=
  match a with
  | Some z => if z =? 0 then b else z
  | None => b
  end.

Definition or_str (a b : option string) : option string :=
  if truthy_str a then a else b.

(** Template-literal rendering of a possibly null string: [`${x}`]. *)
Definition template (o : option string) : string :=
  match o with
  | Some s => s
  | None => "null"
  end.

(** ** Messages *)

(** The message objects built by the handlers.  [m_id] is only set by the
    pull channel; the media fields are undefined for presence messages. *)
Record Message := mkMessage {
  m_id : option string;
  m_type : option string;
  m_roomId : string;
  m_senderId : option string;
  m_timestamp : Z;
  m_content : option string;
  m_fileName : option string;
  m_fileSize : option Z;
  m_duration : option Z;
  m_thumbnail : option string;
  m_mimeType : option string
}.

(** ** The message store (server/db.js, server/schema.sql) *)

(** A row of table [messages]. *)
Record Row := mkRow {
  row_id : Z;
  row_type : string;
  row_roomId : string;
  row_senderId : string;
  row_timestamp : Z;
  row_content : string;
  row_fileName : option string;
  row_fileSize : option Z;
  row_duration : option Z;
  row_thumbnail : option string;
  row_mimeType : option string
}.

(** The table in insertion order and the AUTOINCREMENT counter. *)
Record Db := mkDb {
  rows : list Row;
  lastID : Z
}.

Inductive Error :=
| StoreError (reason : string)
| TypeError
| SyntaxError.

(** What the environment decides for one event. *)
Record Env := mkEnv {
  now : Z;              (* Date.now() *)
  random : string;      (* Math.random().toString(36) fragment *)
  saveFails : bool;     (* the INSERT of saveMessage hits an I/O error *)
  historyFails : bool   (* the SELECT of getHistory hits an I/O error *)
}.

(** [type TEXT NOT NULL CHECK(type IN ('text','audio','video','system'))] *)
Definition type_check (t : string) : bool :=
  bool_decide (t = "text") || bool_decide (t = "audio")
  || bool_decide (t = "video") || bool_decide (t = "system").

(** The INSERT of [saveMessage]: the row the statement would add, or the
    constraint it violates ([type], [sender_id] and [content] are NOT NULL;
    an undefined property is bound as NULL). *)
Definition insert_row (m : Message) (d : Db) : Error + Row :=
  match m_type m, m_senderId m, m_content m with
  | None, _, _ => inl (StoreError "NOT NULL constraint failed: messages.type")
  | _, None, _ => inl (StoreError "NOT NULL constraint failed: messages.sender_id")
  | _, _, None => inl (StoreError "NOT NULL constraint failed: messages.content")
  | Some type, Some sender, Some content =>
      if type_check type then
        inr {| row_id := lastID d + 1;
               row_type := type;
               row_roomId := m_roomId m;
               row_senderId := sender;
               row_timestamp := m_timestamp m;
               row_content := content;
               row_fileName := m_fileName m;
               row_fileSize := m_fileSize m;
               row_duration := m_duration m;
               row_thumbnail := m_thumbnail m;
               row_mimeType := m_mimeType m |}
      else inl (StoreError "CHECK constraint failed: type")
  end.

(** [saveMessage(message)]: resolves with [this.lastID] or rejects. *)
Definition db_saveMessage (io_fails : bool) (m : Message) (d : Db) : Error + (Z * Db) :=
  if io_fails then inl (StoreError "SQLITE_IOERR")
  else match insert_row m d with
       | inl e => inl e
       | inr r => inr (row_id r, {| rows := rows d ++ [r]; lastID := row_id r |})
       end.

(** [ORDER BY timestamp DESC]: [newer_first a b] when [a] may precede [b]. *)
Definition newer_first (a b : Row) : Prop := row_timestamp b <= row_timestamp a.

#[global] Instance newer_first_dec : RelDecision newer_first.
Proof. intros a b. unfold newer_first. apply _. Defined.

(** [LIMIT n]: a negative limit means no limit in SQLite. *)
Definition sql_limit {A} (n : Z) (l : list A) : list A :=
  if n <? 0 then l else take (Z.to_nat n) l.

(** [OFFSET n]: a negative offset is treated as 0. *)
Definition sql_offset {A} (n : Z) (l : list A) : list A :=
  drop (Z.to_nat n) l.

(** The SELECT of [getHistory]:
    [WHERE room_id = ? ORDER BY timestamp DESC LIMIT ? OFFSET ?]. *)
Definition select_history (roomId : string) (size offset : Z) (d : Db) : list Row :=
  sql_limit size
    (sql_offset offset
       (merge_sort newer_first
          (filter (λ r, row_roomId r = roomId) (rows d)))).

(** [getHistory(roomId, page, size)]. *)
Definition db_getHistory (io_fails : bool) (roomId : string) (page size : Z) (d : Db)
  : Error + list Row :=
  let offset := (page - 1) * size in
  if io_fails then inl (StoreError "SQLITE_IOERR")
  else inr (select_history roomId size offset d).

(** [initDatabase()]: schema.sql drops and recreates the tables and inserts
    one sample system message into ['default_room']. *)
Definition initDatabase (startup : Z) : Db :=
  {| rows := [ {| row_id := 1; row_type := "system"; row_roomId := "default_room";
                  row_senderId := "system"; row_timestamp := startup;
                  row_content := "欢迎来到 Lynx Chat！";
                  row_fileName := None; row_fileSize := None; row_duration := None;
                  row_thumbnail := None; row_mimeType := None |} ];
     lastID := 1 |}.

(** *** The other queries of db.js *)

(** [getMessageById(messageId)]: [db.get] resolves with the first matching row
    or with undefined. *)
Definition db_getMessageById (io_fails : bool) (messageId : Z) (d : Db)
  : Error + option Row :=
  if io_fails then inl (StoreError "SQLITE_IOERR")
  else inr (head (filter (λ r, row_id r = messageId) (rows d))).

(** The number of rows a DELETE removes ([this.changes]). *)
Definition changes (before after : list Row) : nat := length before - length after.

(** [deleteMessage(messageId)]: resolves with [this.changes > 0].  The
    AUTOINCREMENT counter survives the DELETE. *)
Definition db_deleteMessage (io_fails : bool) (messageId : Z) (d : Db)
  : Error + (bool * Db) :=
  if io_fails then inl (StoreError "SQLITE_IOERR")
  else let kept := filter (λ r, row_id r ≠ messageId) (rows d) in
       inr (bool_decide (0 < changes (rows d) kept)%nat, mkDb kept (lastID d)).

(** [clearRoom(roomId)]: resolves with [this.changes]. *)
Definition db_clearRoom (io_fails : bool) (roomId : string) (d : Db)
  : Error + (nat * Db) :=
  if io_fails then inl (StoreError "SQLITE_IOERR")
  else let kept := filter (λ r, row_roomId r ≠ roomId) (rows d) in
       inr (changes (rows d) kept, mkDb kept (lastID d)).

(** [getMessagesBySender(senderId, limit = 100)]:
    [WHERE sender_id = ? ORDER BY timestamp DESC LIMIT ?]. *)
Definition db_getMessagesBySender (io_fails : bool) (senderId : string)
  (limit : option Z) (d : Db) : Error + list Row :=
  if io_fails then inl (StoreError "SQLITE_IOERR")
  else inr (sql_limit (default 100 limit)
              (merge_sort newer_first
                 (filter (λ r, row_senderId r = senderId) (rows d)))).

(** A row of the result of [getRooms]. *)
Record RoomSummary := mkRoomSummary {
  rs_id : string;
  rs_messageCount : nat;
  rs_lastActivity : Z
}.

(** [MAX(timestamp)] over a group; a group of GROUP BY is never empty. *)
Definition max_timestamp (group : list Row) : Z :=
  match group with
  | [] => 0
  | r :: rest => foldr (λ r' acc, Z.max (row_timestamp r') acc) (row_timestamp r) rest
  end.

Definition summarize (d : Db) (roomId : string) : RoomSummary :=
  let group := filter (λ r, row_roomId r = roomId) (rows d) in
  mkRoomSummary roomId (length group) (max_timestamp group).

(** [ORDER BY lastActivity DESC] *)
Definition more_recent (a b : RoomSummary) : Prop := rs_lastActivity b <= rs_lastActivity a.

#[global] Instance more_recent_dec : RelDecision more_recent.
Proof. intros a b. unfold more_recent. apply _. Defined.

(** [getRooms()]: [SELECT room_id, COUNT( * ), MAX(timestamp) FROM messages
    GROUP BY room_id ORDER BY lastActivity DESC]. *)
Definition db_getRooms (io_fails : bool) (d : Db) : Error + list RoomSummary :=
  if io_fails then inl (StoreError "SQLITE_IOERR")
  else inr (merge_sort more_recent
              (summarize d <$> remove_dups (row_roomId <$> rows d))).

(** [SUM(CASE WHEN type = t THEN 1 ELSE 0 END)]: NULL over an empty table. *)
Definition sum_type (t : string) (l : list Row) : option nat :=
  match l with
  | [] => None
  | _ => Some (length (filter (λ r, row_type r = t) l))
  end.

Record TypeCounts := mkTypeCounts {
  textCount : option nat;
  audioCount : option nat;
  videoCount : option nat;
  systemCount : option nat
}.

Record Stats := mkStats {
  totalMessages : nat;
  totalRooms : nat;
  totalUsers : nat;
  messageTypes : TypeCounts
}.

(** [getStats()]: the four [db.get] calls of the [db.serialize] block. *)
Definition db_getStats (io_fails : bool) (d : Db) : Error + Stats :=
  if io_fails then inl (StoreError "SQLITE_IOERR")
  else inr {| totalMessages := length (rows d);
              totalRooms := length (remove_dups (row_roomId <$> rows d));
              totalUsers := length (remove_dups (row_senderId <$> rows d));
              messageTypes :=
                {| textCount := sum_type "text" (rows d);
                   audioCount := sum_type "audio" (rows d);
                   videoCount := sum_type "video" (rows d);
                   systemCount := sum_type "system" (rows d) |} |}.

(** What the schema guarantees of a table built by INSERTs and DELETEs:
    primary keys are unique and never above the AUTOINCREMENT counter, and
    every [type] passes the CHECK constraint. *)
Definition db_wf (d : Db) : Prop :=
  NoDup (row_id <$> rows d)
  ∧ Forall (λ r, row_id r <= lastID d) (rows d)
  ∧ Forall (λ r, type_check (row_type r) = true) (rows d).

#[global] Instance db_wf_dec d : Decision (db_wf d).
Proof. unfold db_wf. apply _. Defined.

(** ** Server state *)

Definition WebSocket := nat.

Inductive ReadyState := CONNECTING | OPEN | CLOSING | CLOSED.

#[global] Instance ReadyState_eq_dec : EqDecision ReadyState.
Proof. solve_decision. Defined.

(** Properties of a [ws] object that the server reads or writes. *)
Record Socket := mkSocket {
  readyState : ReadyState;
  isAlive : option bool      (* [None]: the property was never assigned *)
}.

(** The value stored in [clients] for a connection. *)
Record ClientInfo := mkClientInfo {
  ci_id : string;
  ci_roomId : option string;     (* [None] is null *)
  ci_userId : option string;
  ci_connectedAt : Z
}.

(** Frames the server writes to a connection. *)
Inductive Frame :=
| FSystem (content : string) (timestamp : Z)           (* the welcome frame *)
| FJoined (roomId userId : string) (timestamp : Z)
| FHistory (messages : list Row)
| FError (content : string) (timestamp : Z)
| FPong (timestamp : Z)
| FMessage (message : Message)                         (* chat and presence *)
| FPing.                                               (* heartbeat probe *)

Record State := mkState {
  rooms : gmap string (list WebSocket);     (* websocket.js: rooms *)
  clients : gmap WebSocket ClientInfo;      (* websocket.js: clients *)
  wssClients : list WebSocket;              (* wss.clients *)
  sockets : gmap WebSocket Socket;          (* heap of ws objects *)
  db : Db;                                  (* db.js: chat.db *)
  recentMessages : list Message;            (* app.js: recentMessages *)
  sent : list (WebSocket * Frame)           (* frames written, oldest first *)
}.

Definition set_rooms (f : gmap string (list WebSocket) → gmap string (list WebSocket))
  (st : State) : State :=
  mkState (f (rooms st)) (clients st) (wssClients st) (sockets st) (db st)
    (recentMessages st) (sent st).
Definition set_clients (f : gmap WebSocket ClientInfo → gmap WebSocket ClientInfo)
  (st : State) : State :=
  mkState (rooms st) (f (clients st)) (wssClients st) (sockets st) (db st)
    (recentMessages st) (sent st).
Definition set_wssClients (f : list WebSocket → list WebSocket) (st : State) : State :=
  mkState (rooms st) (clients st) (f (wssClients st)) (sockets st) (db st)
    (recentMessages st) (sent st).
Definition set_sockets (f : gmap WebSocket Socket → gmap WebSocket Socket)
  (st : State) : State :=
  mkState (rooms st) (clients st) (wssClients st) (f (sockets st)) (db st)
    (recentMessages st) (sent st).
Definition set_db (f : Db → Db) (st : State) : State :=
  mkState (rooms st) (clients st) (wssClients st) (sockets st) (f (db st))
    (recentMessages st) (sent st).
Definition set_recentMessages (f : list Message → list Message) (st : State) : State :=
  mkState (rooms st) (clients st) (wssClients st) (sockets st) (db st)
    (f (recentMessages st)) (sent st).
Definition set_sent (f : list (WebSocket * Frame) → list (WebSocket * Frame))
  (st : State) : State :=
  mkState (rooms st) (clients st) (wssClients st) (sockets st) (db st)
    (recentMessages st) (f (sent st)).

(** The state after [startServer()]. *)
Definition initState (startup : Z) : State :=
  mkState ∅ ∅ [] ∅ (initDatabase startup) [] [].

(** ** The handler monad: state and exceptions *)

Inductive Result (A : Type) :=
| Ok (a : A)
| Throw (e : Error).
Arguments Ok {A} a.
Arguments Throw {A} e.

Definition M (A : Type) : Type := State → Result A * State.

#[global] Instance M_ret : MRet M := λ A a st, (Ok a, st).
#[global] Instance M_bind : MBind M := λ A B f m st,
  match m st with
  | (Ok a, st') => f a st'
  | (Throw e, st') => (Throw e, st')
  end.

Definition throw {A} (e : Error) : M A := λ st, (Throw e, st).

(** [try { body } catch (e) { handler(e) }] *)
Definition try_catch {A} (body : M A) (handler : Error → M A) : M A := λ st,
  match body st with
  | (Ok a, st') => (Ok a, st')
  | (Throw e, st') => handler e st'
  end.

Definition modify (f : State → State) : M unit := λ st, (Ok tt, f st).

Definition when (b : bool) (m : M unit) : M unit := if b then m else mret tt.

(** [l.forEach(f)] *)
Fixpoint forEach {A} (f : A → M unit) (l : list A) : M unit :=
  match l with
  | [] => mret tt
  | x :: l' => f x;; forEach f l'
  end.

(** State after running a handler. *)
Definition exec {A} (m : M A) (st : State) : State := (m st).2.

(** ** The push channel (server/websocket.js) *)

(** A parsed inbound frame. *)
Record Inbound := mkInbound {
  in_type : option string;
  in_roomId : option string;
  in_senderId : option string;
  in_content : option string;
  in_timestamp : option Z;
  in_fileName : option string;
  in_size : option Z;
  in_duration : option Z;
  in_thumbnail : option string
}.

(** The payload of a ['message'] event: [JSON.parse] throws on [Malformed]. *)
Inductive Data :=
| Malformed
| Parsed (message : Inbound).

(** The string behind a truthy optional string, [None] when it is falsy. *)
Definition truthy (o : option string) : option string :=
  match o with
  | Some s => if bool_decide (s = "") then None else Some s
  | None => None
  end.

(** [ws.readyState === WebSocket.OPEN] *)
Definition is_open (ws : WebSocket) (st : State) : bool :=
  bool_decide (readyState <$> sockets st !! ws = Some OPEN).

(** [ws.send(JSON.stringify(frame))]: the frame is written when the socket is
    open and dropped by the library otherwise. *)
Definition ws_send (ws : WebSocket) (frame : Frame) : M unit := λ st,
  (Ok tt, if is_open ws st then set_sent (λ s, s ++ [(ws, frame)]) st else st).

(** [clients.get(ws)] followed by a property read, which throws a TypeError
    when the connection is unknown. *)
Definition getClient (ws : WebSocket) : M ClientInfo := λ st,
  match clients st !! ws with
  | Some clientInfo => (Ok clientInfo, st)
  | None => (Throw TypeError, st)
  end.

(** [Set.prototype.add] and [Set.prototype.delete] on an insertion-ordered set. *)
Definition set_add (ws : WebSocket) (s : list WebSocket) : list WebSocket :=
  if bool_decide (ws ∈ s) then s else s ++ [ws].
Definition set_delete (ws : WebSocket) (s : list WebSocket) : list WebSocket :=
  filter (λ c, c ≠ ws) s.

Definition clear_room (clientInfo : ClientInfo) : ClientInfo :=
  mkClientInfo (ci_id clientInfo) None (ci_userId clientInfo) (ci_connectedAt clientInfo).

Definition bind_room (roomId senderId : string) (clientInfo : ClientInfo) : ClientInfo :=
  mkClientInfo (ci_id clientInfo) (Some roomId) (Some senderId) (ci_connectedAt clientInfo).

(** [leaveRoom(ws, roomId)] *)
Definition leaveRoom (ws : WebSocket) (roomId : string) : M unit :=
  modify (λ st,
    match rooms st !! roomId with
    | Some room =>
        let room' := set_delete ws room in
        if bool_decide (length room' = 0%nat)
        then set_rooms (delete roomId) st
        else set_rooms (<[roomId := room']>) st
    | None => st
    end);;
  modify (set_clients (alter clear_room ws)).

(** The "Add to room" block of [handleJoin]:
    [if (!rooms.has(roomId)) rooms.set(roomId, new Set()); rooms.get(roomId).add(ws)] *)
Definition addToRoom (roomId : string) (ws : WebSocket) : M unit :=
  modify (set_rooms (λ rs, if bool_decide (is_Some (rs !! roomId)) then rs
                           else <[roomId := []]> rs));;
  modify (set_rooms (alter (set_add ws) roomId)).

(** [broadcastToRoom(roomId, message, exclude = null)] *)
Definition broadcastToRoom (roomId : string) (message : Message)
  (exclude : option WebSocket) : M unit := λ st,
  match rooms st !! roomId with
  | None => (Ok tt, st)
  | Some room =>
      forEach (λ client st',
        if bool_decide (Some client ≠ exclude) && is_open client st'
        then ws_send client (FMessage message) st'
        else (Ok tt, st')) room st
  end.

(** [sendError(ws, error)] *)
Definition sendError (now : Z) (ws : WebSocket) (error : string) : M unit := λ st,
  if is_open ws st then ws_send ws (FError error now) st else (Ok tt, st).

(** [generateClientId()] *)
Definition generateClientId (e : Env) : string :=
  "client_" +:+ random e +:+ "_" +:+ pretty (now e).

Section Handlers.
Variable env : Env.

(** [await saveMessage(message)] *)
Definition saveMessage (message : Message) : M Z := λ st,
  match db_saveMessage (saveFails env) message (db st) with
  | inl e => (Throw e, st)
  | inr (id, d) => (Ok id, set_db (λ _, d) st)
  end.

(** [await getHistory(roomId, page, size)] *)
Definition getHistory (roomId : string) (page size : Z) : M (list Row) := λ st,
  match db_getHistory (historyFails env) roomId page size (db st) with
  | inl e => (Throw e, st)
  | inr l => (Ok l, st)
  end.

Definition systemMessage (roomId : string) (content : option string) : Message :=
  {| m_id := None; m_type := Some "system"; m_roomId := roomId;
     m_senderId := Some "system"; m_timestamp := now env; m_content := content;
     m_fileName := None; m_fileSize := None; m_duration := None;
     m_thumbnail := None; m_mimeType := None |}.

(** [handleJoin(ws, message)] *)
Definition handleJoin (ws : WebSocket) (message : Inbound) : M unit :=
  match truthy (in_roomId message), truthy (in_senderId message) with
  | Some roomId, Some senderId =>
      clientInfo ← getClient ws;
      (* Leave previous room if any *)
      match truthy (ci_roomId clientInfo) with
      | Some previous => leaveRoom ws previous
      | None => mret tt
      end;;
      (* Update client info *)
      modify (set_clients (alter (bind_room roomId senderId) ws));;
      (* Add to room *)
      addToRoom roomId ws;;
      (* Send join confirmation *)
      ws_send ws (FJoined roomId senderId (now env));;
      try_catch
        (history ← getHistory roomId 1 50;
         when (bool_decide (0 < length history)%nat)
           (ws_send ws (FHistory (reverse history))))
        (λ _, mret tt);;
      (* Broadcast join message to room (exclude self) *)
      let joinMessage := systemMessage roomId (Some (senderId +:+ " 加入了聊天室")) in
      broadcastToRoom roomId joinMessage (Some ws);;
      (* Save to database *)
      saveMessage joinMessage;;
      mret tt
  | _, _ => sendError (now env) ws "roomId and senderId are required"
  end.

(** [handleLeave(ws, message)] *)
Definition handleLeave (ws : WebSocket) (message : Inbound) : M unit :=
  clientInfo ← getClient ws;
  match truthy (ci_roomId clientInfo) with
  | Some roomId =>
      let leaveMessage :=
        systemMessage roomId (Some (template (ci_userId clientInfo) +:+ " 离开了聊天室")) in
      broadcastToRoom roomId leaveMessage (Some ws);;
      saveMessage leaveMessage;;
      leaveRoom ws roomId
  | None => mret tt
  end.

(** The object literal [normalizedMessage] of [handleChatMessage]. *)
Definition normalizedMessage (clientInfo : ClientInfo) (roomId : string)
  (message : Inbound) : Message :=
  {| m_id := None;
     m_type := in_type message;
     m_roomId := roomId;
     m_senderId := or_str (ci_userId clientInfo) (in_senderId message);
     m_timestamp := or_num (in_timestamp message) (now env);
     m_content := in_content message;
     m_fileName := in_fileName message;
     m_fileSize := in_size message;
     m_duration := in_duration message;
     m_thumbnail := in_thumbnail message;
     m_mimeType := None |}.

(** [handleChatMessage(ws, message)] *)
Definition handleChatMessage (ws : WebSocket) (message : Inbound) : M unit :=
  clientInfo ← getClient ws;
  match truthy (ci_roomId clientInfo) with
  | None => sendError (now env) ws "Not in a room. Please join a room first."
  | Some roomId =>
      match truthy (in_content message) with
      | None => sendError (now env) ws "Message content is required"
      | Some _ =>
          let normalized := normalizedMessage clientInfo roomId message in
          (* Save to database *)
          saveMessage normalized;;
          (* Broadcast to all clients in the room (including sender) *)
          broadcastToRoom roomId normalized None
      end
  end.

(** [handleSystemMessage(ws, message)] *)
Definition handleSystemMessage (ws : WebSocket) (message : Inbound) : M unit :=
  clientInfo ← getClient ws;
  match truthy (ci_roomId clientInfo) with
  | None => mret tt
  | Some roomId =>
      let sysMessage := systemMessage roomId (in_content message) in
      saveMessage sysMessage;;
      broadcastToRoom roomId sysMessage None
  end.

(** [handleDisconnect(ws)] *)
Definition handleDisconnect (ws : WebSocket) : M unit := λ st,
  match clients st !! ws with
  | Some clientInfo =>
      (match truthy (ci_roomId clientInfo) with
       | Some roomId =>
           let leaveMessage :=
             systemMessage roomId
               (Some (template (or_str (ci_userId clientInfo) (Some "Unknown user"))
                      +:+ " 离开了聊天室")) in
           broadcastToRoom roomId leaveMessage (Some ws);;
           leaveRoom ws roomId
       | None => mret tt
       end;;
       modify (set_clients (delete ws))) st
  | None => (Ok tt, st)
  end.

(** [handleMessage(ws, message)]: the [switch] on [message.type]. *)
Definition handleMessage (ws : WebSocket) (message : Inbound) : M unit :=
  let type := in_type message in
  if bool_decide (type = Some "join") then handleJoin ws message
  else if bool_decide (type = Some "leave") then handleLeave ws message
  else if bool_decide (type = Some "text") || bool_decide (type = Some "audio")
          || bool_decide (type = Some "video") then handleChatMessage ws message
  else if bool_decide (type = Some "system") then handleSystemMessage ws message
  else if bool_decide (type = Some "ping") then ws_send ws (FPong (now env))
  else mret tt.

(** The ['message'] listener installed by [initWebSocket]. *)
Definition onMessage (ws : WebSocket) (data : Data) : M unit :=
  try_catch
    match data with
    | Parsed message => handleMessage ws message
    | Malformed => throw SyntaxError
    end
    (λ _, sendError (now env) ws "Invalid message format").

(** The ['connection'] listener.  A connection object is allocated once: the
    event is ignored for a reference that is already on the heap. *)
Definition onConnection (ws : WebSocket) : M unit := λ st,
  match sockets st !! ws with
  | Some _ => (Ok tt, st)
  | None =>
      (modify (set_sockets (<[ws := mkSocket OPEN None]>));;
       modify (set_wssClients (set_add ws));;
       modify (set_clients (<[ws := mkClientInfo (generateClientId env) None None (now env)]>));;
       ws_send ws (FSystem "连接成功" (now env))) st
  end.

(** The ['close'] listener; the library has marked the socket closed and
    dropped it from [wss.clients]. *)
Definition onClose (ws : WebSocket) : M unit :=
  modify (set_sockets (alter (λ s, mkSocket CLOSED (isAlive s)) ws));;
  modify (set_wssClients (set_delete ws));;
  handleDisconnect ws.

(** The ['error'] listener. *)
Definition onError (ws : WebSocket) : M unit := handleDisconnect ws.

(** A pong control frame arrives.  [initWebSocket] installs listeners for
    ['message'], ['close'] and ['error'] only, so nothing runs. *)
Definition onPong (ws : WebSocket) : M unit := mret tt.

(** [ws.terminate()]: the socket is destroyed; ['close'] is emitted later. *)
Definition terminate (ws : WebSocket) : M unit :=
  modify (set_sockets (alter (λ s, mkSocket (if bool_decide (readyState s = CLOSED)
                                             then CLOSED else CLOSING) (isAlive s)) ws)).

(** The body of the [setInterval] callback of [initWebSocket]. *)
Definition heartbeat : M unit := λ st,
  forEach (λ ws st',
    match sockets st' !! ws with
    | Some s =>
        if bool_decide (isAlive s = Some false) then terminate ws st'
        else (modify (set_sockets (<[ws := mkSocket (readyState s) (Some false)]>));;
              ws_send ws FPing) st'
    | None => (Ok tt, st')
    end) (wssClients st) st.
End Handlers.

(** ** The pull channel (server/app.js) *)

Definition MAX_MESSAGES : nat := 100.

(** The body of POST /api/send. *)
Record SendBody := mkSendBody {
  sb_senderId : option string;
  sb_content : option string;
  sb_type : option string
}.

Inductive Response :=
| Res400 (error : string)
| ResSent (message : Message)            (* { success: true, message } *)
| ResJoined                              (* { success: true } *)
| ResMessages (messages : list Message). (* { messages } *)

(** [recentMessages.shift()] *)
Definition shift {A} (l : list A) : list A := drop 1 l.

Section Polling.
Variable env : Env.

(** POST /api/send *)
Definition apiSend (body : SendBody) : M Response :=
  let type := default "text" (sb_type body) in
  match truthy (sb_senderId body), truthy (sb_content body) with
  | Some senderId, Some content =>
      let message :=
        {| m_id := Some (pretty (now env) +:+ "_" +:+ random env);
           m_type := Some type; m_roomId := "default_room";
           m_senderId := Some senderId; m_timestamp := now env;
           m_content := Some content;
           m_fileName := None; m_fileSize := None; m_duration := None;
           m_thumbnail := None; m_mimeType := None |} in
      modify (set_recentMessages (λ l, l ++ [message]));;
      modify (set_recentMessages (λ l, if bool_decide (MAX_MESSAGES < length l)%nat
                                       then shift l else l));;
      try_catch (saveMessage env message;; mret tt) (λ _, mret tt);;
      mret (ResSent message)
  | _, _ => mret (Res400 "senderId and content required")
  end.

(** POST /api/join *)
Definition apiJoin (senderId : option string) : M Response :=
  match truthy senderId with
  | Some sender =>
      let message :=
        {| m_id := Some (pretty (now env) +:+ "_sys");
           m_type := Some "system"; m_roomId := "default_room";
           m_senderId := Some "system"; m_timestamp := now env;
           m_content := Some (sender +:+ " 加入了聊天室");
           m_fileName := None; m_fileSize := None; m_duration := None;
           m_thumbnail := None; m_mimeType := None |} in
      modify (set_recentMessages (λ l, l ++ [message]));;
      try_catch (saveMessage env message;; mret tt) (λ _, mret tt);;
      mret ResJoined
  | None => mret (Res400 "senderId required")
  end.

(** GET /api/messages?since=...; [since] is [None] when [parseInt] gives NaN. *)
Definition apiMessages (since : option Z) : M Response := λ st,
  let since := or_num since 0 in
  (Ok (ResMessages (filter (λ m, since < m_timestamp m) (recentMessages st))), st).
End Polling.

(** ** The history endpoints (server/app.js) *)

(** A numeric parameter of the query string: missing, not a number for
    [parseInt], or the integer that [parseInt] reads. *)
Inductive QueryInt :=
| Absent
| NotANumber
| Num (z : Z).

(** [const { q = d } = req.query; parseInt(q, 10)], NaN being [None]. *)
Definition parseInt_default (d : Z) (q : QueryInt) : option Z :=
  match q with
  | Absent => Some d
  | NotANumber => None
  | Num z => Some z
  end.

(** [e.message] *)
Definition error_message (e : Error) : string :=
  match e with
  | StoreError reason => reason
  | TypeError => "TypeError"
  | SyntaxError => "SyntaxError"
  end.

Inductive HistoryResponse :=
| History400 (error : string)
| History500 (error : string)
(* GET /history: { success: true, messages, page, size, hasMore } *)
| HistoryPage (messages : list Row) (page size : Z) (hasMore : bool)
(* GET /api/history: { success: true, messages } *)
| HistoryMessages (messages : list Row).

Section History.
Variable env : Env.

(** GET /history?roomId=...&page=...&size=... *)
Definition getHistoryPage (roomId : option string) (page size : QueryInt)
  : M HistoryResponse :=
  try_catch
    match truthy roomId with
    | None => mret (History400 "roomId is required")
    | Some roomId =>
        match parseInt_default 1 page with
        | None => mret (History400 "Invalid page number")
        | Some pageNum =>
            if bool_decide (pageNum < 1) then mret (History400 "Invalid page number")
            else
              match parseInt_default 20 size with
              | None => mret (History400 "Invalid page size (1-100)")
              | Some pageSize =>
                  if bool_decide (pageSize < 1 ∨ 100 < pageSize)
                  then mret (History400 "Invalid page size (1-100)")
                  else
                    messages ← getHistory env roomId pageNum pageSize;
                    mret (HistoryPage messages pageNum pageSize
                            (bool_decide (Z.of_nat (length messages) = pageSize)))
              end
        end
    end
    (λ _, mret (History500 "Internal server error")).

(** GET /api/history?roomId=...&page=...&size=...; [page] and [size] are
    [None] when [parseInt] gives NaN. *)
Definition apiHistory (roomId : option string) (page size : option Z)
  : M HistoryResponse :=
  try_catch
    (let roomId := default "default_room" (truthy roomId) in
     let page := or_num page 1 in
     let size := or_num size 50 in
     messages ← getHistory env roomId page size;
     mret (HistoryMessages (reverse messages)))
    (λ e, mret (History500 (error_message e))).
End History.

(** ** Statistics of the registry (server/websocket.js) *)

Record RoomStat := mkRoomStat {
  clientCount : nat;
  stat_clients : list string
}.

(** [array.map(f)] with a callback that may throw. *)
Fixpoint mapR {A B} (f : A → Result B) (l : list A) : Result (list B) :=
  match l with
  | [] => Ok []
  | x :: l =>
      match f x with
      | Ok y =>
          match mapR f l with
          | Ok ys => Ok (y :: ys)
          | Throw e => Throw e
          end
      | Throw e => Throw e
      end
  end.

(** The callback [ws => { const info = clients.get(ws); ... }] of
    [getRoomStats].  Inside [rooms.forEach((clients, roomId) => ...)] the
    name [clients] is the member Set of the room, not the client table, and a
    Set has no [get]: the call throws a TypeError. *)
Definition member_userId (room : list WebSocket) (ws : WebSocket) : Result string :=
  Throw TypeError.

(** [getRoomStats()] *)
Definition getRoomStats : M (gmap string RoomStat) := λ st,
  match
    map_fold (λ roomId room (stats : Result (gmap string RoomStat)),
                match stats with
                | Ok stats =>
                    match mapR (member_userId room) room with
                    | Ok names => Ok (<[roomId := mkRoomStat (length room) names]> stats)
                    | Throw e => Throw e
                    end
                | Throw e => Throw e
                end) (Ok ∅) (rooms st)
  with
  | Ok stats => (Ok stats, st)
  | Throw e => (Throw e, st)
  end.

(** [getTotalClients()] *)
Definition getTotalClients (st : State) : nat := size (clients st).

(** ** Uploads (server/app.js) *)

(** The file part of a multipart request. *)
Record FilePart := mkFilePart {
  originalname : string;
  mimetype : string;
  file_size : Z
}.

(** [req.file] as the disk storage of multer leaves it: the directory below
    UPLOADS_DIR and the name the two storage callbacks chose. *)
Record StoredFile := mkStoredFile {
  sf_destination : string;
  sf_filename : string;
  sf_part : FilePart
}.

(** The text fields of the request. *)
Record UploadBody := mkUploadBody {
  ub_roomId : option string;
  ub_senderId : option string;
  ub_type : option string
}.

(** The files below UPLOADS_DIR: directory and file name. *)
Definition Disk : Type := gset (string * string).

Inductive UploadResponse :=
| Upload400 (error : string)
| Upload500 (error : string)
(* { success: true, filePath, fileName, fileSize, mimeType } *)
| Uploaded (filePath fileName : string) (fileSize : Z) (mimeType : string).

(** [s.startsWith(prefix)] *)
Definition startsWith (s prefix : string) : bool := String.prefix prefix s.

Section Upload.
(** [path.extname] *)
Variable extname : string → string.
Variable env : Env.
(** [Math.round(Math.random() * 1E9)] *)
Variable suffix : Z.

(** The [destination] callback of the storage. *)
Definition storage_destination (file : FilePart) : string :=
  if startsWith (mimetype file) "audio/" then "audio" else "video".

(** The [filename] callback of the storage. *)
Definition storage_filename (file : FilePart) : string :=
  pretty (now env) +:+ "-" +:+ pretty suffix +:+ extname (originalname file).

Definition fileFilter (file : FilePart) : bool :=
  startsWith (mimetype file) "audio/" || startsWith (mimetype file) "video/".

(** The handler of POST /upload, after [upload.single('file')]. *)
Definition uploadHandler (file : option StoredFile) (body : UploadBody)
  (disk : Disk) (d : Db) : UploadResponse * Disk * Db :=
  match file with
  | None => (Upload400 "No file uploaded", disk, d)
  | Some file =>
      let part := sf_part file in
      match truthy (ub_roomId body), truthy (ub_senderId body) with
      | Some roomId, Some senderId =>
          let fileUrl :=
            "/uploads/" +:+ default "media" (truthy (ub_type body))
            +:+ "/" +:+ sf_filename file in
          let message :=
            {| m_id := None;
               m_type := Some (default (if startsWith (mimetype part) "audio/"
                                        then "audio" else "video")
                                 (truthy (ub_type body)));
               m_roomId := roomId; m_senderId := Some senderId;
               m_timestamp := now env; m_content := Some fileUrl;
               m_fileName := Some (originalname part);
               m_fileSize := Some (file_size part);
               m_duration := None; m_thumbnail := None;
               m_mimeType := Some (mimetype part) |} in
          match db_saveMessage (saveFails env) message d with
          | inr (_, d') =>
              (Uploaded fileUrl (originalname part) (file_size part) (mimetype part),
               disk, d')
          | inl _ => (Upload500 "Failed to upload file", disk, d)
          end
      | _, _ =>
          (* fs.unlinkSync(req.file.path) throws when the file is missing *)
          if bool_decide ((sf_destination file, sf_filename file) ∈ disk)
          then (Upload400 "roomId and senderId are required",
                disk ∖ {[ (sf_destination file, sf_filename file) ]}, d)
          else (Upload500 "Failed to upload file", disk, d)
      end
  end.

(** POST /upload: [upload.single('file')], then the handler.  A part that
    [fileFilter] refuses is not written and its error goes to the error
    middleware; an accepted part is written under the directory and name of
    the storage callbacks.  The size limit is left out: parts are within it. *)
Definition postUpload (part : option FilePart) (body : UploadBody)
  (disk : Disk) (d : Db) : UploadResponse * Disk * Db :=
  match part with
  | None => uploadHandler None body disk d
  | Some part =>
      if fileFilter part then
        let file := mkStoredFile (storage_destination part) (storage_filename part) part in
        uploadHandler (Some file) body
          ({[ (storage_destination part, storage_filename part) ]} ∪ disk) d
      else (Upload500 "Only audio and video files are allowed", disk, d)
  end.
End Upload.

(** ** Events of the server process *)

Inductive Event :=
| Connection (ws : WebSocket)
| Incoming (ws : WebSocket) (data : Data)
| Close (ws : WebSocket)
| SocketError (ws : WebSocket)
| PongFrom (ws : WebSocket)
| HeartbeatTick
| PostSend (body : SendBody)
| PostJoin (senderId : option string).

Definition step (st : State) (ev : Env * Event) : State :=
  let env := ev.1 in
  match ev.2 with
  | Connection ws => exec (onConnection env ws) st
  | Incoming ws data => exec (onMessage env ws data) st
  | Close ws => exec (onClose env ws) st
  | SocketError ws => exec (onError env ws) st
  | PongFrom ws => exec (onPong ws) st
  | HeartbeatTick => exec heartbeat st
  | PostSend body => exec (apiSend env body) st
  | PostJoin senderId => exec (apiJoin env senderId) st
  end.

Definition run (st : State) (trace : list (Env * Event)) : State :=
  foldl step st trace.

(** The frames written to one connection, oldest first. *)
Definition received (ws : WebSocket) (st : State) : list Frame :=
  (filter (λ p, p.1 = ws) (sent st)).*2.

(** The rows of one room in the store. *)
Definition rows_of (roomId : string) (st : State) : list Row :=
  filter (λ r, row_roomId r = roomId) (rows (db st)).

(** [poll(since)]: the messages GET /api/messages answers with. *)
Definition poll (since : Z) (st : State) : list Message :=
  match (apiMessages (Some since) st).1 with
  | Ok (ResMessages l) => l
  | _ => []
  end.

(** ** Vocabulary of the properties *)

(** The members of a room a broadcast reaches: open and not excluded. *)
Definition recipients (roomId : string) (exclude : option WebSocket) (st : State)
  : list WebSocket :=
  match rooms st !! roomId with
  | Some room => filter (λ c, Some c ≠ exclude ∧ is_open c st = true) room
  | None => []
  end.

(** Registry invariant: no room of the map has an empty member set. *)
Definition rooms_nonempty (st : State) : Prop :=
  ∀ roomId room, rooms st !! roomId = Some room → room ≠ [].

(** A connection that is bound to a room carries user identity [user]. *)
Definition bound_as (ws : WebSocket) (user : string) (st : State) : Prop :=
  ∀ clientInfo, clients st !! ws = Some clientInfo →
    is_Some (truthy (ci_roomId clientInfo)) → ci_userId clientInfo = Some user.

(** A join frame of [ws] that passes the validation of [handleJoin]. *)
Definition is_join_of (ws : WebSocket) (ev : Env * Event) : Prop :=
  ∃ message, ev.2 = Incoming ws (Parsed message)
    ∧ in_type message = Some "join"
    ∧ is_Some (truthy (in_roomId message))
    ∧ is_Some (truthy (in_senderId message)).

(** The [type] values [handleMessage] routes to [handleChatMessage]. *)
Definition chat_type (t : option string) : Prop :=
  t = Some "text" ∨ t = Some "audio" ∨ t = Some "video".

(** [m] keeps property [P] of the state, however it ends. *)
Definition preserves {A} (P : State → Prop) (m : M A) : Prop :=
  ∀ st, P st → P (m st).2.

(** [P] reads the state only through [rooms] and [clients]. *)
Definition registry_only (P : State → Prop) : Prop :=
  ∀ st st', rooms st = rooms st' → clients st = clients st' → P st → P st'.

(** [P] reads the state only through [clients]. *)
Definition clients_only (P : State → Prop) : Prop :=
  ∀ st st', clients st = clients st' → P st → P st'.

(** The connection is known and its [userId] is [user]. *)
Definition identified (ws : WebSocket) (user : string) (st : State) : Prop :=
  ci_userId <$> clients st !! ws = Some (Some user).

Definition oldest_first (a b : Row) : Prop := row_timestamp a <= row_timestamp b.

(** A server with no rooms, no connections and an empty table. *)
Definition emptyState : State := mkState ∅ ∅ [] ∅ (mkDb [] 0) [] [].

(** Environments in which the store works. *)
Definition calm (t : Z) : Env := mkEnv t "k3x9q" false false.
(** Environments in which the INSERT fails. *)
Definition stormy (t : Z) : Env := mkEnv t "k3x9q" true false.

Definition join_frame (roomId senderId : string) : Data :=
  Parsed (mkInbound (Some "join") (Some roomId) (Some senderId) None None None None None None).

Definition text_frame (senderId : option string) (content : string)
  (timestamp : option Z) : Data :=
  Parsed (mkInbound (Some "text") None senderId (Some content) timestamp
            None None None None).

Definition text_message (roomId senderId content : string) (timestamp : Z) : Message :=
  {| m_id := None; m_type := Some "text"; m_roomId := roomId;
     m_senderId := Some senderId; m_timestamp := timestamp;
     m_content := Some content;
     m_fileName := None; m_fileSize := None; m_duration := None;
     m_thumbnail := None; m_mimeType := None |}.

(** Scenario A: connection 1 joins [r1] as [u1] and sends the text "hi". *)
Definition scenarioA (t0 t1 t2 : Z) : State :=
  run emptyState
    [ (calm t0, Connection 1%nat);
      (calm t1, Incoming 1%nat (join_frame "r1" "u1"));
      (calm t2, Incoming 1%nat (text_frame None "hi" None)) ].

(** Connections 1 and 2 are both members of [r1], as [u1] and [u2]. *)
Definition two_in_r1 : State :=
  run (initState 1000)
    [ (calm 1001, Connection 1%nat);
      (calm 1002, Connection 2%nat);
      (calm 1003, Incoming 1%nat (join_frame "r1" "u1"));
      (calm 1004, Incoming 2%nat (join_frame "r1" "u2")) ].

(** The frames written and the rows stored while handling one event. *)
Definition frames_of (st : State) (ev : Env * Event) : list (WebSocket * Frame) :=
  drop (length (sent st)) (sent (step st ev)).
Definition stored_by (st : State) (ev : Env * Event) : list Row :=
  drop (length (rows (db st))) (rows (db (step st ev))).

(** "The timestamp of the message is the server clock": every chat or
    presence frame written and every row stored for the event carries
    [Date.now()]. *)
Definition server_stamped (st : State) (ev : Env * Event) : Prop :=
  (∀ c m, (c, FMessage m) ∈ frames_of st ev → m_timestamp m = now ev.1)
  ∧ (∀ row, row ∈ stored_by st ev → row_timestamp row = now ev.1).

(** Connection 1 is the only member of [r1], as [u1]. *)
Definition one_in_r1 : State :=
  run (initState 1000)
    [ (calm 1001, Connection 1%nat);
      (calm 1003, Incoming 1%nat (join_frame "r1" "u1")) ].

(** Connection 1 has sent three texts to [r1], the second one with a client
    timestamp in the past; connection 2 is connected and not yet in a room. *)
Definition chatty_r1 : State :=
  run one_in_r1
    [ (calm 1010, Incoming 1%nat (text_frame None "first" None));
      (calm 1020, Incoming 1%nat (text_frame None "backdated" (Some 7)));
      (calm 1030, Incoming 1%nat (text_frame None "third" None));
      (calm 1040, Connection 2%nat) ].

(** What one heartbeat does to a socket of [wss.clients]. *)
Definition after_heartbeat (s : Socket) : Socket :=
  if bool_decide (isAlive s = Some false)
  then mkSocket (if bool_decide (readyState s = CLOSED) then CLOSED else CLOSING) (isAlive s)
  else mkSocket (readyState s) (Some false).

Definition is_pong (ev : Env * Event) : Prop := ∃ ws, ev.2 = PongFrom ws.

(** The parts of the state other than the outputs, the store and the poll
    buffer are the same in both states. *)
Definition same_core (st st' : State) : Prop :=
  rooms st' = rooms st ∧ clients st' = clients st
  ∧ sockets st' = sockets st ∧ wssClients st' = wssClients st.

(** Every member of a room is a known connection bound to that room. *)
Definition member_is_bound (st : State) : Prop :=
  ∀ roomId room ws, rooms st !! roomId = Some room → ws ∈ room →
    ∃ clientInfo, clients st !! ws = Some clientInfo
                  ∧ truthy (ci_roomId clientInfo) = Some roomId.

(** Every connection bound to a room is a member of it. *)
Definition bound_is_member (st : State) : Prop :=
  ∀ ws clientInfo roomId, clients st !! ws = Some clientInfo →
    truthy (ci_roomId clientInfo) = Some roomId →
    ∃ room, rooms st !! roomId = Some room ∧ ws ∈ room.

(** Every connection of [clients] is a socket of the heap. *)
Definition client_has_socket (st : State) : Prop :=
  ∀ ws, is_Some (clients st !! ws) → is_Some (sockets st !! ws).

Definition registry_consistent (st : State) : Prop :=
  member_is_bound st ∧ bound_is_member st ∧ client_has_socket st.

(** A leave frame. *)
Definition leave_frame : Data :=
  Parsed (mkInbound (Some "leave") None None None None None None None None).

(** Events that are neither the opening or closing of a connection, nor a
    join or leave frame, nor a heartbeat. *)
Definition registry_neutral (ev : Event) : Prop :=
  match ev with
  | Incoming _ (Parsed message) =>
      in_type message ≠ Some "join" ∧ in_type message ≠ Some "leave"
  | Incoming _ Malformed | PongFrom _ | PostSend _ | PostJoin _ => True
  | Connection _ | Close _ | SocketError _ | HeartbeatTick => False
  end.

(** Events of the pull channel. *)
Definition is_http (ev : Event) : Prop :=
  match ev with
  | PostSend _ | PostJoin _ => True
  | _ => False
  end.

(** A room that is not in the room map: no membership query finds it and a
    broadcast to it reaches nobody. *)
Definition room_absent (roomId : string) (st : State) : Prop :=
  rooms st !! roomId = None ∧ ∀ exclude, recipients roomId exclude st = [].

(** ** The whole server *)

(** Everything that reaches the server process: the events of the push
    channel and the two POSTs of the polling API, the three GET endpoints
    that read messages, and uploads.  (GET /health and GET /rooms touch no
    state.) *)
Inductive Request :=
| OfEvent (ev : Event)
| GetMessages (since : option Z)
| GetHistoryPage (roomId : option string) (page size : QueryInt)
| GetApiHistory (roomId : option string) (page size : option Z)
| PostUploadFile (suffix : Z) (part : option FilePart) (body : UploadBody).

Section Server.
(** [path.extname] *)
Variable extname : string → string.

Definition serve (sv : State * Disk) (rq : Env * Request) : State * Disk :=
  let env := rq.1 in
  match rq.2 with
  | OfEvent ev => (step sv.1 (env, ev), sv.2)
  | GetMessages since => (exec (apiMessages since) sv.1, sv.2)
  | GetHistoryPage roomId page size =>
      (exec (getHistoryPage env roomId page size) sv.1, sv.2)
  | GetApiHistory roomId page size =>
      (exec (apiHistory env roomId page size) sv.1, sv.2)
  | PostUploadFile suffix part body =>
      let result := postUpload extname env suffix part body sv.2 (db sv.1) in
      (set_db (λ _, result.2) sv.1, result.1.2)
  end.

Definition serve_all (sv : State * Disk) (trace : list (Env * Request)) : State * Disk :=
  foldl serve sv trace.
End Server.

Definition send_request : Event :=
  PostSend (mkSendBody (Some "u1") (Some "hello") None).

(** * Properties *)

(** ** The handler monad *)

Section Preservation.
Context {P : State → Prop}.

Lemma preserves_ret {A} (a : A) : preserves P (mret a).
Proof. intros st HP. exact HP. Qed.

Lemma preserves_throw {A} (e : Error) : preserves P (throw (A := A) e).
Proof. intros st HP. exact HP. Qed.

Lemma preserves_bind {A B} (m : M A) (f : A → M B) :
  preserves P m → (∀ a, preserves P (f a)) → preserves P (m ≫= f).
Proof.
  intros Hm Hf st HP. specialize (Hm st HP).
  unfold mbind, M_bind. destruct (m st) as [[a|e] st']; simpl in *.
  - by apply Hf.
  - done.
Qed.

Lemma preserves_try_catch {A} (body : M A) (handler : Error → M A) :
  preserves P body → (∀ e, preserves P (handler e)) →
  preserves P (try_catch body handler).
Proof.
  intros Hm Hh st HP. specialize (Hm st HP).
  unfold try_catch. destruct (body st) as [[a|e] st']; simpl in *.
  - done.
  - by apply Hh.
Qed.

Lemma preserves_when (b : bool) (m : M unit) :
  preserves P m → preserves P (when b m).
Proof. intros Hm. destruct b; [done | apply preserves_ret]. Qed.

Lemma preserves_forEach {A} (f : A → M unit) (l : list A) :
  (∀ x, preserves P (f x)) → preserves P (forEach f l).
Proof.
  intros Hf. induction l as [|x l IH]; simpl.
  - apply preserves_ret.
  - apply preserves_bind; [apply Hf | intros _; apply IH].
Qed.

Lemma preserves_modify (f : State → State) :
  (∀ st, P st → P (f st)) → preserves P (modify f).
Proof. intros Hf st HP. by apply Hf. Qed.

(** Handlers that leave the registry alone. *)
Hypothesis P_registry : registry_only P.

Lemma preserves_ws_send ws frame : preserves P (ws_send ws frame).
Proof.
  intros st HP. unfold ws_send. simpl.
  destruct (is_open ws st); [| done]. by eapply P_registry; [| | exact HP].
Qed.

Lemma preserves_sendError t ws error : preserves P (sendError t ws error).
Proof.
  intros st HP. unfold sendError.
  destruct (is_open ws st); [by apply preserves_ws_send | done].
Qed.

Lemma preserves_getClient ws : preserves P (getClient ws).
Proof. intros st HP. unfold getClient. by destruct (clients st !! ws). Qed.

Lemma preserves_saveMessage env message : preserves P (saveMessage env message).
Proof.
  intros st HP. unfold saveMessage.
  destruct (db_saveMessage _ _ _) as [e|[id d]]; simpl; [done |].
  by eapply P_registry; [| | exact HP].
Qed.

Lemma preserves_getHistory env roomId page size :
  preserves P (getHistory env roomId page size).
Proof.
  intros st HP. unfold getHistory. by destruct (db_getHistory _ _ _ _ _).
Qed.

Lemma preserves_broadcastToRoom roomId message exclude :
  preserves P (broadcastToRoom roomId message exclude).
Proof.
  intros st HP. unfold broadcastToRoom.
  destruct (rooms st !! roomId) as [room|]; [| done].
  apply preserves_forEach; [| done].
  intros client st' HP'.
  destruct (_ && _); [by apply preserves_ws_send | done].
Qed.

Lemma preserves_set_sockets f : preserves P (modify (set_sockets f)).
Proof. apply preserves_modify. intros st HP. by eapply P_registry; [| | exact HP]. Qed.

Lemma preserves_set_wssClients f : preserves P (modify (set_wssClients f)).
Proof. apply preserves_modify. intros st HP. by eapply P_registry; [| | exact HP]. Qed.

Lemma preserves_set_recentMessages f : preserves P (modify (set_recentMessages f)).
Proof. apply preserves_modify. intros st HP. by eapply P_registry; [| | exact HP]. Qed.
End Preservation.

Create HintDb preserve.
#[local] Hint Resolve preserves_ret preserves_throw preserves_when preserves_modify
  preserves_ws_send preserves_sendError preserves_getClient preserves_saveMessage
  preserves_getHistory preserves_broadcastToRoom preserves_set_sockets
  preserves_set_wssClients preserves_set_recentMessages : preserve.

(** Splits a handler along its binds, handlers and case distinctions and
    closes the leaves with the [preserve] hints. *)
Ltac preserving :=
  repeat first
    [ progress eauto 3 with preserve
    | apply preserves_bind; [| intros ?]
    | apply preserves_try_catch; [| intros ?]
    | match goal with
      | |- preserves _ (match ?x with _ => _ end) => destruct x eqn:?
      | |- preserves _ (if ?b then _ else _) => destruct b eqn:?
      end ].

(** ** Handlers keep every registry property that the registry primitives keep *)

Section Handlers_preserve.
Context {P : State → Prop}.
Variable joinable : WebSocket → Prop.
Hypothesis P_registry : registry_only P.
Hypothesis P_leaveRoom : ∀ ws roomId, preserves P (leaveRoom ws roomId).
Hypothesis P_addToRoom : ∀ ws roomId, preserves P (addToRoom roomId ws).
Hypothesis P_bind : ∀ ws roomId senderId, joinable ws →
  preserves P (modify (set_clients (alter (bind_room roomId senderId) ws))).
Hypothesis P_delete : ∀ ws, preserves P (modify (set_clients (delete ws))).
Hypothesis P_fresh : ∀ ws id t,
  preserves P (modify (set_clients (<[ws := mkClientInfo id None None t]>))).

Lemma preserves_handleJoin env ws message :
  (is_Some (truthy (in_roomId message)) → is_Some (truthy (in_senderId message)) →
   joinable ws) →
  preserves P (handleJoin env ws message).
Proof.
  intros Hjoin. unfold handleJoin.
  destruct (truthy (in_roomId message)) as [roomId|] eqn:Hr;
    destruct (truthy (in_senderId message)) as [senderId|] eqn:Hs;
    try (by apply preserves_sendError).
  assert (joinable ws) by (apply Hjoin; eauto).
  preserving.
Qed.

Lemma preserves_handleLeave env ws message : preserves P (handleLeave env ws message).
Proof. unfold handleLeave. preserving. Qed.

Lemma preserves_handleChatMessage env ws message :
  preserves P (handleChatMessage env ws message).
Proof. unfold handleChatMessage. preserving. Qed.

Lemma preserves_handleSystemMessage env ws message :
  preserves P (handleSystemMessage env ws message).
Proof. unfold handleSystemMessage. preserving. Qed.

Lemma preserves_handleDisconnect env ws : preserves P (handleDisconnect env ws).
Proof.
  intros st. unfold handleDisconnect.
  destruct (clients st !! ws) as [clientInfo|]; [| done].
  revert st. change (preserves P
    (match truthy (ci_roomId clientInfo) with
     | Some roomId =>
         broadcastToRoom roomId
           (systemMessage env roomId
              (Some (template (or_str (ci_userId clientInfo) (Some "Unknown user"))
                     +:+ " 离开了聊天室"))) (Some ws);;
         leaveRoom ws roomId
     | None => mret tt
     end;; modify (set_clients (delete ws)))).
  preserving.
Qed.

Lemma preserves_onMessage env ws data :
  (∀ message, data = Parsed message → in_type message = Some "join" →
     is_Some (truthy (in_roomId message)) → is_Some (truthy (in_senderId message)) →
     joinable ws) →
  preserves P (onMessage env ws data).
Proof.
  intros Hjoin. unfold onMessage. apply preserves_try_catch; [| preserving].
  destruct data as [|message]; [preserving |].
  unfold handleMessage.
  destruct (bool_decide (in_type message = Some "join")) eqn:Hty.
  - apply bool_decide_eq_true in Hty. apply preserves_handleJoin; eauto.
  - repeat match goal with
           | |- preserves _ (if ?b then _ else _) => destruct b
           end;
      auto using preserves_handleLeave, preserves_handleChatMessage,
        preserves_handleSystemMessage with preserve.
Qed.

Lemma preserves_onConnection env ws : preserves P (onConnection env ws).
Proof.
  intros st. unfold onConnection.
  destruct (sockets st !! ws); [done |].
  revert st. change (preserves P
    (modify (set_sockets (<[ws := mkSocket OPEN None]>));;
     modify (set_wssClients (set_add ws));;
     modify (set_clients
               (<[ws := mkClientInfo (generateClientId env) None None (now env)]>));;
     ws_send ws (FSystem "连接成功" (now env)))).
  preserving.
Qed.

Lemma preserves_onClose env ws : preserves P (onClose env ws).
Proof.
  unfold onClose. preserving. apply preserves_handleDisconnect.
Qed.

Lemma preserves_heartbeat : preserves P heartbeat.
Proof.
  intros st. unfold heartbeat. apply preserves_forEach.
  intros ws st' HP. destruct (sockets st' !! ws) as [s|]; [| done].
  destruct (bool_decide _).
  - revert HP. apply preserves_set_sockets, P_registry.
  - revert st' HP. change (preserves P
      (modify (set_sockets (<[ws := mkSocket (readyState s) (Some false)]>));;
       ws_send ws FPing)).
    preserving.
Qed.

Lemma preserves_apiSend env body : preserves P (apiSend env body).
Proof. unfold apiSend. preserving. Qed.

Lemma preserves_apiJoin env senderId : preserves P (apiJoin env senderId).
Proof. unfold apiJoin. preserving. Qed.

(** One event keeps [P], unless it is a valid join of a connection that is
    not [joinable]. *)
Lemma step_preserves st ev :
  (∀ ws, is_join_of ws ev → joinable ws) → P st → P (step st ev).
Proof.
  intros Hjoin HP. destruct ev as [env ev]. unfold step; simpl.
  destruct ev as [ws|ws data|ws|ws|ws| |body|senderId]; unfold exec.
  - by apply preserves_onConnection.
  - apply preserves_onMessage; [| done].
    intros message -> Hty Hr Hs. apply Hjoin. by exists message.
  - by apply preserves_onClose.
  - by apply preserves_handleDisconnect.
  - done.
  - by apply preserves_heartbeat.
  - by apply preserves_apiSend.
  - by apply preserves_apiJoin.
Qed.

Lemma run_preserves trace st :
  Forall (λ ev, ∀ ws, is_join_of ws ev → joinable ws) trace → P st → P (run st trace).
Proof.
  revert st. induction trace as [|ev trace IH]; intros st Hall HP; [done |].
  inversion Hall as [|? ? Hev Htrace]; subst. simpl.
  apply IH; [done |]. by apply step_preserves.
Qed.
End Handlers_preserve.

(** ** The registry invariant *)

Lemma rooms_nonempty_registry : registry_only rooms_nonempty.
Proof. intros st st' Hr _ HP roomId room. rewrite <- Hr. apply HP. Qed.

Lemma rooms_nonempty_clients f st : rooms_nonempty st → rooms_nonempty (set_clients f st).
Proof. intros HP roomId room. apply HP. Qed.

Lemma leaveRoom_rooms ws roomId st :
  rooms (exec (leaveRoom ws roomId) st) =
    match rooms st !! roomId with
    | Some room =>
        if bool_decide (set_delete ws room = [])
        then delete roomId (rooms st)
        else <[roomId := set_delete ws room]> (rooms st)
    | None => rooms st
    end.
Proof.
  unfold leaveRoom, exec, modify, mbind, M_bind; simpl.
  destruct (rooms st !! roomId) as [room|]; [| done].
  destruct (set_delete ws room); by simpl.
Qed.

Lemma leaveRoom_clients ws roomId st :
  clients (exec (leaveRoom ws roomId) st) = alter clear_room ws (clients st).
Proof.
  unfold leaveRoom, exec, modify, mbind, M_bind; simpl.
  destruct (rooms st !! roomId) as [room|]; [| done].
  by destruct (bool_decide _).
Qed.

Lemma rooms_nonempty_leaveRoom ws roomId : preserves rooms_nonempty (leaveRoom ws roomId).
Proof.
  intros st HP r room. fold (exec (leaveRoom ws roomId) st).
  rewrite leaveRoom_rooms.
  destruct (rooms st !! roomId) as [room0|] eqn:Hroom; [| apply HP].
  case_bool_decide as Hempty.
  - intros Hr. apply lookup_delete_Some in Hr as [_ Hr]. by eapply HP.
  - intros Hr. apply lookup_insert_Some in Hr as [[_ <-]|[_ Hr]]; [done |].
    by eapply HP.
Qed.

Lemma set_add_nonempty ws s : set_add ws s ≠ [].
Proof.
  unfold set_add. case_bool_decide as Hin.
  - intros ->. by apply not_elem_of_nil in Hin.
  - by destruct s.
Qed.

Lemma rooms_nonempty_addToRoom ws roomId : preserves rooms_nonempty (addToRoom roomId ws).
Proof.
  intros st HP r room. unfold addToRoom, modify, mbind, M_bind; simpl.
  destruct (decide (r = roomId)) as [->|Hne].
  - rewrite lookup_alter_eq. intros Hr.
    apply fmap_Some in Hr as (s & _ & ->). apply set_add_nonempty.
  - rewrite lookup_alter_ne by done.
    case_bool_decide; [apply HP |].
    rewrite lookup_insert_ne by done. apply HP.
Qed.

Lemma rooms_nonempty_run trace st :
  rooms_nonempty st → rooms_nonempty (run st trace).
Proof.
  apply (run_preserves (λ _, True)); try done.
  - apply rooms_nonempty_registry.
  - apply rooms_nonempty_leaveRoom.
  - apply rooms_nonempty_addToRoom.
  - intros ws roomId senderId _ st' HP. by apply rooms_nonempty_clients.
  - intros ws st' HP. by apply rooms_nonempty_clients.
  - intros ws id t st' HP. by apply rooms_nonempty_clients.
  - by apply Forall_forall.
Qed.

Lemma rooms_nonempty_init startup : rooms_nonempty (initState startup).
Proof. intros roomId room Hr. simpl in Hr. by rewrite lookup_empty in Hr. Qed.

(** ** The identity bound to a connection *)

Lemma clients_only_registry P : clients_only P → registry_only P.
Proof. intros HP st st' _ Hc. by apply HP. Qed.

Lemma bound_as_clients_only ws user : clients_only (bound_as ws user).
Proof. intros st st' Hc HP clientInfo. rewrite <- Hc. apply HP. Qed.

Lemma identified_clients_only ws user : clients_only (identified ws user).
Proof. intros st st' Hc. unfold identified. by rewrite Hc. Qed.

Lemma preserves_addToRoom P ws roomId : clients_only P → preserves P (addToRoom roomId ws).
Proof.
  intros HP st Hst. unfold addToRoom, modify, mbind, M_bind; simpl.
  by eapply HP; [| exact Hst].
Qed.

Lemma truthy_clear_room clientInfo : truthy (ci_roomId (clear_room clientInfo)) = None.
Proof. done. Qed.

Lemma bound_as_leaveRoom ws user ws' roomId :
  preserves (bound_as ws user) (leaveRoom ws' roomId).
Proof.
  intros st HP clientInfo. fold (exec (leaveRoom ws' roomId) st).
  rewrite leaveRoom_clients. destruct (decide (ws' = ws)) as [->|Hne].
  - rewrite lookup_alter_eq. intros Hci.
    apply fmap_Some in Hci as (ci & _ & ->). rewrite truthy_clear_room.
    intros [? ?]; discriminate.
  - rewrite lookup_alter_ne by done. apply HP.
Qed.

Lemma bound_as_run ws user trace st :
  Forall (λ ev, ¬ is_join_of ws ev) trace →
  bound_as ws user st → bound_as ws user (run st trace).
Proof.
  intros Hjoins. apply (run_preserves (λ ws', ws' ≠ ws)).
  - apply clients_only_registry, bound_as_clients_only.
  - intros ws' roomId. apply bound_as_leaveRoom.
  - intros ws' roomId. apply preserves_addToRoom, bound_as_clients_only.
  - intros ws' roomId senderId Hne st' HP clientInfo; simpl.
    rewrite lookup_alter_ne by done. apply HP.
  - intros ws' st' HP clientInfo; simpl.
    destruct (decide (ws' = ws)) as [->|Hne].
    + by rewrite lookup_delete_eq.
    + rewrite lookup_delete_ne by done. apply HP.
  - intros ws' id t st' HP clientInfo; simpl.
    destruct (decide (ws' = ws)) as [->|Hne].
    + rewrite lookup_insert_eq. intros [= <-]. simpl. intros [? ?]; discriminate.
    + rewrite lookup_insert_ne by done. apply HP.
  - eapply Forall_impl; [exact Hjoins |].
    intros ev Hev ws' Hjoin ->. by apply Hev.
Qed.

Lemma identified_bound_as ws user st : identified ws user st → bound_as ws user st.
Proof.
  unfold identified. intros Hid clientInfo Hci _. rewrite Hci in Hid. by injection Hid.
Qed.

Lemma bind_modify_post {B} (f : State → State) (k : unit → M B) (Q : State → Prop) st :
  preserves Q (k tt) → Q (f st) → Q ((modify f ≫= k) st).2.
Proof. intros Hk HQ. by apply Hk. Qed.

Lemma bind_ret {A B} (a : A) (k : A → M B) st : (mret a ≫= k) st = k a st.
Proof. done. Qed.

Lemma bind_leaveRoom {B} ws roomId (k : unit → M B) st :
  (leaveRoom ws roomId ≫= k) st = k tt (exec (leaveRoom ws roomId) st).
Proof. done. Qed.

(** A valid join binds the identity it carries, whatever the state before and
    whether or not the presence message can be stored afterwards. *)
Lemma handleJoin_binds env ws message roomId senderId st :
  truthy (in_roomId message) = Some roomId →
  truthy (in_senderId message) = Some senderId →
  bound_as ws senderId (exec (handleJoin env ws message) st).
Proof.
  intros Hr Hs. unfold handleJoin. rewrite Hr, Hs.
  unfold exec, mbind at 1. unfold M_bind at 1. unfold getClient at 1.
  destruct (clients st !! ws) as [clientInfo|] eqn:Hci; simpl.
  - pose proof (identified_clients_only ws senderId) as Hco.
    pose proof (clients_only_registry _ Hco) as Hreg.
    pose proof (λ r, preserves_addToRoom _ ws r Hco) as Hadd.
    apply identified_bound_as.
    destruct (truthy (ci_roomId clientInfo)) as [previous|].
    + rewrite bind_leaveRoom. apply bind_modify_post; [preserving |].
      unfold identified; cbn [clients set_clients].
      by rewrite lookup_alter_eq, leaveRoom_clients, lookup_alter_eq, Hci.
    + rewrite bind_ret.
      apply bind_modify_post; [preserving |].
      unfold identified; simpl. by rewrite lookup_alter_eq, Hci.
  - intros clientInfo. by rewrite Hci.
Qed.

Lemma join_step_binds env ws message roomId senderId st :
  in_type message = Some "join" →
  truthy (in_roomId message) = Some roomId →
  truthy (in_senderId message) = Some senderId →
  bound_as ws senderId (step st (env, Incoming ws (Parsed message))).
Proof.
  intros Hty Hr Hs. unfold step, exec, onMessage, try_catch, handleMessage; simpl.
  rewrite Hty. rewrite bool_decide_eq_true_2 by done.
  pose proof (handleJoin_binds env ws message roomId senderId st Hr Hs) as Hb.
  unfold exec in Hb. destruct (handleJoin env ws message st) as [[[]|e] st1]; [done |].
  revert Hb. apply preserves_sendError.
  apply clients_only_registry, bound_as_clients_only.
Qed.

(** ** Fan-out *)

Lemma is_open_set_sent ws f st : is_open ws (set_sent f st) = is_open ws st.
Proof. done. Qed.

Lemma set_sent_set_sent f g st : set_sent f (set_sent g st) = set_sent (f ∘ g) st.
Proof. done. Qed.

Lemma set_sent_nil st : set_sent (λ s, s ++ []) st = st.
Proof. destruct st. unfold set_sent; simpl. by rewrite app_nil_r. Qed.

Lemma forEach_send message exclude room st :
  forEach (λ client st',
      if bool_decide (Some client ≠ exclude) && is_open client st'
      then ws_send client (FMessage message) st'
      else (Ok tt, st')) room st
  = (Ok tt, set_sent (λ s, s ++ ((λ c, (c, FMessage message)) <$>
                filter (λ c, Some c ≠ exclude ∧ is_open c st = true) room)) st).
Proof.
  revert st. induction room as [|c room IH]; intros st.
  - simpl. by rewrite set_sent_nil.
  - cbn [forEach]. unfold mbind at 1. unfold M_bind at 1.
    rewrite filter_cons. unfold ws_send at 1.
    case_bool_decide as Hex; simpl.
    + destruct (is_open c st) eqn:Hopen; simpl.
      * rewrite decide_True by done. rewrite IH.
        f_equal. rewrite set_sent_set_sent. unfold set_sent; simpl.
        by rewrite <- app_assoc.
      * rewrite decide_False by (intros [_ ?]; done). apply IH.
    + rewrite decide_False by (intros [? _]; done). apply IH.
Qed.

Lemma broadcastToRoom_sent roomId message exclude st :
  broadcastToRoom roomId message exclude st
  = (Ok tt, set_sent (λ s, s ++ ((λ c, (c, FMessage message)) <$>
                                 recipients roomId exclude st)) st).
Proof.
  unfold broadcastToRoom, recipients.
  destruct (rooms st !! roomId) as [room|].
  - apply forEach_send.
  - by rewrite set_sent_nil.
Qed.

(** ** Chat messages *)

Lemma truthy_Some o s : truthy o = Some s → o = Some s ∧ s ≠ "".
Proof.
  destruct o as [s'|]; simpl; [| done].
  case_bool_decide; [done |]. by intros [= <-].
Qed.

Lemma handleMessage_chat env ws message :
  chat_type (in_type message) →
  handleMessage env ws message = handleChatMessage env ws message.
Proof.
  unfold handleMessage.
  by intros [-> | [-> | ->]].
Qed.

(** An accepted chat frame: the store decides between fan-out of the
    normalized message and an error reply to the sender. *)
Lemma chat_step env ws message st clientInfo roomId content :
  chat_type (in_type message) →
  clients st !! ws = Some clientInfo →
  truthy (ci_roomId clientInfo) = Some roomId →
  truthy (in_content message) = Some content →
  let normalized := normalizedMessage env clientInfo roomId message in
  step st (env, Incoming ws (Parsed message)) =
    match db_saveMessage (saveFails env) normalized (db st) with
    | inr (id, d) =>
        set_sent (λ s, s ++ ((λ c, (c, FMessage normalized)) <$>
                             recipients roomId None st))
          (set_db (λ _, d) st)
    | inl _ => exec (sendError (now env) ws "Invalid message format") st
    end.
Proof.
  intros Hty Hci Hroom Hcontent normalized.
  unfold step, exec, onMessage, try_catch; simpl.
  rewrite handleMessage_chat by done.
  unfold handleChatMessage, mbind at 1. unfold M_bind at 1, getClient.
  rewrite Hci, Hroom, Hcontent. fold normalized.
  unfold mbind, M_bind, saveMessage.
  destruct (db_saveMessage _ _ _) as [e|[id d]]; [done |].
  by rewrite broadcastToRoom_sent.
Qed.

Lemma chat_insert_row env message clientInfo roomId content user d :
  chat_type (in_type message) →
  truthy (in_content message) = Some content →
  truthy (ci_userId clientInfo) = Some user →
  ∃ row, insert_row (normalizedMessage env clientInfo roomId message) d = inr row
    ∧ row_senderId row = user
    ∧ row_timestamp row = or_num (in_timestamp message) (now env)
    ∧ row_roomId row = roomId
    ∧ row_content row = content.
Proof.
  intros Hty Hcontent Huser.
  apply truthy_Some in Hcontent as [Hcontent _].
  unfold insert_row, normalizedMessage; simpl.
  unfold or_str, truthy_str. apply truthy_Some in Huser as [-> Hne].
  rewrite bool_decide_eq_false_2 by done. simpl. rewrite Hcontent.
  destruct Hty as [-> | [-> | ->]]; eexists; (split; [reflexivity |]); done.
Qed.

(** The persisted row and the frames of an accepted chat message whose INSERT
    succeeds. *)
Lemma chat_step_stored env ws message st clientInfo roomId content user :
  chat_type (in_type message) →
  clients st !! ws = Some clientInfo →
  truthy (ci_roomId clientInfo) = Some roomId →
  truthy (in_content message) = Some content →
  truthy (ci_userId clientInfo) = Some user →
  saveFails env = false →
  let st' := step st (env, Incoming ws (Parsed message)) in
  let normalized := normalizedMessage env clientInfo roomId message in
  ∃ row,
    insert_row normalized (db st) = inr row
    ∧ rows (db st') = rows (db st) ++ [row]
    ∧ sent st' = sent st ++ ((λ c, (c, FMessage normalized)) <$> recipients roomId None st).
Proof.
  intros Hty Hci Hroom Hcontent Huser Hsave st' normalized.
  destruct (chat_insert_row env message clientInfo roomId content user (db st)
              Hty Hcontent Huser) as (row & Hrow & _).
  exists row. subst st'.
  rewrite (chat_step env ws message st clientInfo roomId content) by done.
  unfold db_saveMessage. rewrite Hsave. fold normalized. fold normalized in Hrow.
  by rewrite Hrow.
Qed.

(** C7: after a valid join of a connection as [user], and for as long as the
    connection sends no other valid join, every chat frame accepted from it
    is persisted and broadcast with [senderId = user], whatever [senderId]
    the frame itself carries. *)
Theorem C7_sender_is_bound_identity
  env0 st0 ws join joinedRoom user trace env message clientInfo roomId content :
  in_type join = Some "join" →
  truthy (in_roomId join) = Some joinedRoom →
  truthy (in_senderId join) = Some user →
  Forall (λ ev, ¬ is_join_of ws ev) trace →
  let st := run (step st0 (env0, Incoming ws (Parsed join))) trace in
  chat_type (in_type message) →
  clients st !! ws = Some clientInfo →
  truthy (ci_roomId clientInfo) = Some roomId →
  truthy (in_content message) = Some content →
  saveFails env = false →
  let st' := step st (env, Incoming ws (Parsed message)) in
  ∃ normalized row,
    m_senderId normalized = Some user
    ∧ row_senderId row = user
    ∧ rows (db st') = rows (db st) ++ [row]
    ∧ sent st' = sent st ++ ((λ c, (c, FMessage normalized)) <$> recipients roomId None st).
Proof.
  intros Hty Hr Hs Htrace st Hchat Hci Hroom Hcontent Hsave st'.
  assert (bound_as ws user st) as Hbound.
  { apply bound_as_run; [done |]. by eapply join_step_binds. }
  assert (ci_userId clientInfo = Some user) as Huser.
  { apply Hbound; [done |]. rewrite Hroom. by eexists. }
  assert (truthy (ci_userId clientInfo) = Some user) as Htruthy.
  { rewrite Huser. apply truthy_Some in Hs as [_ Hne]. simpl.
    by rewrite bool_decide_eq_false_2. }
  destruct (chat_step_stored env ws message st clientInfo roomId content user)
    as (row & Hrow & Hrows & Hsent); try done.
  destruct (chat_insert_row env message clientInfo roomId content user (db st))
    as (row' & Hrow' & Hsender & _); try done.
  exists (normalizedMessage env clientInfo roomId message), row.
  split; [| split; [| done]].
  - simpl. unfold or_str, truthy_str. rewrite Huser.
    apply truthy_Some in Hs as [_ Hne]. by rewrite bool_decide_eq_false_2.
  - rewrite Hrow in Hrow'. by injection Hrow' as ->.
Qed.

Lemma C7_sender_is_bound_identity_witness :
  let st := run one_in_r1 [(calm 1005, PongFrom 1%nat); (calm 1006, HeartbeatTick)] in
  let st' := step st (calm 1007, Incoming 1%nat (text_frame (Some "mallory") "hi" None)) in
  ∃ normalized row,
    m_senderId normalized = Some "u1"
    ∧ row_senderId row = "u1"
    ∧ rows (db st') = rows (db st) ++ [row]
    ∧ sent st' = sent st ++ ((λ c, (c, FMessage normalized)) <$> recipients "r1" None st).
Proof.
  apply (C7_sender_is_bound_identity (calm 1003)
           (run (initState 1000) [(calm 1001, Connection 1%nat)]) 1%nat
           (mkInbound (Some "join") (Some "r1") (Some "u1") None None None None None None)
           "r1" "u1" [(calm 1005, PongFrom 1%nat); (calm 1006, HeartbeatTick)] (calm 1007)
           (mkInbound (Some "text") None (Some "mallory") (Some "hi") None None None None None)
           (mkClientInfo "client_k3x9q_1001" (Some "r1") (Some "u1") 1001) "r1" "hi").
  - reflexivity.
  - reflexivity.
  - reflexivity.
  - repeat constructor; intros (m & Hev & _); discriminate Hev.
  - left. reflexivity.
  - vm_compute. reflexivity.
  - reflexivity.
  - reflexivity.
  - reflexivity.
Defined.

(** ** Timestamps *)

(** C3, as stated, fails: a chat frame that carries [timestamp: 42] is stored
    and broadcast with timestamp 42 although the server clock reads 5000. *)
Lemma C3_client_timestamp_is_used :
  ¬ server_stamped one_in_r1
      (calm 5000, Incoming 1%nat (text_frame None "hi" (Some 42))).
Proof.
  intros [Hframes _].
  specialize (Hframes 1%nat (text_message "r1" "u1" "hi" 42)).
  assert (m_timestamp (text_message "r1" "u1" "hi" 42) = now (calm 5000)) as Hstamp.
  { apply Hframes. vm_compute. apply list_elem_of_here. }
  discriminate Hstamp.
Qed.

(** C3, amended: an accepted chat message is stored and broadcast with the
    timestamp of the inbound frame when the frame carries a non-zero one, and
    with the server clock [Date.now()] otherwise. *)
Theorem C3_timestamp_of_frame_else_clock
  env st ws message clientInfo roomId content user :
  chat_type (in_type message) →
  clients st !! ws = Some clientInfo →
  truthy (ci_roomId clientInfo) = Some roomId →
  truthy (in_content message) = Some content →
  truthy (ci_userId clientInfo) = Some user →
  saveFails env = false →
  let st' := step st (env, Incoming ws (Parsed message)) in
  let stamp := match in_timestamp message with
               | Some t => if t =? 0 then now env else t
               | None => now env
               end in
  ∃ normalized row,
    m_timestamp normalized = stamp
    ∧ row_timestamp row = stamp
    ∧ rows (db st') = rows (db st) ++ [row]
    ∧ sent st' = sent st ++ ((λ c, (c, FMessage normalized)) <$> recipients roomId None st).
Proof.
  intros Hty Hci Hroom Hcontent Huser Hsave st' stamp.
  destruct (chat_step_stored env ws message st clientInfo roomId content user)
    as (row & Hrow & Hrows & Hsent); try done.
  destruct (chat_insert_row env message clientInfo roomId content user (db st))
    as (row' & Hrow' & _ & Hstamp & _); try done.
  exists (normalizedMessage env clientInfo roomId message), row.
  split; [done |]. split; [| done].
  rewrite Hrow in Hrow'. by injection Hrow' as ->.
Qed.

Lemma C3_timestamp_of_frame_else_clock_witness :
  let st'1 := step one_in_r1 (calm 5000, Incoming 1%nat (text_frame None "hi" (Some 42))) in
  let st'2 := step one_in_r1 (calm 5000, Incoming 1%nat (text_frame None "hi" None)) in
  (∃ normalized row,
      m_timestamp normalized = 42 ∧ row_timestamp row = 42
      ∧ rows (db st'1) = rows (db one_in_r1) ++ [row]
      ∧ sent st'1 = sent one_in_r1
                    ++ ((λ c, (c, FMessage normalized)) <$> recipients "r1" None one_in_r1))
  ∧ (∃ normalized row,
      m_timestamp normalized = 5000 ∧ row_timestamp row = 5000
      ∧ rows (db st'2) = rows (db one_in_r1) ++ [row]
      ∧ sent st'2 = sent one_in_r1
                    ++ ((λ c, (c, FMessage normalized)) <$> recipients "r1" None one_in_r1)).
Proof.
  split.
  - apply (C3_timestamp_of_frame_else_clock (calm 5000) one_in_r1 1%nat
             (mkInbound (Some "text") None None (Some "hi") (Some 42) None None None None)
             (mkClientInfo "client_k3x9q_1001" (Some "r1") (Some "u1") 1001)
             "r1" "hi" "u1").
    + left. reflexivity.
    + vm_compute. reflexivity.
    + reflexivity.
    + reflexivity.
    + reflexivity.
    + reflexivity.
  - apply (C3_timestamp_of_frame_else_clock (calm 5000) one_in_r1 1%nat
             (mkInbound (Some "text") None None (Some "hi") None None None None None)
             (mkClientInfo "client_k3x9q_1001" (Some "r1") (Some "u1") 1001)
             "r1" "hi" "u1").
    + left. reflexivity.
    + vm_compute. reflexivity.
    + reflexivity.
    + reflexivity.
    + reflexivity.
    + reflexivity.
Defined.

(** ** Store failures on the push channel *)

(** When the INSERT fails, an accepted chat frame produces no fan-out at all:
    the only frame written is an error reply to the sender. *)
Lemma chat_step_store_error env ws message st clientInfo roomId content :
  chat_type (in_type message) →
  clients st !! ws = Some clientInfo →
  truthy (ci_roomId clientInfo) = Some roomId →
  truthy (in_content message) = Some content →
  saveFails env = true →
  let st' := step st (env, Incoming ws (Parsed message)) in
  db st' = db st
  ∧ sent st' = sent st ++ (if is_open ws st
                           then [(ws, FError "Invalid message format" (now env))]
                           else []).
Proof.
  intros Hty Hci Hroom Hcontent Hsave st'. subst st'.
  rewrite (chat_step env ws message st clientInfo roomId content) by done.
  unfold db_saveMessage. rewrite Hsave.
  unfold exec, sendError, ws_send.
  destruct (is_open ws st); simpl; [done |]. by rewrite app_nil_r.
Qed.

(** C1, at the failing input: connections 1 and 2 are open members of [r1];
    connection 1 sends the text "hi" while the INSERT fails.  Nothing is
    stored, no member receives the message, and the sender is answered with
    the error frame 'Invalid message format'. *)
Theorem C1_store_error_suppresses_broadcast :
  let st' := step two_in_r1 (stormy 1005, Incoming 1%nat (text_frame None "hi" None)) in
  recipients "r1" None two_in_r1 = [1%nat; 2%nat]
  ∧ rows (db st') = rows (db two_in_r1)
  ∧ frames_of two_in_r1 (stormy 1005, Incoming 1%nat (text_frame None "hi" None))
    = [(1%nat, FError "Invalid message format" 1005)]
  ∧ received 2%nat st' = received 2%nat two_in_r1.
Proof. vm_compute. done. Qed.

(** ** Scenario A *)

(** C6, as stated, fails: after the join and the text message the store holds
    two rows for [r1], not one. *)
Lemma C6_store_has_two_rows :
  ¬ ((∃ m, FMessage m ∈ received 1%nat (scenarioA 1000 1001 1002)
           ∧ m_type m = Some "text" ∧ m_senderId m = Some "u1"
           ∧ m_content m = Some "hi")
     ∧ length (rows_of "r1" (scenarioA 1000 1001 1002)) = 1%nat).
Proof. intros [_ Hone]. vm_compute in Hone. discriminate Hone. Qed.

(** C6, amended: starting from an empty store and an empty registry,
    connection A joins [r1] as [u1] and sends the text "hi".  A receives the
    welcome frame, the join acknowledgement and then the text frame with
    [senderId = "u1"] and [content = "hi"]; the store contains exactly two
    rows for [r1]: the presence row of the join and the row of the text
    message. *)
Theorem C6_scenario_A (t0 t1 t2 : Z) :
  received 1%nat (scenarioA t0 t1 t2)
  = [ FSystem "连接成功" t0;
      FJoined "r1" "u1" t1;
      FMessage (text_message "r1" "u1" "hi" t2) ]
  ∧ rows_of "r1" (scenarioA t0 t1 t2)
    = [ mkRow 1 "system" "r1" "system" t1 "u1 加入了聊天室" None None None None None;
        mkRow 2 "text" "r1" "u1" t2 "hi" None None None None None ].
Proof. split; vm_compute; reflexivity. Qed.

(** ** Joining a second room *)

(** C5, at the failing input: connections 1 and 2 are members of [r1] and
    connection 1 joins [r2].  Connection 1 is moved from [r1] to [r2], but
    connection 2 receives nothing and the only row stored is the "joined"
    presence row of [r2]: no "left" message for [r1] is broadcast or
    persisted. *)
Theorem C5_implicit_leave_is_silent :
  let ev := (calm 1005, Incoming 1%nat (join_frame "r2" "u1")) in
  let st' := step two_in_r1 ev in
  rooms two_in_r1 !! "r1" = Some [1%nat; 2%nat]
  ∧ rooms st' !! "r1" = Some [2%nat]
  ∧ rooms st' !! "r2" = Some [1%nat]
  ∧ frames_of two_in_r1 ev = [(1%nat, FJoined "r2" "u1" 1005)]
  ∧ received 2%nat st' = received 2%nat two_in_r1
  ∧ stored_by two_in_r1 ev
    = [ mkRow 4 "system" "r2" "system" 1005 "u1 加入了聊天室" None None None None None ]
  ∧ rows_of "r1" st' = rows_of "r1" two_in_r1.
Proof. vm_compute. done. Qed.

(** The explicit leave of the same connection does announce and persist. *)
Lemma explicit_leave_announces :
  let ev := (calm 1005, Incoming 1%nat
               (Parsed (mkInbound (Some "leave") None None None None None None None None))) in
  frames_of two_in_r1 ev
  = [(2%nat, FMessage (systemMessage (calm 1005) "r1" (Some "u1 离开了聊天室")))]
  ∧ stored_by two_in_r1 ev
    = [ mkRow 4 "system" "r1" "system" 1005 "u1 离开了聊天室" None None None None None ].
Proof. vm_compute. done. Qed.

(** ** Heartbeat *)

(** A pong never reaches the liveness flag. *)
Lemma pong_is_ignored st env ws : step st (env, PongFrom ws) = st.
Proof. done. Qed.

(** C2, at the failing input: a connection is probed by the first heartbeat,
    answers the probe with a pong, and is terminated by the second
    heartbeat all the same. *)
Theorem C2_responsive_connection_is_terminated :
  let probed := run (initState 1000)
                  [ (calm 1001, Connection 1%nat); (calm 31000, HeartbeatTick) ] in
  let answered := step probed (calm 31020, PongFrom 1%nat) in
  let st' := step answered (calm 61000, HeartbeatTick) in
  frames_of (run (initState 1000) [(calm 1001, Connection 1%nat)]) (calm 31000, HeartbeatTick)
    = [(1%nat, FPing)]
  ∧ sockets probed !! 1%nat = Some (mkSocket OPEN (Some false))
  ∧ sockets answered !! 1%nat = Some (mkSocket OPEN (Some false))
  ∧ sockets st' !! 1%nat = Some (mkSocket CLOSING (Some false)).
Proof. vm_compute. done. Qed.

Lemma exec_forEach_cons {A} (f : A → M unit) (x : A) l st st1 :
  f x st = (Ok tt, st1) → exec (forEach f (x :: l)) st = exec (forEach f l) st1.
Proof. intros Hx. unfold exec; simpl. unfold mbind, M_bind. by rewrite Hx. Qed.

Lemma forEach_heartbeat (l : list WebSocket) st ws :
  NoDup l →
  let st' := exec (forEach (λ ws st',
      match sockets st' !! ws with
      | Some s =>
          if bool_decide (isAlive s = Some false) then terminate ws st'
          else (modify (set_sockets (<[ws := mkSocket (readyState s) (Some false)]>));;
                ws_send ws FPing) st'
      | None => (Ok tt, st')
      end) l) st in
  wssClients st' = wssClients st
  ∧ sockets st' !! ws
    = if bool_decide (ws ∈ l) then after_heartbeat <$> sockets st !! ws
      else sockets st !! ws.
Proof.
  intros Hnd. revert st. induction Hnd as [|x l Hx Hnd IH]; intros st.
  { done. }
  cbv zeta. cbv zeta in IH.
  match goal with |- context [forEach ?f (x :: l)] => set (body := f) in * end.
  assert (∃ st1, body x st = (Ok tt, st1)
            ∧ wssClients st1 = wssClients st
            ∧ sockets st1 !! ws
              = if bool_decide (ws = x) then after_heartbeat <$> sockets st !! ws
                else sockets st !! ws) as (st1 & Hbody & Hwss & Hsock).
  { unfold body. destruct (sockets st !! x) as [s|] eqn:Hs.
    - destruct (decide (isAlive s = Some false)) as [Halive|Halive].
      + rewrite (bool_decide_eq_true_2 _ Halive).
        eexists. split; [reflexivity |]. split; [done |]. simpl.
        destruct (decide (ws = x)) as [->|Hne].
        * rewrite (bool_decide_eq_true_2 (x = x)) by done.
          rewrite lookup_alter_eq, Hs. simpl.
          unfold after_heartbeat. by rewrite (bool_decide_eq_true_2 _ Halive).
        * rewrite (bool_decide_eq_false_2 (ws = x)) by done.
          by rewrite lookup_alter_ne.
      + rewrite (bool_decide_eq_false_2 _ Halive).
        unfold mbind, M_bind, modify, ws_send.
        eexists. split; [reflexivity |]. split; [by destruct (is_open _ _) |].
        assert (∀ b : bool, sockets (if b
                  then set_sent (λ s0, s0 ++ [(x, FPing)])
                         (set_sockets <[x:=mkSocket (readyState s) (Some false)]> st)
                  else set_sockets <[x:=mkSocket (readyState s) (Some false)]> st)
                = <[x:=mkSocket (readyState s) (Some false)]> (sockets st)) as ->
          by (by intros []).
        destruct (decide (ws = x)) as [->|Hne].
        * rewrite (bool_decide_eq_true_2 (x = x)) by done.
          rewrite lookup_insert_eq, Hs. simpl.
          unfold after_heartbeat. by rewrite (bool_decide_eq_false_2 _ Halive).
        * rewrite (bool_decide_eq_false_2 (ws = x)) by done.
          by rewrite lookup_insert_ne.
    - exists st. split; [done |]. split; [done |].
      destruct (decide (ws = x)) as [->|Hne].
      + rewrite (bool_decide_eq_true_2 (x = x)) by done. by rewrite Hs.
      + by rewrite (bool_decide_eq_false_2 (ws = x)). }
  rewrite (exec_forEach_cons body x l st st1 Hbody).
  destruct (IH st1) as [Hwss' Hsock'].
  split; [by rewrite Hwss', Hwss |].
  rewrite Hsock', Hsock.
  destruct (decide (ws = x)) as [->|Hne].
  - rewrite (bool_decide_eq_false_2 (x ∈ l)) by done.
    rewrite (bool_decide_eq_true_2 (x = x)) by done.
    rewrite (bool_decide_eq_true_2 (x ∈ x :: l)) by apply list_elem_of_here. done.
  - rewrite (bool_decide_eq_false_2 (ws = x)) by done.
    destruct (decide (ws ∈ l)) as [Hin|Hnin].
    + rewrite (bool_decide_eq_true_2 (ws ∈ l)) by done.
      rewrite (bool_decide_eq_true_2 (ws ∈ x :: l)) by (by apply list_elem_of_further). done.
    + rewrite (bool_decide_eq_false_2 (ws ∈ l)) by done.
      rewrite (bool_decide_eq_false_2 (ws ∈ x :: l)); [done |].
      intros Hin. apply elem_of_cons in Hin as [?|?]; done.
Qed.

Lemma heartbeat_effect st ws :
  NoDup (wssClients st) →
  wssClients (exec heartbeat st) = wssClients st
  ∧ sockets (exec heartbeat st) !! ws
    = if bool_decide (ws ∈ wssClients st) then after_heartbeat <$> sockets st !! ws
      else sockets st !! ws.
Proof. intros Hnd. by apply (forEach_heartbeat (wssClients st) st ws). Qed.

Lemma run_pongs st trace : Forall is_pong trace → run st trace = st.
Proof.
  induction 1 as [|ev trace [ws Hev] _ IH]; [done |].
  simpl. destruct ev as [env ev]. simpl in Hev. subst ev. apply IH.
Qed.

Lemma after_two_heartbeats s :
  readyState s = OPEN → readyState (after_heartbeat (after_heartbeat s)) = CLOSING.
Proof.
  intros Hopen. unfold after_heartbeat.
  destruct (decide (isAlive s = Some false)) as [Halive|Halive].
  - rewrite (bool_decide_eq_true_2 _ Halive). simpl.
    rewrite (bool_decide_eq_true_2 _ Halive). simpl. by rewrite Hopen.
  - rewrite (bool_decide_eq_false_2 _ Halive). simpl. by rewrite Hopen.
Qed.

(** Whatever pongs arrive in between, an open connection that is in
    [wss.clients] at two consecutive heartbeats is terminated by the second
    one at the latest. *)
Lemma two_heartbeats_terminate st ws s env1 env2 pongs :
  NoDup (wssClients st) →
  ws ∈ wssClients st →
  sockets st !! ws = Some s →
  readyState s = OPEN →
  Forall is_pong pongs →
  readyState <$>
    sockets (run st ([(env1, HeartbeatTick)] ++ pongs ++ [(env2, HeartbeatTick)])) !! ws
  = Some CLOSING.
Proof.
  intros Hnd Hin Hs Hopen Hpongs.
  unfold run. rewrite !foldl_app. simpl.
  fold (run (step st (env1, HeartbeatTick)) pongs). rewrite run_pongs by done.
  change (step st (env1, HeartbeatTick)) with (exec heartbeat st).
  change (step (exec heartbeat st) (env2, HeartbeatTick))
    with (exec heartbeat (exec heartbeat st)).
  destruct (heartbeat_effect st ws Hnd) as [Hwss1 Hsock1].
  rewrite (bool_decide_eq_true_2 _ Hin), Hs in Hsock1.
  destruct (heartbeat_effect (exec heartbeat st) ws) as [_ Hsock2].
  { by rewrite Hwss1. }
  rewrite Hwss1, (bool_decide_eq_true_2 _ Hin), Hsock1 in Hsock2.
  rewrite Hsock2. simpl. by rewrite after_two_heartbeats.
Qed.

(** ** The pull channel *)

(** A valid POST /api/send: the response, the buffer and the store. *)
Lemma apiSend_valid env body st senderId content :
  truthy (sb_senderId body) = Some senderId →
  truthy (sb_content body) = Some content →
  ∃ message,
    m_senderId message = Some senderId
    ∧ m_content message = Some content
    ∧ m_timestamp message = now env
    ∧ apiSend env body st =
        (Ok (ResSent message),
         set_db (λ d, match db_saveMessage (saveFails env) message d with
                      | inr (_, d') => d'
                      | inl _ => d
                      end)
           (set_recentMessages
              (λ l, if bool_decide (MAX_MESSAGES < length (l ++ [message]))%nat
                    then shift (l ++ [message]) else l ++ [message]) st)).
Proof.
  intros Hs Hc. unfold apiSend. rewrite Hs, Hc.
  exists {| m_id := Some (pretty (now env) +:+ "_" +:+ random env);
            m_type := Some (default "text" (sb_type body));
            m_roomId := "default_room"; m_senderId := Some senderId;
            m_timestamp := now env; m_content := Some content;
            m_fileName := None; m_fileSize := None; m_duration := None;
            m_thumbnail := None; m_mimeType := None |}.
  split; [reflexivity |]. split; [reflexivity |]. split; [reflexivity |].
  unfold mbind, M_bind, modify, try_catch, saveMessage, mret, M_ret,
    set_db, set_recentMessages; simpl.
  by destruct (db_saveMessage _ _ _) as [e|[id d]].
Qed.

Lemma last_shift_snoc {A} (l : list A) (x : A) :
  (1 < length (l ++ [x]))%nat → last (shift (l ++ [x])) = Some x.
Proof.
  destruct l as [|y l]; simpl; [lia |]. intros _.
  unfold shift; simpl. rewrite drop_0. apply last_snoc.
Qed.

(** The send path keeps the buffer within [MAX_MESSAGES]. *)
Lemma apiSend_bounded env body st :
  (length (recentMessages st) ≤ MAX_MESSAGES)%nat →
  (length (recentMessages (exec (apiSend env body) st)) ≤ MAX_MESSAGES)%nat.
Proof.
  intros Hlen. unfold exec.
  destruct (truthy (sb_senderId body)) as [senderId|] eqn:Hs;
    [destruct (truthy (sb_content body)) as [content|] eqn:Hc |].
  - destruct (apiSend_valid env body st senderId content Hs Hc)
      as (message & _ & _ & _ & ->). simpl.
    case_bool_decide as Hfull.
    + unfold shift. rewrite length_drop, length_app. simpl. lia.
    + lia.
  - unfold apiSend. by rewrite Hs, Hc.
  - unfold apiSend. by rewrite Hs.
Qed.

(** The join path grows the buffer by one entry, whatever its length. *)
Lemma apiJoin_grows env senderId sender st :
  truthy senderId = Some sender →
  length (recentMessages (exec (apiJoin env senderId) st))
  = S (length (recentMessages st)).
Proof.
  intros Hs. unfold exec, apiJoin. rewrite Hs.
  unfold mbind, M_bind, modify, try_catch, saveMessage, mret, M_ret; simpl.
  destruct (db_saveMessage _ _ _) as [e|[id d]]; simpl;
    rewrite length_app; simpl; lia.
Qed.

(** C4, at the failing input: 100 messages are sent over the pull channel and
    then one join is announced.  The buffer holds 101 entries, [poll(0)]
    returns all 101, and later sends never bring it back to 100. *)
Theorem C4_join_overflows_buffer :
  let filled := run (initState 1000) (replicate 100 (calm 2000, send_request)) in
  let st := step filled (calm 2001, PostJoin (Some "u2")) in
  length (recentMessages filled) = 100%nat
  ∧ length (recentMessages st) = 101%nat
  ∧ length (poll 0 st) = 101%nat
  ∧ length (recentMessages (run st (replicate 5 (calm 2002, send_request)))) = 101%nat.
Proof. vm_compute. done. Qed.

(** C10: a valid POST /api/send (non-empty [senderId] and [content]) always
    answers with the success response carrying the message and leaves the
    message as the newest entry of the poll buffer, whether or not the store
    accepts the row; when the INSERT fails the store is unchanged, so the
    buffer holds a message the store does not. *)
Theorem C10_send_ignores_store_errors env st body senderId content :
  truthy (sb_senderId body) = Some senderId →
  truthy (sb_content body) = Some content →
  ∃ message,
    (apiSend env body st).1 = Ok (ResSent message)
    ∧ m_senderId message = Some senderId
    ∧ m_content message = Some content
    ∧ last (recentMessages (exec (apiSend env body) st)) = Some message
    ∧ (saveFails env = true → db (exec (apiSend env body) st) = db st).
Proof.
  intros Hs Hc.
  destruct (apiSend_valid env body st senderId content Hs Hc)
    as (message & Hsender & Hcontent & _ & Hrun).
  exists message. unfold exec. rewrite Hrun; simpl.
  split; [done |]. split; [done |]. split; [done |]. split.
  - case_bool_decide as Hfull.
    + apply last_shift_snoc. unfold MAX_MESSAGES in Hfull. lia.
    + apply last_snoc.
  - intros Hfail. unfold db_saveMessage. rewrite Hfail. by destruct (db st).
Qed.

Lemma C10_send_ignores_store_errors_witness :
  let body := mkSendBody (Some "u1") (Some "hello") None in
  ∃ message,
    (apiSend (stormy 2000) body (initState 1000)).1 = Ok (ResSent message)
    ∧ m_senderId message = Some "u1"
    ∧ m_content message = Some "hello"
    ∧ last (recentMessages (exec (apiSend (stormy 2000) body) (initState 1000)))
      = Some message
    ∧ (saveFails (stormy 2000) = true →
       db (exec (apiSend (stormy 2000) body) (initState 1000)) = db (initState 1000)).
Proof.
  apply (C10_send_ignores_store_errors (stormy 2000) (initState 1000)
           (mkSendBody (Some "u1") (Some "hello") None) "u1" "hello").
  - reflexivity.
  - reflexivity.
Defined.

(** ** History pages *)

#[local] Instance newer_first_total : Total newer_first.
Proof. intros a b. unfold newer_first. lia. Qed.

#[local] Instance newer_first_trans : Transitive newer_first.
Proof. intros a b c. unfold newer_first. lia. Qed.

#[local] Instance oldest_first_trans : Transitive oldest_first.
Proof. intros a b c. unfold oldest_first. lia. Qed.

Lemma StronglySorted_take {A} (R : relation A) n l :
  StronglySorted R l → StronglySorted R (take n l).
Proof.
  intros Hl. rewrite <- (take_drop n l) in Hl.
  by apply StronglySorted_app in Hl as (_ & ? & _).
Qed.

Lemma StronglySorted_drop {A} (R : relation A) n l :
  StronglySorted R l → StronglySorted R (drop n l).
Proof.
  intros Hl. rewrite <- (take_drop n l) in Hl.
  by apply StronglySorted_app in Hl as (_ & _ & ?).
Qed.

Lemma reverse_oldest_first l :
  StronglySorted newer_first l → StronglySorted oldest_first (reverse l).
Proof.
  intros Hl. apply Sorted_StronglySorted; [apply _ |].
  apply (Sorted_reverse newer_first), StronglySorted_Sorted, Hl.
Qed.

(** The rows of a room as [ORDER BY timestamp DESC] lists them. *)
Lemma ordered_rows roomId (d : Db) :
  let ordered := merge_sort newer_first (filter (λ r, row_roomId r = roomId) (rows d)) in
  ordered ≡ₚ filter (λ r, row_roomId r = roomId) (rows d)
  ∧ StronglySorted newer_first ordered.
Proof.
  split.
  - apply merge_sort_Permutation.
  - apply StronglySorted_merge_sort; apply _.
Qed.

Lemma db_getHistory_page roomId page size d :
  0 ≤ size →
  db_getHistory false roomId page size d
  = inr (take (Z.to_nat size)
           (drop (Z.to_nat ((page - 1) * size))
              (merge_sort newer_first (filter (λ r, row_roomId r = roomId) (rows d))))).
Proof.
  intros Hsize. unfold db_getHistory, select_history, sql_limit, sql_offset.
  by rewrite (proj2 (Z.ltb_ge size 0)).
Qed.

(** ** Joining: history replay and presence *)

Lemma leaveRoom_frame ws roomId st :
  sockets (exec (leaveRoom ws roomId) st) = sockets st
  ∧ db (exec (leaveRoom ws roomId) st) = db st
  ∧ sent (exec (leaveRoom ws roomId) st) = sent st.
Proof.
  unfold leaveRoom, exec, modify, mbind, M_bind; simpl.
  destruct (rooms st !! roomId); [| done]. by destruct (bool_decide _).
Qed.

(** The state in which [handleJoin] starts to write frames: the previous room
    is left, the connection is bound and added to the new room. *)
Lemma join_registry_frame ws roomId senderId (previous : option string) st :
  let st1 := exec (match previous with
                   | Some previous => leaveRoom ws previous
                   | None => mret tt
                   end;;
                   modify (set_clients (alter (bind_room roomId senderId) ws));;
                   addToRoom roomId ws) st in
  sockets st1 = sockets st ∧ db st1 = db st ∧ sent st1 = sent st.
Proof.
  destruct previous as [previous|]; [| done].
  apply (leaveRoom_frame ws previous st).
Qed.

Lemma join_step env st ws message roomId senderId clientInfo :
  in_type message = Some "join" →
  truthy (in_roomId message) = Some roomId →
  truthy (in_senderId message) = Some senderId →
  clients st !! ws = Some clientInfo →
  is_open ws st = true →
  historyFails env = false →
  saveFails env = false →
  let st1 := exec (match truthy (ci_roomId clientInfo) with
                   | Some previous => leaveRoom ws previous
                   | None => mret tt
                   end;;
                   modify (set_clients (alter (bind_room roomId senderId) ws));;
                   addToRoom roomId ws) st in
  let page1 := select_history roomId 50 0 (db st) in
  let joinMessage := systemMessage env roomId (Some (senderId +:+ " 加入了聊天室")) in
  let row := mkRow (lastID (db st) + 1) "system" roomId "system" (now env)
               (senderId +:+ " 加入了聊天室") None None None None None in
  step st (env, Incoming ws (Parsed message))
  = set_db (λ _, mkDb (rows (db st) ++ [row]) (row_id row))
      (set_sent (λ s, s
         ++ [(ws, FJoined roomId senderId (now env))]
         ++ (if bool_decide (0 < length page1)%nat
             then [(ws, FHistory (reverse page1))] else [])
         ++ ((λ c, (c, FMessage joinMessage)) <$> recipients roomId (Some ws) st1))
       st1).
Proof.
  intros Hty Hr Hs Hci Hopen Hhist Hsave st1 page1 joinMessage row.
  destruct (join_registry_frame ws roomId senderId (truthy (ci_roomId clientInfo)) st)
    as (Hsock & Hdb & Hsent). fold st1 in Hsock, Hdb, Hsent.
  unfold step, exec, onMessage, try_catch, handleMessage; simpl.
  rewrite Hty. rewrite bool_decide_eq_true_2 by done.
  unfold handleJoin. rewrite Hr, Hs.
  unfold mbind at 1. unfold M_bind at 1. unfold getClient. rewrite Hci.
  assert (∀ B (k : unit → M B),
    (match truthy (ci_roomId clientInfo) with
     | Some previous => leaveRoom ws previous
     | None => mret tt
     end ≫= λ _, modify (set_clients (alter (bind_room roomId senderId) ws))
         ≫= λ _, addToRoom roomId ws ≫= k) st = k tt st1) as ->.
  { intros B k. subst st1. by destruct (truthy (ci_roomId clientInfo)). }
  assert (is_open ws st1 = true) as Hopen1.
  { unfold is_open in *. by rewrite Hsock. }
  unfold mbind at 1. unfold M_bind at 1. unfold ws_send at 1. rewrite Hopen1.
  unfold mbind at 1. unfold M_bind at 1. unfold try_catch.
  unfold mbind at 1. unfold M_bind at 1. unfold getHistory, db_getHistory.
  rewrite Hhist. simpl db. rewrite Hdb. fold page1.
  change ((1 - 1) * 50) with 0. fold page1.
  assert (∀ st2, sockets st2 = sockets st1 → rooms st2 = rooms st1 →
            recipients roomId (Some ws) st2 = recipients roomId (Some ws) st1) as Hrec.
  { intros st2 Hs2 Hr2. unfold recipients, is_open. by rewrite Hs2, Hr2. }
  destruct (bool_decide (0 < length page1)%nat); unfold when.
  - unfold ws_send at 1. rewrite is_open_set_sent, Hopen1.
    unfold mbind, M_bind. rewrite broadcastToRoom_sent.
    unfold saveMessage, db_saveMessage. rewrite Hsave. simpl.
    rewrite Hdb. rewrite Hrec by done.
    unfold set_sent, set_db; simpl. f_equal. by rewrite <- !app_assoc.
  - unfold mbind, M_bind, mret, M_ret. rewrite broadcastToRoom_sent.
    unfold saveMessage, db_saveMessage. rewrite Hsave. simpl.
    rewrite Hdb. rewrite Hrec by done.
    unfold set_sent, set_db; simpl. f_equal. by rewrite <- !app_assoc.
Qed.

(** C8: [getHistory(roomId, page, size)] returns rows of the room taken from
    the list of all its rows ordered most-recent-first, skipping
    [(page-1)*size] of them and keeping at most [size]; on a join the relay
    sends the reversal of page 1 (size 50) as the [history] payload, right
    after the acknowledgement, and that payload is in non-decreasing
    timestamp order. *)
Theorem C8_history_page_and_replay env st ws message roomId senderId clientInfo :
  in_type message = Some "join" →
  truthy (in_roomId message) = Some roomId →
  truthy (in_senderId message) = Some senderId →
  clients st !! ws = Some clientInfo →
  is_open ws st = true →
  historyFails env = false →
  saveFails env = false →
  let ev := (env, Incoming ws (Parsed message)) in
  ∃ newest_first : list Row,
    newest_first ≡ₚ rows_of roomId st
    ∧ StronglySorted newer_first newest_first
    ∧ (∀ page size, 1 ≤ page → 0 ≤ size →
         db_getHistory false roomId page size (db st)
         = inr (take (Z.to_nat size)
                  (drop (Z.to_nat ((page - 1) * size)) newest_first)))
    ∧ StronglySorted oldest_first (reverse (take 50 newest_first))
    ∧ frames_of st ev
      = [(ws, FJoined roomId senderId (now env))]
        ++ (if bool_decide (0 < length (take 50 newest_first))%nat
            then [(ws, FHistory (reverse (take 50 newest_first)))] else [])
        ++ ((λ c, (c, FMessage (systemMessage env roomId
                                  (Some (senderId +:+ " 加入了聊天室")))))
              <$> recipients roomId (Some ws) (step st ev)).
Proof.
  intros Hty Hr Hs Hci Hopen Hhist Hsave ev.
  destruct (ordered_rows roomId (db st)) as [Hperm Hsorted].
  exists (merge_sort newer_first (filter (λ r, row_roomId r = roomId) (rows (db st)))).
  split; [done |]. split; [done |]. split.
  { intros page size _ Hsize. by apply db_getHistory_page. }
  split.
  { by apply reverse_oldest_first, StronglySorted_take. }
  destruct (join_registry_frame ws roomId senderId (truthy (ci_roomId clientInfo)) st)
    as (_ & _ & Hsent).
  pose proof (join_step env st ws message roomId senderId clientInfo
                Hty Hr Hs Hci Hopen Hhist Hsave) as Hstep.
  unfold frames_of. subst ev. rewrite Hstep.
  cbn [sent set_db set_sent]. rewrite Hsent.
  rewrite drop_app_length. done.
Qed.

Lemma C8_history_page_and_replay_witness :
  let ev := (calm 1050, Incoming 2%nat (join_frame "r1" "u2")) in
  ∃ newest_first : list Row,
    newest_first ≡ₚ rows_of "r1" chatty_r1
    ∧ StronglySorted newer_first newest_first
    ∧ (∀ page size, 1 ≤ page → 0 ≤ size →
         db_getHistory false "r1" page size (db chatty_r1)
         = inr (take (Z.to_nat size)
                  (drop (Z.to_nat ((page - 1) * size)) newest_first)))
    ∧ StronglySorted oldest_first (reverse (take 50 newest_first))
    ∧ frames_of chatty_r1 ev
      = [(2%nat, FJoined "r1" "u2" (now (calm 1050)))]
        ++ (if bool_decide (0 < length (take 50 newest_first))%nat
            then [(2%nat, FHistory (reverse (take 50 newest_first)))] else [])
        ++ ((λ c, (c, FMessage (systemMessage (calm 1050) "r1"
                                  (Some ("u2" +:+ " 加入了聊天室")))))
              <$> recipients "r1" (Some 2%nat) (step chatty_r1 ev)).
Proof.
  apply (C8_history_page_and_replay (calm 1050) chatty_r1 2%nat
           (mkInbound (Some "join") (Some "r1") (Some "u2") None None None None None None)
           "r1" "u2" (mkClientInfo "client_k3x9q_1040" None None 1040)).
  - reflexivity.
  - reflexivity.
  - reflexivity.
  - vm_compute. reflexivity.
  - vm_compute. reflexivity.
  - reflexivity.
  - reflexivity.
Defined.

(** The replay of that join, evaluated: the backdated message comes first. *)
Example history_replay_example :
  (received 2%nat (step chatty_r1 (calm 1050, Incoming 2%nat (join_frame "r1" "u2")))) !! 2%nat
  = Some (FHistory
            [ mkRow 4 "text" "r1" "u1" 7 "backdated" None None None None None;
              mkRow 2 "system" "r1" "system" 1003 "u1 加入了聊天室" None None None None None;
              mkRow 3 "text" "r1" "u1" 1010 "first" None None None None None;
              mkRow 5 "text" "r1" "u1" 1030 "third" None None None None None ]).
Proof. vm_compute. reflexivity. Qed.

(** A join writes and stores nothing but the acknowledgement, the history and
    the "joined" presence message of the room that is joined: when the
    connection was bound to another room before, no message about that room
    is broadcast or persisted. *)
Lemma join_presence_only env st ws message roomId senderId clientInfo :
  in_type message = Some "join" →
  truthy (in_roomId message) = Some roomId →
  truthy (in_senderId message) = Some senderId →
  clients st !! ws = Some clientInfo →
  is_open ws st = true →
  historyFails env = false →
  saveFails env = false →
  let ev := (env, Incoming ws (Parsed message)) in
  stored_by st ev
  = [ mkRow (lastID (db st) + 1) "system" roomId "system" (now env)
        (senderId +:+ " 加入了聊天室") None None None None None ]
  ∧ ∀ c m, (c, FMessage m) ∈ frames_of st ev →
      m = systemMessage env roomId (Some (senderId +:+ " 加入了聊天室")).
Proof.
  intros Hty Hr Hs Hci Hopen Hhist Hsave ev.
  destruct (join_registry_frame ws roomId senderId (truthy (ci_roomId clientInfo)) st)
    as (_ & _ & Hsent).
  pose proof (join_step env st ws message roomId senderId clientInfo
                Hty Hr Hs Hci Hopen Hhist Hsave) as Hstep.
  unfold stored_by, frames_of. subst ev. rewrite Hstep.
  cbn [sent db rows set_db set_sent]. rewrite Hsent. rewrite !drop_app_length.
  split; [done |]. intros c m Hin.
  apply elem_of_app in Hin as [Hin | Hin].
  { apply list_elem_of_singleton in Hin. discriminate Hin. }
  apply elem_of_app in Hin as [Hin | Hin].
  { destruct (bool_decide _).
    - apply list_elem_of_singleton in Hin. discriminate Hin.
    - by apply not_elem_of_nil in Hin. }
  apply list_elem_of_fmap in Hin as (c' & Heq & _). by injection Heq.
Qed.

(** * Queries, invariants and endpoints *)

(** ** The store: primary keys and constraints *)

Lemma db_wf_init startup : db_wf (initDatabase startup).
Proof.
  unfold db_wf; simpl. split; [| split].
  - apply NoDup_singleton.
  - by repeat constructor.
  - by repeat constructor.
Qed.

Lemma insert_row_Some m d r :
  insert_row m d = inr r →
  row_id r = lastID d + 1
  ∧ type_check (row_type r) = true
  ∧ m_type m = Some (row_type r)
  ∧ m_senderId m = Some (row_senderId r)
  ∧ m_content m = Some (row_content r)
  ∧ row_roomId r = m_roomId m
  ∧ row_timestamp r = m_timestamp m.
Proof.
  unfold insert_row.
  destruct (m_type m) as [t|]; [| done].
  destruct (m_senderId m) as [s|]; [| done].
  destruct (m_content m) as [c|]; [| done].
  destruct (type_check t) eqn:Ht; [| done].
  by intros [= <-].
Qed.

Lemma db_saveMessage_Some io m d id d' :
  db_saveMessage io m d = inr (id, d') →
  ∃ r, insert_row m d = inr r ∧ id = row_id r
       ∧ rows d' = rows d ++ [r] ∧ lastID d' = row_id r.
Proof.
  unfold db_saveMessage. destruct io; [done |].
  destruct (insert_row m d) as [e|r] eqn:Hr; [done |].
  intros [= <- <-]. by exists r.
Qed.

Lemma db_wf_saveMessage io m d id d' :
  db_wf d → db_saveMessage io m d = inr (id, d') → db_wf d'.
Proof.
  intros (Hnd & Hle & Hty) Hsave.
  apply db_saveMessage_Some in Hsave as (r & Hr & -> & Hrows & Hlast).
  apply insert_row_Some in Hr as (Hid & Hcheck & _).
  unfold db_wf. rewrite Hrows, Hlast. split; [| split].
  - rewrite fmap_app. apply NoDup_app. split; [done |]. split.
    + intros x Hx Hx'. apply list_elem_of_singleton in Hx'. subst x.
      apply list_elem_of_fmap in Hx as (r' & Heq & Hin).
      rewrite Forall_forall in Hle. specialize (Hle r' Hin). lia.
    + apply NoDup_singleton.
  - apply Forall_app. split.
    + eapply Forall_impl; [exact Hle |]. intros r' Hr'. simpl in Hr'. lia.
    + by repeat constructor.
  - apply Forall_app. split; [done |]. by repeat constructor.
Qed.

Lemma db_wf_filter (P : Row → Prop) `{∀ r, Decision (P r)} d :
  db_wf d → db_wf (mkDb (filter P (rows d)) (lastID d)).
Proof.
  intros (Hnd & Hle & Hty). unfold db_wf; simpl. split; [| split].
  - refine (sublist_NoDup _ _ Hnd _). apply fmap_sublist, sublist_filter.
  - apply Forall_forall. intros r Hr. apply list_elem_of_filter in Hr as [_ Hr].
    rewrite Forall_forall in Hle. by apply Hle.
  - apply Forall_forall. intros r Hr. apply list_elem_of_filter in Hr as [_ Hr].
    rewrite Forall_forall in Hty. by apply Hty.
Qed.

Lemma filter_nil_of_Forall {A} (P : A → Prop) `{∀ x, Decision (P x)} (l : list A) :
  Forall (λ x, ¬ P x) l → filter P l = [].
Proof.
  induction 1 as [|x l Hx _ IH]; [done |].
  by rewrite filter_cons_False.
Qed.

Lemma lookup_by_id_unique d r :
  NoDup (row_id <$> rows d) → r ∈ rows d →
  filter (λ r', row_id r' = row_id r) (rows d) = [r].
Proof.
  generalize (rows d). intros l Hnd Hin.
  induction l as [|x l IH]; [by apply not_elem_of_nil in Hin |].
  rewrite fmap_cons in Hnd. apply NoDup_cons in Hnd as [Hx Hnd].
  apply elem_of_cons in Hin as [<- | Hin].
  - rewrite filter_cons_True by done. f_equal.
    apply filter_nil_of_Forall, Forall_forall. intros r' Hr' Heq.
    apply Hx. rewrite <- Heq. by apply list_elem_of_fmap_2.
  - rewrite filter_cons_False.
    + by apply IH.
    + intros Heq. apply Hx. rewrite Heq. by apply list_elem_of_fmap_2.
Qed.

(** X1: a message that [saveMessage] accepts can be read back by the id the
    call resolves with: [getMessageById] returns a row with the fields of the
    message; the id was not in use before and every other id reads as before. *)
Theorem save_then_getMessageById io m d id d' :
  db_wf d →
  db_saveMessage io m d = inr (id, d') →
  ∃ row,
    db_getMessageById false id d' = inr (Some row)
    ∧ row_id row = id
    ∧ m_type m = Some (row_type row)
    ∧ row_roomId row = m_roomId m
    ∧ m_senderId m = Some (row_senderId row)
    ∧ row_timestamp row = m_timestamp m
    ∧ m_content m = Some (row_content row)
    ∧ db_getMessageById false id d = inr None
    ∧ ∀ id', id' ≠ id → db_getMessageById false id' d' = db_getMessageById false id' d.
Proof.
  intros (Hnd & Hle & Hty) Hsave.
  apply db_saveMessage_Some in Hsave as (r & Hr & -> & Hrows & Hlast).
  apply insert_row_Some in Hr as (Hid & _ & Htype & Hsender & Hcontent & Hroom & Hstamp).
  assert (filter (λ r', row_id r' = row_id r) (rows d) = []) as Hfresh.
  { apply filter_nil_of_Forall. eapply Forall_impl; [exact Hle |].
    intros r' Hr'. simpl in *. lia. }
  exists r. unfold db_getMessageById. rewrite Hrows, filter_app, Hfresh.
  rewrite filter_cons_True by done. simpl.
  repeat (split; [done |]).
  intros id' Hne. rewrite filter_app. rewrite (filter_cons_False _ r) by (simpl; congruence).
  by rewrite filter_nil, app_nil_r.
Qed.

Lemma save_then_getMessageById_witness :
  ∃ row,
    db_getMessageById false 2 (mkDb (rows (initDatabase 1000)
        ++ [mkRow 2 "text" "r1" "u1" 1005 "hi" None None None None None]) 2)
    = inr (Some row)
    ∧ row_id row = 2
    ∧ m_type (text_message "r1" "u1" "hi" 1005) = Some (row_type row)
    ∧ row_roomId row = m_roomId (text_message "r1" "u1" "hi" 1005)
    ∧ m_senderId (text_message "r1" "u1" "hi" 1005) = Some (row_senderId row)
    ∧ row_timestamp row = m_timestamp (text_message "r1" "u1" "hi" 1005)
    ∧ m_content (text_message "r1" "u1" "hi" 1005) = Some (row_content row)
    ∧ db_getMessageById false 2 (initDatabase 1000) = inr None
    ∧ ∀ id', id' ≠ 2 →
        db_getMessageById false id' (mkDb (rows (initDatabase 1000)
          ++ [mkRow 2 "text" "r1" "u1" 1005 "hi" None None None None None]) 2)
        = db_getMessageById false id' (initDatabase 1000).
Proof.
  apply (save_then_getMessageById false (text_message "r1" "u1" "hi" 1005)
           (initDatabase 1000)).
  - apply (bool_decide_unpack _). vm_compute. exact I.
  - reflexivity.
Defined.

Lemma changes_filter (P : Row → Prop) `{∀ r, Decision (P r)} (l : list Row) :
  changes l (filter P l) = length (filter (λ r, ¬ P r) l).
Proof.
  unfold changes. pose proof (filter_app_complement P l) as Hperm.
  apply Permutation_length in Hperm. rewrite length_app in Hperm. lia.
Qed.

Lemma filter_pos_iff {A} (P : A → Prop) `{∀ x, Decision (P x)} (l : list A) :
  (0 < length (filter P l))%nat ↔ ∃ x, x ∈ l ∧ P x.
Proof.
  split.
  - destruct (filter P l) as [|x l'] eqn:Hf; [simpl; lia |]. intros _.
    assert (x ∈ filter P l) as Hin by (rewrite Hf; apply list_elem_of_here).
    apply list_elem_of_filter in Hin as [? ?]. by exists x.
  - intros (x & Hin & HP).
    assert (x ∈ filter P l) as Hin' by (by apply list_elem_of_filter).
    destruct (filter P l); [by apply not_elem_of_nil in Hin' |]. simpl. lia.
Qed.

(** X2: [deleteMessage(id)] resolves with true exactly when a row with that id
    existed; afterwards the id reads as undefined, every other id reads as
    before, a second delete resolves with false, and the id is never handed
    out again: the next [saveMessage] gets an id above it. *)
Theorem deleteMessage_removes_exactly_one io messageId d deleted d' :
  db_wf d →
  db_deleteMessage io messageId d = inr (deleted, d') →
  (deleted = true ↔ ∃ r, r ∈ rows d ∧ row_id r = messageId)
  ∧ db_getMessageById false messageId d' = inr None
  ∧ (∀ id', id' ≠ messageId →
       db_getMessageById false id' d' = db_getMessageById false id' d)
  ∧ db_deleteMessage false messageId d' = inr (false, d')
  ∧ db_wf d'
  ∧ (∀ m id d'', db_saveMessage false m d' = inr (id, d'') →
       lastID d < id ∧ (deleted = true → messageId < id)).
Proof.
  intros Hwf Hdel. unfold db_deleteMessage in Hdel.
  destruct io; [done |]. injection Hdel as <- <-.
  assert (filter (λ r, row_id r = messageId)
            (filter (λ r, row_id r ≠ messageId) (rows d)) = []) as Hgone.
  { apply filter_nil_of_Forall, Forall_forall. intros r Hr.
    by apply list_elem_of_filter in Hr as [Hr _]. }
  assert (bool_decide (0 < changes (rows d)
                             (filter (λ r, row_id r ≠ messageId) (rows d)))%nat = true
          ↔ ∃ r, r ∈ rows d ∧ row_id r = messageId) as Hdeleted.
  { rewrite bool_decide_eq_true, changes_filter, filter_pos_iff.
    split; intros (r & Hin & Hid); exists r; (split; [done |]).
    - by destruct (decide (row_id r = messageId)).
    - by intros ?. }
  split; [done |]. split; [| split; [| split; [| split]]].
  - unfold db_getMessageById; simpl. by rewrite Hgone.
  - intros id' Hne. unfold db_getMessageById; simpl. do 2 f_equal.
    rewrite list_filter_filter. apply list_filter_iff. intros r. split.
    + by intros [? _].
    + intros Hid. split; [done |]. congruence.
  - unfold db_deleteMessage; simpl.
    assert (filter (λ r, row_id r ≠ messageId)
              (filter (λ r, row_id r ≠ messageId) (rows d))
            = filter (λ r, row_id r ≠ messageId) (rows d)) as ->.
    { rewrite list_filter_filter. apply list_filter_iff. tauto. }
    do 2 f_equal. rewrite bool_decide_eq_false. unfold changes. lia.
  - by apply db_wf_filter.
  - intros m id d'' Hsave.
    apply db_saveMessage_Some in Hsave as (r & Hr & -> & _).
    apply insert_row_Some in Hr as (Hid & _). simpl in Hid.
    split; [lia |]. intros Hdel.
    apply Hdeleted in Hdel as (r0 & Hin & Hid0).
    destruct Hwf as (_ & Hle & _). rewrite Forall_forall in Hle.
    specialize (Hle r0 Hin). simpl in Hle. lia.
Qed.

Lemma deleteMessage_removes_exactly_one_witness :
  let d := mkDb (rows (initDatabase 1000)
                 ++ [mkRow 2 "text" "r1" "u1" 1005 "hi" None None None None None]) 2 in
  let d' := mkDb [mkRow 2 "text" "r1" "u1" 1005 "hi" None None None None None] 2 in
  (true = true ↔ ∃ r, r ∈ rows d ∧ row_id r = 1)
  ∧ db_getMessageById false 1 d' = inr None
  ∧ (∀ id', id' ≠ 1 → db_getMessageById false id' d' = db_getMessageById false id' d)
  ∧ db_deleteMessage false 1 d' = inr (false, d')
  ∧ db_wf d'
  ∧ (∀ m id d'', db_saveMessage false m d' = inr (id, d'') →
       lastID d < id ∧ (true = true → 1 < id)).
Proof.
  apply (deleteMessage_removes_exactly_one false 1
           (mkDb (rows (initDatabase 1000)
                  ++ [mkRow 2 "text" "r1" "u1" 1005 "hi" None None None None None]) 2)).
  - apply (bool_decide_unpack _). vm_compute. exact I.
  - reflexivity.
Defined.

Lemma sql_limit_nil {A} n : sql_limit n (@nil A) = [].
Proof. unfold sql_limit. destruct (n <? 0); [done | apply take_nil]. Qed.

Lemma select_history_other_filter (P : Row → Prop) `{∀ r, Decision (P r)}
  roomId size offset d :
  (∀ r, row_roomId r = roomId → P r) →
  select_history roomId size offset (mkDb (filter P (rows d)) (lastID d))
  = select_history roomId size offset d.
Proof.
  intros HP. unfold select_history; simpl. do 3 f_equal.
  rewrite list_filter_filter. apply list_filter_iff. intros r. split.
  - by intros [? _].
  - intros Hr. split; [done |]. by apply HP.
Qed.

(** X3: [clearRoom(roomId)] resolves with the number of rows the room had;
    afterwards every history page of that room is empty and every history
    page of every other room is what it was. *)
Theorem clearRoom_empties_that_room_only io roomId d n d' :
  db_clearRoom io roomId d = inr (n, d') →
  n = length (filter (λ r, row_roomId r = roomId) (rows d))
  ∧ (length (rows d') + n = length (rows d))%nat
  ∧ (∀ page size, db_getHistory false roomId page size d' = inr [])
  ∧ (∀ other page size, other ≠ roomId →
       db_getHistory false other page size d' = db_getHistory false other page size d).
Proof.
  unfold db_clearRoom. destruct io; [done |]. intros [= <- <-].
  assert (changes (rows d) (filter (λ r, row_roomId r ≠ roomId) (rows d))
          = length (filter (λ r, row_roomId r = roomId) (rows d))) as Hn.
  { rewrite changes_filter. f_equal. apply list_filter_iff. intros r.
    destruct (decide (row_roomId r = roomId)); tauto. }
  split; [done |]. split; [| split].
  - simpl. unfold changes.
    pose proof (length_filter (λ r, row_roomId r ≠ roomId) (rows d)). lia.
  - intros page size. unfold db_getHistory, select_history; simpl.
    rewrite list_filter_filter.
    rewrite (filter_nil_of_Forall _ (rows d)).
    + unfold sql_offset. change (merge_sort newer_first []) with (@nil Row).
      by rewrite drop_nil, sql_limit_nil.
    + apply Forall_forall. intros r _ [? ?]. done.
  - intros other page size Hne. unfold db_getHistory. f_equal.
    apply select_history_other_filter. intros r Hr. congruence.
Qed.

Lemma clearRoom_empties_that_room_only_witness :
  let d' := mkDb (rows (initDatabase 1000)) (lastID (db chatty_r1)) in
  4%nat = length (filter (λ r, row_roomId r = "r1") (rows (db chatty_r1)))
  ∧ (length (rows d') + 4 = length (rows (db chatty_r1)))%nat
  ∧ (∀ page size, db_getHistory false "r1" page size d' = inr [])
  ∧ (∀ other page size, other ≠ "r1" →
       db_getHistory false other page size d'
       = db_getHistory false other page size (db chatty_r1)).
Proof.
  apply (clearRoom_empties_that_room_only false "r1" (db chatty_r1)).
  vm_compute. reflexivity.
Defined.

(** The rows [LIMIT n] keeps from a list ordered by [R] come before all the
    rows it drops. *)
Lemma sql_limit_top {A} (R : relation A) n (l : list A) :
  StronglySorted R l →
  ∃ rest, l = sql_limit n l ++ rest
          ∧ StronglySorted R (sql_limit n l)
          ∧ ∀ x y, x ∈ sql_limit n l → y ∈ rest → R x y.
Proof.
  intros Hl. unfold sql_limit. destruct (n <? 0).
  - exists []. rewrite app_nil_r. split; [done |]. split; [done |].
    intros x y _ Hy. by apply not_elem_of_nil in Hy.
  - exists (drop (Z.to_nat n) l). rewrite take_drop. split; [done |].
    rewrite <- (take_drop (Z.to_nat n) l) in Hl.
    apply StronglySorted_app in Hl as (Hcross & Htake & _). by split.
Qed.

(** X4: [getMessagesBySender(senderId, limit)] returns rows of that sender
    only, newest first, at most [limit] of them (100 when no limit is given),
    and they are the newest ones: a row of the sender that is left out is not
    newer than any row returned. *)
Theorem getMessagesBySender_newest io senderId limit d result :
  0 ≤ default 100 limit →
  db_getMessagesBySender io senderId limit d = inr result →
  (length result ≤ Z.to_nat (default 100%Z limit))%nat
  ∧ StronglySorted newer_first result
  ∧ (∀ r, r ∈ result → r ∈ rows d ∧ row_senderId r = senderId)
  ∧ (∀ r, r ∈ rows d → row_senderId r = senderId → r ∉ result →
       ∀ x, x ∈ result → row_timestamp r ≤ row_timestamp x).
Proof.
  intros Hlimit. unfold db_getMessagesBySender. destruct io; [done |]. intros [= <-].
  set (mine := filter (λ r, row_senderId r = senderId) (rows d)).
  pose proof (merge_sort_Permutation newer_first mine) as Hperm.
  assert (StronglySorted newer_first (merge_sort newer_first mine)) as Hsorted
    by (apply StronglySorted_merge_sort; apply _).
  destruct (sql_limit_top newer_first (default 100 limit) _ Hsorted)
    as (rest & Hsplit & Hkept & Htop).
  split; [| split; [done | split]].
  - unfold sql_limit. rewrite (proj2 (Z.ltb_ge _ 0)) by done.
    rewrite length_take. lia.
  - intros r Hr.
    assert (r ∈ mine) as Hin.
    { rewrite <- Hperm, Hsplit. apply elem_of_app. by left. }
    by apply list_elem_of_filter in Hin as [? ?].
  - intros r Hin Hsender Hout x Hx.
    assert (r ∈ merge_sort newer_first mine) as Hr.
    { rewrite Hperm. by apply list_elem_of_filter. }
    rewrite Hsplit in Hr. apply elem_of_app in Hr as [Hr | Hr]; [done |].
    by apply (Htop x r).
Qed.

Lemma getMessagesBySender_newest_witness :
  let result := [ mkRow 5 "text" "r1" "u1" 1030 "third" None None None None None;
                  mkRow 3 "text" "r1" "u1" 1010 "first" None None None None None ] in
  (length result ≤ Z.to_nat (default 100%Z (Some 2%Z)))%nat
  ∧ StronglySorted newer_first result
  ∧ (∀ r, r ∈ result → r ∈ rows (db chatty_r1) ∧ row_senderId r = "u1")
  ∧ (∀ r, r ∈ rows (db chatty_r1) → row_senderId r = "u1" → r ∉ result →
       ∀ x, x ∈ result → row_timestamp r ≤ row_timestamp x).
Proof.
  apply (getMessagesBySender_newest false "u1" (Some 2) (db chatty_r1)).
  - simpl. lia.
  - vm_compute. reflexivity.
Defined.

(** X5: two consecutive pages of [getHistory] are the two halves of one page
    of twice the size: no row is repeated or skipped between them, every row
    of the first is at least as new as every row of the second, and a page
    shorter than [size] is followed by an empty page. *)
Theorem history_pages_concatenate roomId page size d :
  1 ≤ page → 0 ≤ size →
  ∃ first second,
    db_getHistory false roomId page size d = inr first
    ∧ db_getHistory false roomId (page + 1) size d = inr second
    ∧ select_history roomId (2 * size) ((page - 1) * size) d = first ++ second
    ∧ (∀ a b, a ∈ first → b ∈ second → newer_first a b)
    ∧ ((length first < Z.to_nat size)%nat → second = []).
Proof.
  intros Hpage Hsize.
  destruct (ordered_rows roomId d) as [_ Hsorted].
  set (ordered := merge_sort newer_first
                    (filter (λ r, row_roomId r = roomId) (rows d))) in *.
  set (k := Z.to_nat ((page - 1) * size)).
  set (n := Z.to_nat size).
  assert (Z.to_nat ((page + 1 - 1) * size) = (k + n)%nat) as Hnext.
  { subst k n. rewrite <- Z2Nat.inj_add by nia. f_equal. lia. }
  assert (Z.to_nat (2 * size) = (n + n)%nat) as Hdouble by (subst n; lia).
  exists (take n (drop k ordered)), (take n (drop (k + n) ordered)).
  split; [by apply db_getHistory_page |].
  split; [by rewrite db_getHistory_page, Hnext |].
  split; [| split].
  - unfold select_history, sql_limit, sql_offset.
    rewrite (proj2 (Z.ltb_ge _ 0)) by lia. fold ordered. fold k. rewrite Hdouble.
    by rewrite <- take_take_drop, drop_drop.
  - intros a b Ha Hb.
    apply (StronglySorted_drop _ k) in Hsorted.
    rewrite <- (take_drop n (drop k ordered)) in Hsorted.
    apply StronglySorted_app in Hsorted as (Hcross & _ & _).
    apply Hcross; [done |]. rewrite drop_drop.
    by apply (subseteq_take n).
  - rewrite length_take, length_drop. intros Hshort.
    rewrite drop_ge by lia. apply take_nil.
Qed.

Lemma history_pages_concatenate_witness :
  ∃ first second,
    db_getHistory false "r1" 1 2 (db chatty_r1) = inr first
    ∧ db_getHistory false "r1" (1 + 1) 2 (db chatty_r1) = inr second
    ∧ select_history "r1" (2 * 2) ((1 - 1) * 2) (db chatty_r1) = first ++ second
    ∧ (∀ a b, a ∈ first → b ∈ second → newer_first a b)
    ∧ ((length first < Z.to_nat 2%Z)%nat → second = []).
Proof. apply (history_pages_concatenate "r1" 1 2 (db chatty_r1)); lia. Defined.

(** *** Grouping *)

Lemma sum_indicator {K} `{EqDecision K} (a : K) (keys : list K) :
  NoDup keys → a ∈ keys →
  sum_list_with (λ k, if decide (a = k) then 1 else 0)%nat keys = 1%nat.
Proof.
  induction 1 as [|k keys Hk Hnd IH]; intros Hin.
  - by apply not_elem_of_nil in Hin.
  - simpl. apply elem_of_cons in Hin as [<- | Hin].
    + rewrite decide_True by done.
      assert (sum_list_with (λ k, if decide (a = k) then 1 else 0)%nat keys = 0%nat) as ->;
        [| done].
      clear IH Hnd. induction keys as [|k keys IH]; [done |]. simpl.
      rewrite decide_False by (intros <-; apply Hk, list_elem_of_here).
      apply IH. intros Hin. apply Hk. by apply list_elem_of_further.
    + rewrite decide_False by (intros <-; done). by apply IH.
Qed.

Lemma count_by_key {A K} `{EqDecision K} (f : A → K) (l : list A) (keys : list K) :
  NoDup keys → (∀ x, x ∈ l → f x ∈ keys) →
  sum_list_with (λ k, length (filter (λ x, f x = k) l)) keys = length l.
Proof.
  intros Hnd. induction l as [|x l IH]; intros Hkeys.
  - simpl. clear. induction keys as [|k keys IHk]; [done |]. by simpl.
  - assert (sum_list_with (λ k, length (filter (λ x0, f x0 = k) (x :: l))) keys
            = (sum_list_with (λ k, if decide (f x = k) then 1 else 0) keys
               + sum_list_with (λ k, length (filter (λ x0, f x0 = k) l)) keys)%nat) as ->.
    { clear. induction keys as [|k keys IHk]; [done |]. simpl.
      rewrite IHk. rewrite filter_cons. destruct (decide (f x = k)); simpl; lia. }
    rewrite sum_indicator; [| done | apply Hkeys, list_elem_of_here].
    rewrite IH; [done |]. intros y Hy. by apply Hkeys, list_elem_of_further.
Qed.

Lemma max_timestamp_spec (group : list Row) :
  group ≠ [] →
  (∃ r, r ∈ group ∧ row_timestamp r = max_timestamp group)
  ∧ ∀ r, r ∈ group → row_timestamp r ≤ max_timestamp group.
Proof.
  destruct group as [|r0 rest]; [done |]. intros _. simpl.
  induction rest as [|r rest IH]; simpl.
  - split.
    + exists r0. split; [apply list_elem_of_here | done].
    + intros r Hr. apply list_elem_of_singleton in Hr. subst. lia.
  - destruct IH as [(w & Hw & Hmax) Hall]. split.
    + destruct (Z.max_spec (row_timestamp r)
                  (foldr (λ r' acc, Z.max (row_timestamp r') acc) (row_timestamp r0) rest))
        as [[_ ->] | [_ ->]].
      * exists w. split; [| done].
        apply elem_of_cons in Hw as [-> | Hw]; [apply list_elem_of_here |].
        by do 2 apply list_elem_of_further.
      * exists r. split; [| done]. apply list_elem_of_further, list_elem_of_here.
    + intros r' Hr'.
      apply elem_of_cons in Hr' as [-> | Hr'].
      { specialize (Hall r0 (list_elem_of_here _ _)). lia. }
      apply elem_of_cons in Hr' as [-> | Hr']; [lia |].
      specialize (Hall r' (list_elem_of_further _ _ _ Hr')). lia.
Qed.

#[local] Instance more_recent_total : Total more_recent.
Proof. intros a b. unfold more_recent. lia. Qed.

#[local] Instance more_recent_trans : Transitive more_recent.
Proof. intros a b c. unfold more_recent. lia. Qed.

Lemma sum_list_with_fmap {A B} (g : B → nat) (f : A → B) (l : list A) :
  sum_list_with g (f <$> l) = sum_list_with (g ∘ f) l.
Proof. induction l as [|x l IH]; [done |]. rewrite fmap_cons. simpl. by rewrite IH. Qed.

Lemma length_remove_dups {K} `{EqDecision K} (l : list K) :
  (length (remove_dups l) ≤ length l)%nat.
Proof.
  induction l as [|x l IH]; [done |]. simpl.
  destruct (decide_rel elem_of x l); simpl; lia.
Qed.

(** X6: [getRooms()] lists every room that has at least one row exactly once,
    most recently active first; the message counts of the rooms add up to the
    number of rows of the table, and [lastActivity] is the timestamp of the
    newest row of the room. *)
Theorem getRooms_groups_every_row io d result :
  db_getRooms io d = inr result →
  NoDup (rs_id <$> result)
  ∧ (∀ roomId, roomId ∈ rs_id <$> result ↔ ∃ r, r ∈ rows d ∧ row_roomId r = roomId)
  ∧ sum_list_with rs_messageCount result = length (rows d)
  ∧ StronglySorted more_recent result
  ∧ ∀ s, s ∈ result →
      (0 < rs_messageCount s)%nat
      ∧ (∃ r, r ∈ rows d ∧ row_roomId r = rs_id s ∧ row_timestamp r = rs_lastActivity s)
      ∧ ∀ r, r ∈ rows d → row_roomId r = rs_id s → row_timestamp r ≤ rs_lastActivity s.
Proof.
  unfold db_getRooms. destruct io; [done |]. intros [= <-].
  set (keys := remove_dups (row_roomId <$> rows d)).
  pose proof (merge_sort_Permutation more_recent (summarize d <$> keys)) as Hperm.
  assert (rs_id <$> (summarize d <$> keys) = keys) as Hids.
  { rewrite <- list_fmap_compose. apply list_fmap_id. }
  assert (∀ roomId, roomId ∈ keys ↔ ∃ r, r ∈ rows d ∧ row_roomId r = roomId) as Hkeys.
  { intros roomId. subst keys. rewrite elem_of_remove_dups, list_elem_of_fmap.
    split; intros (r & ? & ?); by exists r. }
  split; [| split; [| split; [| split]]].
  - rewrite Hperm, Hids. apply NoDup_remove_dups.
  - intros roomId. by rewrite Hperm, Hids.
  - rewrite Hperm, sum_list_with_fmap.
    apply (count_by_key row_roomId (rows d) keys); [apply NoDup_remove_dups |].
    intros r Hr. apply Hkeys. by exists r.
  - apply StronglySorted_merge_sort; apply _.
  - intros s Hs. rewrite Hperm in Hs.
    apply list_elem_of_fmap in Hs as (roomId & -> & Hin).
    apply Hkeys in Hin as (r0 & Hr0 & Hroom).
    assert (r0 ∈ filter (λ r, row_roomId r = roomId) (rows d)) as Hmember
      by (by apply list_elem_of_filter).
    assert (filter (λ r, row_roomId r = roomId) (rows d) ≠ []) as Hne
      by (intros Heq; rewrite Heq in Hmember; by apply not_elem_of_nil in Hmember).
    destruct (max_timestamp_spec _ Hne) as [(w & Hw & Hmax) Hall].
    simpl. split; [| split].
    + apply filter_pos_iff. by exists r0.
    + apply list_elem_of_filter in Hw as [? ?]. by exists w.
    + intros r Hr Hrm. apply Hall. by apply list_elem_of_filter.
Qed.

Lemma getRooms_groups_every_row_witness :
  let result := [ mkRoomSummary "r1" 4 1030; mkRoomSummary "default_room" 1 1000 ] in
  NoDup (rs_id <$> result)
  ∧ (∀ roomId, roomId ∈ rs_id <$> result
               ↔ ∃ r, r ∈ rows (db chatty_r1) ∧ row_roomId r = roomId)
  ∧ sum_list_with rs_messageCount result = length (rows (db chatty_r1))
  ∧ StronglySorted more_recent result
  ∧ ∀ s, s ∈ result →
      (0 < rs_messageCount s)%nat
      ∧ (∃ r, r ∈ rows (db chatty_r1) ∧ row_roomId r = rs_id s
              ∧ row_timestamp r = rs_lastActivity s)
      ∧ ∀ r, r ∈ rows (db chatty_r1) → row_roomId r = rs_id s →
             row_timestamp r ≤ rs_lastActivity s.
Proof.
  apply (getRooms_groups_every_row false (db chatty_r1)). vm_compute. reflexivity.
Defined.

(** *** Statistics *)

Lemma type_counts_partition (l : list Row) :
  Forall (λ r, type_check (row_type r) = true) l →
  (length (filter (λ r, row_type r = "text") l)
   + length (filter (λ r, row_type r = "audio") l)
   + length (filter (λ r, row_type r = "video") l)
   + length (filter (λ r, row_type r = "system") l) = length l)%nat.
Proof.
  induction 1 as [|r l Hr _ IH]; [done |].
  rewrite !filter_cons. unfold type_check in Hr.
  repeat (apply orb_prop in Hr as [Hr | Hr]);
    apply bool_decide_eq_true in Hr; rewrite Hr; simpl; lia.
Qed.

Lemma distinct_bounds {K} `{EqDecision K} (f : Row → K) (r : Row) (l : list Row) :
  (1 ≤ length (remove_dups (f <$> r :: l)) ≤ length (r :: l))%nat.
Proof.
  split.
  - assert (f r ∈ remove_dups (f <$> r :: l)) as Hin.
    { apply elem_of_remove_dups. rewrite fmap_cons. apply list_elem_of_here. }
    destruct (remove_dups (f <$> r :: l)); [by apply not_elem_of_nil in Hin |].
    simpl. lia.
  - rewrite <- (length_fmap f (r :: l)). apply length_remove_dups.
Qed.

(** X7: on a table that is not empty, the four per-type counts of
    [getStats()] add up to [totalMessages], and there are at least one and at
    most as many distinct rooms and distinct senders as messages; on an empty
    table the four counts are NULL while the totals are 0. *)
Theorem getStats_counts_add_up io d stats :
  db_wf d →
  db_getStats io d = inr stats →
  (rows d ≠ [] →
     ∃ t a v s,
       messageTypes stats = mkTypeCounts (Some t) (Some a) (Some v) (Some s)
       ∧ (t + a + v + s = totalMessages stats)%nat
       ∧ (1 ≤ totalRooms stats ≤ totalMessages stats)%nat
       ∧ (1 ≤ totalUsers stats ≤ totalMessages stats)%nat)
  ∧ (rows d = [] →
     stats = mkStats 0 0 0 (mkTypeCounts None None None None)).
Proof.
  intros (_ & _ & Hty). unfold db_getStats. destruct io; [done |]. intros [= <-].
  split.
  - intros Hne. destruct (rows d) as [|r l] eqn:Hrows; [done |].
    eexists _, _, _, _. split; [reflexivity |]. simpl totalMessages.
    split; [apply (type_counts_partition (r :: l) Hty) |].
    split; apply distinct_bounds.
  - by intros ->.
Qed.

Lemma getStats_counts_add_up_witness :
  let stats := mkStats 5 2 2 (mkTypeCounts (Some 3%nat) (Some 0%nat) (Some 0%nat) (Some 2%nat)) in
  (rows (db chatty_r1) ≠ [] →
     ∃ t a v s,
       messageTypes stats = mkTypeCounts (Some t) (Some a) (Some v) (Some s)
       ∧ (t + a + v + s = totalMessages stats)%nat
       ∧ (1 ≤ totalRooms stats ≤ totalMessages stats)%nat
       ∧ (1 ≤ totalUsers stats ≤ totalMessages stats)%nat)
  ∧ (rows (db chatty_r1) = [] →
     stats = mkStats 0 0 0 (mkTypeCounts None None None None)).
Proof.
  apply (getStats_counts_add_up false (db chatty_r1)).
  - apply (bool_decide_unpack _). vm_compute. exact I.
  - vm_compute. reflexivity.
Defined.

(** ** Handlers, action by action *)

(** A property survives every handler that is built from actions it
    survives.  Each lemma below depends only on the actions its handler
    performs. *)
Section Actions.
Context {P : State → Prop}.
Variable joinable : WebSocket → Prop.
Hypothesis A_send : ∀ ws frame, preserves P (ws_send ws frame).
Hypothesis A_save : ∀ env message, preserves P (saveMessage env message).
Hypothesis A_leaveRoom : ∀ ws roomId, preserves P (leaveRoom ws roomId).
Hypothesis A_addToRoom : ∀ ws roomId, preserves P (addToRoom roomId ws).
Hypothesis A_bind : ∀ ws roomId senderId, joinable ws →
  preserves P (modify (set_clients (alter (bind_room roomId senderId) ws))).
Hypothesis A_delete : ∀ ws, preserves P (modify (set_clients (delete ws))).
Hypothesis A_recent : ∀ f, preserves P (modify (set_recentMessages f)).
Hypothesis A_socket : ∀ f ws, preserves P (modify (set_sockets (alter f ws))).
Hypothesis A_probe : ∀ ws s,
  preserves P (λ st, if bool_decide (is_Some (sockets st !! ws))
                     then modify (set_sockets (<[ws := s]>)) st else (Ok tt, st)).
Hypothesis A_unlist : ∀ ws, preserves P (modify (set_wssClients (set_delete ws))).

Lemma acts_sendError t ws error : preserves P (sendError t ws error).
Proof.
  intros st HP. unfold sendError. destruct (is_open ws st); [by apply A_send | done].
Qed.

Lemma acts_getClient ws : preserves P (getClient ws).
Proof. intros st HP. unfold getClient. by destruct (clients st !! ws). Qed.

Lemma acts_getHistory env roomId page size :
  preserves P (getHistory env roomId page size).
Proof. intros st HP. unfold getHistory. by destruct (db_getHistory _ _ _ _ _). Qed.

Lemma acts_broadcastToRoom roomId message exclude :
  preserves P (broadcastToRoom roomId message exclude).
Proof.
  intros st HP. unfold broadcastToRoom.
  destruct (rooms st !! roomId) as [room|]; [| done].
  apply preserves_forEach; [| done].
  intros client st' HP'. destruct (_ && _); [by apply A_send | done].
Qed.

Ltac acting :=
  repeat first
    [ apply preserves_ret | apply preserves_throw | apply preserves_when
    | apply A_send | apply A_save | apply A_leaveRoom | apply A_addToRoom
    | apply A_delete | apply A_recent | apply A_socket | apply A_unlist
    | apply acts_sendError | apply acts_getClient | apply acts_getHistory
    | apply acts_broadcastToRoom
    | apply preserves_bind; [| intros ?]
    | apply preserves_try_catch; [| intros ?]
    | match goal with
      | |- preserves _ (match ?x with _ => _ end) => destruct x eqn:?
      | |- preserves _ (if ?b then _ else _) => destruct b eqn:?
      end ].

Lemma acts_handleJoin env ws message :
  (is_Some (truthy (in_roomId message)) → is_Some (truthy (in_senderId message)) →
   joinable ws) →
  preserves P (handleJoin env ws message).
Proof.
  intros Hjoin. unfold handleJoin.
  destruct (truthy (in_roomId message)) as [roomId|] eqn:Hr;
    destruct (truthy (in_senderId message)) as [senderId|] eqn:Hs;
    try (by apply acts_sendError).
  assert (joinable ws) by (apply Hjoin; eauto).
  acting. by apply A_bind.
Qed.

(** What [handleJoin] does after the registry is updated. *)
Lemma acts_join_announce env ws roomId senderId :
  preserves P
    (ws_send ws (FJoined roomId senderId (now env));;
     try_catch
       (history ← getHistory env roomId 1 50;
        when (bool_decide (0 < length history)%nat)
          (ws_send ws (FHistory (reverse history))))
       (λ _, mret tt);;
     broadcastToRoom roomId
       (systemMessage env roomId (Some (senderId +:+ " 加入了聊天室"))) (Some ws);;
     saveMessage env (systemMessage env roomId (Some (senderId +:+ " 加入了聊天室")));;
     mret tt).
Proof. acting. Qed.

Lemma acts_handleLeave env ws message : preserves P (handleLeave env ws message).
Proof. unfold handleLeave. acting. Qed.

Lemma acts_handleChatMessage env ws message :
  preserves P (handleChatMessage env ws message).
Proof. unfold handleChatMessage. acting. Qed.

Lemma acts_handleSystemMessage env ws message :
  preserves P (handleSystemMessage env ws message).
Proof. unfold handleSystemMessage. acting. Qed.

Lemma acts_handleDisconnect env ws : preserves P (handleDisconnect env ws).
Proof.
  intros st. unfold handleDisconnect.
  destruct (clients st !! ws) as [clientInfo|]; [| done].
  revert st. change (preserves P
    (match truthy (ci_roomId clientInfo) with
     | Some roomId =>
         broadcastToRoom roomId
           (systemMessage env roomId
              (Some (template (or_str (ci_userId clientInfo) (Some "Unknown user"))
                     +:+ " 离开了聊天室"))) (Some ws);;
         leaveRoom ws roomId
     | None => mret tt
     end;; modify (set_clients (delete ws)))).
  acting.
Qed.

(** Frames that are neither a join nor a leave. *)
Lemma acts_other_frames env ws message :
  in_type message ≠ Some "join" → in_type message ≠ Some "leave" →
  preserves P (handleMessage env ws message).
Proof.
  intros Hj Hl. unfold handleMessage.
  rewrite (bool_decide_eq_false_2 _ Hj), (bool_decide_eq_false_2 _ Hl).
  repeat match goal with
         | |- preserves _ (if ?b then _ else _) => destruct b
         end;
    auto using acts_handleChatMessage, acts_handleSystemMessage, preserves_ret.
Qed.

Lemma acts_handleMessage env ws message :
  (in_type message = Some "join" →
   is_Some (truthy (in_roomId message)) → is_Some (truthy (in_senderId message)) →
   joinable ws) →
  preserves P (handleMessage env ws message).
Proof.
  intros Hjoin.
  destruct (decide (in_type message = Some "join")) as [Hj|Hj].
  - unfold handleMessage. rewrite (bool_decide_eq_true_2 _ Hj).
    apply acts_handleJoin; auto.
  - destruct (decide (in_type message = Some "leave")) as [Hl|Hl].
    + unfold handleMessage.
      rewrite (bool_decide_eq_false_2 _ Hj), (bool_decide_eq_true_2 _ Hl).
      apply acts_handleLeave.
    + by apply acts_other_frames.
Qed.

Lemma acts_onMessage env ws data :
  (∀ message, data = Parsed message → in_type message = Some "join" →
     is_Some (truthy (in_roomId message)) → is_Some (truthy (in_senderId message)) →
     joinable ws) →
  preserves P (onMessage env ws data).
Proof.
  intros Hjoin. unfold onMessage. apply preserves_try_catch.
  - destruct data as [|message]; [apply preserves_throw |].
    apply acts_handleMessage; eauto.
  - intros _. apply acts_sendError.
Qed.

Lemma acts_onClose env ws : preserves P (onClose env ws).
Proof. unfold onClose. acting. apply acts_handleDisconnect. Qed.

Lemma acts_heartbeat : preserves P heartbeat.
Proof.
  intros st. unfold heartbeat. apply preserves_forEach.
  intros ws st' HP. destruct (sockets st' !! ws) as [s|] eqn:Hs; [| done].
  destruct (bool_decide _).
  - revert HP. apply A_socket.
  - pose proof (A_probe ws (mkSocket (readyState s) (Some false)) st' HP) as Hprobe.
    cbv beta in Hprobe.
    rewrite bool_decide_eq_true_2 in Hprobe by (by rewrite Hs).
    revert Hprobe. apply A_send.
Qed.

Lemma acts_apiSend env body : preserves P (apiSend env body).
Proof. unfold apiSend. acting. Qed.

Lemma acts_apiJoin env senderId : preserves P (apiJoin env senderId).
Proof. unfold apiJoin. acting. Qed.

(** Every event but the opening of a connection. *)
Lemma acts_step st ev :
  (∀ ws, ev.2 ≠ Connection ws) →
  (∀ ws, is_join_of ws ev → joinable ws) →
  P st → P (step st ev).
Proof.
  intros Hconn Hjoin HP. destruct ev as [env ev]. unfold step; simpl.
  destruct ev as [ws|ws data|ws|ws|ws| |body|senderId]; unfold exec.
  - by destruct (Hconn ws).
  - apply acts_onMessage; [| done].
    intros message -> Hty Hr Hs. apply Hjoin. by exists message.
  - by apply acts_onClose.
  - by apply acts_handleDisconnect.
  - done.
  - by apply acts_heartbeat.
  - by apply acts_apiSend.
  - by apply acts_apiJoin.
Qed.
End Actions.


(** ** Consistency of the registry *)

Lemma registry_consistent_ext st st' :
  rooms st' = rooms st → clients st' = clients st → sockets st' = sockets st →
  registry_consistent st → registry_consistent st'.
Proof.
  intros Hr Hc Hs (Ha & Hb & Hk). unfold registry_consistent,
    member_is_bound, bound_is_member, client_has_socket. rewrite Hr, Hc, Hs. done.
Qed.

Lemma registry_consistent_core st st' :
  same_core st st' → registry_consistent st → registry_consistent st'.
Proof. intros (Hr & Hc & Hs & _). by apply registry_consistent_ext. Qed.

Lemma same_core_refl st : same_core st st.
Proof. done. Qed.

Lemma elem_of_set_add x ws s : x ∈ set_add ws s ↔ x = ws ∨ x ∈ s.
Proof.
  unfold set_add. case_bool_decide as Hin.
  - split; [by right |]. by intros [-> | ?].
  - rewrite elem_of_app, list_elem_of_singleton. tauto.
Qed.

Lemma elem_of_set_delete x ws s : x ∈ set_delete ws s ↔ x ≠ ws ∧ x ∈ s.
Proof. unfold set_delete. by rewrite list_elem_of_filter. Qed.

Lemma truthy_bound roomId : roomId ≠ "" → truthy (Some roomId) = Some roomId.
Proof. intros Hne. simpl. by rewrite bool_decide_eq_false_2. Qed.

(** A connection that is bound to no room is a member of no room. *)
Lemma unbound_in_no_room st ws clientInfo :
  member_is_bound st → clients st !! ws = Some clientInfo →
  truthy (ci_roomId clientInfo) = None →
  ∀ roomId room, rooms st !! roomId = Some room → ws ∉ room.
Proof.
  intros Ha Hci Hnone roomId room Hroom Hin.
  destruct (Ha roomId room ws Hroom Hin) as (ci & Hci' & Hbound).
  rewrite Hci in Hci'. injection Hci' as <-. by rewrite Hnone in Hbound.
Qed.

(** [leaveRoom] of the room the connection is bound to. *)
Lemma consistent_leaveRoom st ws clientInfo roomId :
  registry_consistent st →
  clients st !! ws = Some clientInfo →
  truthy (ci_roomId clientInfo) = Some roomId →
  let st' := exec (leaveRoom ws roomId) st in
  registry_consistent st'
  ∧ clients st' !! ws = Some (clear_room clientInfo)
  ∧ ∀ r room, rooms st' !! r = Some room → ws ∉ room.
Proof.
  intros (Ha & Hb & Hk) Hci Hbound st'.
  destruct (Hb ws clientInfo roomId Hci Hbound) as (room & Hroom & Hmember).
  assert (Hrooms : ∀ r room', rooms st' !! r = Some room' →
            ∃ old, rooms st !! r = Some old
                   ∧ ∀ x, x ∈ room' → x ∈ old ∧ (r = roomId → x ≠ ws)).
  { intros r room'. subst st'. rewrite leaveRoom_rooms, Hroom.
    case_bool_decide as Hempty.
    - intros Hr. apply lookup_delete_Some in Hr as [Hne Hr]. exists room'.
      split; [done |]. intros x Hx. split; [done |]. by intros ->.
    - intros Hr. apply lookup_insert_Some in Hr as [[<- <-]|[Hne Hr]].
      + exists room. split; [done |]. intros x Hx.
        apply elem_of_set_delete in Hx as [? ?]. done.
      + exists room'. split; [done |]. intros x Hx. split; [done |]. by intros ->. }
  assert (Hclients : clients st' = alter clear_room ws (clients st))
    by apply leaveRoom_clients.
  assert (Hnowhere : ∀ r room', rooms st' !! r = Some room' → ws ∉ room').
  { intros r room' Hr Hin.
    destruct (Hrooms r room' Hr) as (old & Hold & Hsub).
    destruct (Hsub ws Hin) as [Hin' Hne].
    destruct (Ha r old ws Hold Hin') as (ci & Hci' & Hb').
    rewrite Hci in Hci'. injection Hci' as <-.
    rewrite Hbound in Hb'. injection Hb' as <-. by apply Hne. }
  split; [split; [| split] | split].
  - intros r room' x Hr Hx.
    destruct (Hrooms r room' Hr) as (old & Hold & Hsub).
    destruct (Hsub x Hx) as [Hx' _].
    destruct (Ha r old x Hold Hx') as (ci & Hcx & Hbx).
    assert (x ≠ ws) as Hne by (intros ->; by apply (Hnowhere r room' Hr)).
    exists ci. rewrite Hclients, lookup_alter_ne by done. done.
  - intros x ci r. rewrite Hclients.
    destruct (decide (x = ws)) as [->|Hne].
    + rewrite lookup_alter_eq, Hci. simpl. intros [= <-]. by rewrite truthy_clear_room.
    + rewrite lookup_alter_ne by done. intros Hcx Hbx.
      destruct (Hb x ci r Hcx Hbx) as (old & Hold & Hx).
      subst st'. rewrite leaveRoom_rooms, Hroom.
      destruct (decide (r = roomId)) as [->|Hr].
      * rewrite Hroom in Hold. injection Hold as <-.
        assert (x ∈ set_delete ws room) as Hx' by (by apply elem_of_set_delete).
        rewrite bool_decide_eq_false_2
          by (intros Heq; rewrite Heq in Hx'; by apply not_elem_of_nil in Hx').
        exists (set_delete ws room). by rewrite lookup_insert_eq.
      * exists old. split; [| done].
        case_bool_decide; [by rewrite lookup_delete_ne | by rewrite lookup_insert_ne].
  - intros x. rewrite Hclients.
    destruct (leaveRoom_frame ws roomId st) as (Hsock & _). fold st' in Hsock.
    rewrite Hsock. intros Hx. apply Hk.
    destruct (decide (x = ws)) as [->|Hne]; [by rewrite Hci |].
    by rewrite lookup_alter_ne in Hx.
  - by rewrite Hclients, lookup_alter_eq, Hci.
  - done.
Qed.

Lemma addToRoom_rooms roomId ws st r :
  rooms (exec (addToRoom roomId ws) st) !! r
  = if decide (r = roomId)
    then Some (set_add ws (default [] (rooms st !! roomId)))
    else rooms st !! r.
Proof.
  unfold exec, addToRoom, modify, mbind, M_bind; simpl.
  destruct (decide (r = roomId)) as [->|Hne].
  - rewrite lookup_alter_eq. case_bool_decide as Hroom.
    + destruct Hroom as [room Hroom]. by rewrite Hroom.
    + rewrite lookup_insert_eq. apply eq_None_not_Some in Hroom. by rewrite Hroom.
  - rewrite lookup_alter_ne by done.
    case_bool_decide; [done |]. by rewrite lookup_insert_ne.
Qed.

(** The registry after the first half of a valid [handleJoin]: the previous
    room is left, the connection is bound and added to the new room. *)
Lemma handleJoin_known env ws message roomId senderId clientInfo st :
  truthy (in_roomId message) = Some roomId →
  truthy (in_senderId message) = Some senderId →
  clients st !! ws = Some clientInfo →
  handleJoin env ws message st
  = (ws_send ws (FJoined roomId senderId (now env));;
     try_catch
       (history ← getHistory env roomId 1 50;
        when (bool_decide (0 < length history)%nat)
          (ws_send ws (FHistory (reverse history))))
       (λ _, mret tt);;
     broadcastToRoom roomId
       (systemMessage env roomId (Some (senderId +:+ " 加入了聊天室"))) (Some ws);;
     saveMessage env (systemMessage env roomId (Some (senderId +:+ " 加入了聊天室")));;
     mret tt)
      (exec (match truthy (ci_roomId clientInfo) with
             | Some previous => leaveRoom ws previous
             | None => mret tt
             end;;
             modify (set_clients (alter (bind_room roomId senderId) ws));;
             addToRoom roomId ws) st).
Proof.
  intros Hr Hs Hci. unfold handleJoin. rewrite Hr, Hs.
  unfold mbind at 1. unfold M_bind at 1. unfold getClient. rewrite Hci.
  by destruct (truthy (ci_roomId clientInfo)).
Qed.

Lemma same_core_trans st1 st2 st3 :
  same_core st1 st2 → same_core st2 st3 → same_core st1 st3.
Proof.
  intros (? & ? & ? & ?) (? & ? & ? & ?). unfold same_core. repeat split; congruence.
Qed.

Lemma same_core_send st0 ws frame : preserves (same_core st0) (ws_send ws frame).
Proof. intros st Hst. unfold ws_send. simpl. by destruct (is_open ws st). Qed.

Lemma same_core_save st0 env message : preserves (same_core st0) (saveMessage env message).
Proof.
  intros st Hst. unfold saveMessage. by destruct (db_saveMessage _ _ _) as [e|[id d]].
Qed.

Lemma same_core_recent st0 f : preserves (same_core st0) (modify (set_recentMessages f)).
Proof. by intros st Hst. Qed.

(** The registry after a valid join of a known connection, whatever happens
    to the history query, the broadcast and the INSERT. *)
Lemma join_core env ws message roomId senderId clientInfo st :
  in_type message = Some "join" →
  truthy (in_roomId message) = Some roomId →
  truthy (in_senderId message) = Some senderId →
  clients st !! ws = Some clientInfo →
  same_core
    (exec (match truthy (ci_roomId clientInfo) with
           | Some previous => leaveRoom ws previous
           | None => mret tt
           end;;
           modify (set_clients (alter (bind_room roomId senderId) ws));;
           addToRoom roomId ws) st)
    (step st (env, Incoming ws (Parsed message))).
Proof.
  intros Hty Hr Hs Hci.
  pose proof (handleJoin_known env ws message roomId senderId clientInfo st Hr Hs Hci)
    as Hjoin.
  set (st1 := exec _ st) in *.
  pose proof (acts_join_announce (same_core_send st1) (same_core_save st1)
                env ws roomId senderId st1 (same_core_refl st1)) as Hcore.
  match type of Hjoin with _ = ?k st1 => set (announce := k) in * end.
  unfold step, exec, onMessage, try_catch, handleMessage; simpl.
  rewrite Hty. rewrite bool_decide_eq_true_2 by done. rewrite Hjoin.
  destruct (announce st1) as [[[]|e] st']; [done |].
  revert Hcore. apply acts_sendError, same_core_send.
Qed.

(** Binding an unattached connection and adding it to the room. *)
Lemma consistent_bind_add st ws clientInfo roomId senderId :
  registry_consistent st →
  clients st !! ws = Some clientInfo →
  (∀ r room, rooms st !! r = Some room → ws ∉ room) →
  roomId ≠ "" →
  registry_consistent
    (exec (addToRoom roomId ws)
       (set_clients (alter (bind_room roomId senderId) ws) st)).
Proof.
  intros (Ha & Hb & Hk) Hci Hnowhere Hne.
  set (st1 := exec _ _).
  assert (Hclients : clients st1 = alter (bind_room roomId senderId) ws (clients st))
    by done.
  assert (Hsockets : sockets st1 = sockets st) by done.
  assert (Hrooms : ∀ r, rooms st1 !! r
            = if decide (r = roomId)
              then Some (set_add ws (default [] (rooms st !! roomId)))
              else rooms st !! r).
  { intros r. subst st1. by rewrite addToRoom_rooms. }
  split; [| split].
  - intros r room x. rewrite Hrooms, Hclients.
    destruct (decide (x = ws)) as [->|Hx].
    + rewrite lookup_alter_eq, Hci. simpl.
      destruct (decide (r = roomId)) as [->|Hr].
      * intros _ _. eexists. split; [done |]. by apply truthy_bound.
      * intros Hroom Hin. by destruct (Hnowhere r room Hroom).
    + rewrite lookup_alter_ne by done.
      destruct (decide (r = roomId)) as [->|Hr]; [| apply Ha].
      intros [= <-] Hin. apply elem_of_set_add in Hin as [? | Hin]; [done |].
      destruct (rooms st !! roomId) as [old|] eqn:Hold;
        [| by apply not_elem_of_nil in Hin].
      by apply (Ha roomId old).
  - intros x ci r. rewrite Hclients, Hrooms.
    destruct (decide (x = ws)) as [->|Hx].
    + rewrite lookup_alter_eq, Hci. simpl. intros [= <-]. simpl.
      rewrite bool_decide_eq_false_2 by done. intros [= <-].
      rewrite decide_True by done. eexists. split; [done |].
      apply elem_of_set_add. by left.
    + rewrite lookup_alter_ne by done. intros Hcx Hbx.
      destruct (Hb x ci r Hcx Hbx) as (old & Hold & Hin).
      destruct (decide (r = roomId)) as [->|Hr]; [| by exists old].
      eexists. split; [done |]. rewrite Hold. apply elem_of_set_add. by right.
  - intros x. rewrite Hclients, Hsockets. intros Hx. apply Hk.
    destruct (decide (x = ws)) as [->|Hxw]; [by rewrite Hci |].
    by rewrite lookup_alter_ne in Hx.
Qed.

(** The first half of a valid [handleJoin] keeps the registry consistent. *)
Lemma consistent_join_prefix st ws clientInfo roomId senderId :
  registry_consistent st →
  clients st !! ws = Some clientInfo →
  roomId ≠ "" →
  registry_consistent
    (exec (match truthy (ci_roomId clientInfo) with
           | Some previous => leaveRoom ws previous
           | None => mret tt
           end;;
           modify (set_clients (alter (bind_room roomId senderId) ws));;
           addToRoom roomId ws) st).
Proof.
  intros Hst Hci Hne.
  destruct (truthy (ci_roomId clientInfo)) as [previous|] eqn:Hprev.
  - destruct (consistent_leaveRoom st ws clientInfo previous Hst Hci Hprev)
      as (Hst' & Hci' & Hnowhere).
    by apply (consistent_bind_add _ ws (clear_room clientInfo)).
  - apply (consistent_bind_add st ws clientInfo); try done.
    destruct Hst as (Ha & _). by apply (unbound_in_no_room st ws clientInfo).
Qed.

(** ['close'] and ['error']: [handleDisconnect]. *)
Lemma consistent_handleDisconnect env ws st :
  registry_consistent st →
  registry_consistent (exec (handleDisconnect env ws) st)
  ∧ clients (exec (handleDisconnect env ws) st) !! ws = None
  ∧ (is_Some (clients st !! ws) →
     ∀ r room, rooms (exec (handleDisconnect env ws) st) !! r = Some room → ws ∉ room).
Proof.
  intros Hst. unfold exec, handleDisconnect.
  destruct (clients st !! ws) as [clientInfo|] eqn:Hci.
  2:{ simpl. split; [done |]. split; [done |]. by intros [? ?]. }
  assert (∀ st0 ci0, registry_consistent st0 → clients st0 !! ws = Some ci0 →
            (∀ r room, rooms st0 !! r = Some room → ws ∉ room) →
            registry_consistent (set_clients (delete ws) st0)
            ∧ clients (set_clients (delete ws) st0) !! ws = None
            ∧ (∀ r room, rooms (set_clients (delete ws) st0) !! r = Some room → ws ∉ room))
    as Hdelete.
  { intros st0 ci0 (Ha & Hb & Hk) Hci0 Hnowhere. split; [split; [| split] |].
    - intros r room x Hroom Hin. simpl.
      assert (x ≠ ws) by (intros ->; by apply (Hnowhere r room)).
      rewrite lookup_delete_ne by done. by apply (Ha r room).
    - intros x ci r. simpl. destruct (decide (x = ws)) as [->|Hx].
      + by rewrite lookup_delete_eq.
      + rewrite lookup_delete_ne by done. apply Hb.
    - intros x. simpl. destruct (decide (x = ws)) as [->|Hx].
      + rewrite lookup_delete_eq. by intros [? ?].
      + rewrite lookup_delete_ne by done. apply Hk.
    - split; [apply lookup_delete_eq | done]. }
  destruct (truthy (ci_roomId clientInfo)) as [roomId|] eqn:Hroom.
  - unfold mbind, M_bind. rewrite broadcastToRoom_sent.
    set (st0 := set_sent _ st).
    assert (registry_consistent st0) as Hst0
      by (by apply (registry_consistent_core st)).
    destruct (consistent_leaveRoom st0 ws clientInfo roomId Hst0 Hci Hroom)
      as (Hleft & Hci' & Hnowhere).
    change ((leaveRoom ws roomId st0).2) with (exec (leaveRoom ws roomId) st0) in *.
    destruct (leaveRoom ws roomId st0) as [[[]|e] st1] eqn:Hleave.
    + unfold exec in *. rewrite Hleave in *. simpl in *.
      destruct (Hdelete st1 _ Hleft Hci' Hnowhere) as (H1 & H2 & H3).
      split; [exact H1 |]. split; [exact H2 |]. intros _. exact H3.
    + unfold leaveRoom, modify, mbind, M_bind in Hleave. discriminate.
  - simpl.
    destruct (Hdelete st clientInfo Hst Hci) as (H1 & H2 & H3).
    { destruct Hst as (Ha & _). by apply (unbound_in_no_room st ws clientInfo). }
    split; [exact H1 |]. split; [exact H2 |]. intros _. exact H3.
Qed.

(** An explicit leave of a bound connection: the others are told first, then
    the store decides whether the binding is released. *)
Lemma leave_step env ws message st clientInfo roomId :
  in_type message = Some "leave" →
  clients st !! ws = Some clientInfo →
  truthy (ci_roomId clientInfo) = Some roomId →
  let leaveMessage :=
    systemMessage env roomId (Some (template (ci_userId clientInfo) +:+ " 离开了聊天室")) in
  let told := set_sent (λ s, s ++ ((λ c, (c, FMessage leaveMessage)) <$>
                                   recipients roomId (Some ws) st)) st in
  step st (env, Incoming ws (Parsed message)) =
    match db_saveMessage (saveFails env) leaveMessage (db st) with
    | inr (_, d) => exec (leaveRoom ws roomId) (set_db (λ _, d) told)
    | inl _ => exec (sendError (now env) ws "Invalid message format") told
    end.
Proof.
  intros Hty Hci Hroom leaveMessage told.
  unfold step, exec, onMessage, try_catch, handleMessage; simpl.
  rewrite Hty.
  rewrite (bool_decide_eq_false_2 (Some "leave" = Some "join")) by done.
  rewrite (bool_decide_eq_true_2 (Some "leave" = Some "leave")) by done.
  unfold handleLeave, mbind at 1. unfold M_bind at 1, getClient.
  rewrite Hci, Hroom. fold leaveMessage.
  unfold mbind at 1. unfold M_bind at 1. rewrite broadcastToRoom_sent. fold told.
  unfold mbind, M_bind, saveMessage. simpl db.
  by destruct (db_saveMessage _ _ _) as [e|[id d]].
Qed.

(** A leave of a connection that is not bound to a room, or not known. *)
Lemma leave_step_unbound env ws message st :
  in_type message = Some "leave" →
  (∀ clientInfo, clients st !! ws = Some clientInfo →
     truthy (ci_roomId clientInfo) = None) →
  step st (env, Incoming ws (Parsed message)) =
    match clients st !! ws with
    | Some _ => st
    | None => exec (sendError (now env) ws "Invalid message format") st
    end.
Proof.
  intros Hty Hunbound.
  unfold step, exec, onMessage, try_catch, handleMessage; simpl.
  rewrite Hty.
  rewrite (bool_decide_eq_false_2 (Some "leave" = Some "join")) by done.
  rewrite (bool_decide_eq_true_2 (Some "leave" = Some "leave")) by done.
  unfold handleLeave, mbind, M_bind, getClient.
  destruct (clients st !! ws) as [clientInfo|] eqn:Hci; [| done].
  by rewrite (Hunbound clientInfo).
Qed.

Lemma same_core_sendError st t ws error :
  same_core st (exec (sendError t ws error) st).
Proof. apply acts_sendError; [apply same_core_send | apply same_core_refl]. Qed.

Lemma consistent_leave env ws message st :
  in_type message = Some "leave" →
  registry_consistent st →
  registry_consistent (step st (env, Incoming ws (Parsed message))).
Proof.
  intros Hty Hst.
  destruct (clients st !! ws) as [clientInfo|] eqn:Hci.
  - destruct (truthy (ci_roomId clientInfo)) as [roomId|] eqn:Hroom.
    + rewrite (leave_step env ws message st clientInfo roomId) by done.
      set (told := set_sent _ st).
      assert (registry_consistent told) as Htold
        by (by apply (registry_consistent_core st)).
      destruct (db_saveMessage _ _ _) as [e|[id d]].
      * eapply registry_consistent_core; [apply same_core_sendError | done].
      * by apply (consistent_leaveRoom (set_db (λ _, d) told) ws clientInfo roomId).
    + rewrite leave_step_unbound; [by rewrite Hci | done |].
      intros ci. rewrite Hci. by intros [= <-].
  - rewrite leave_step_unbound; [| done | by rewrite Hci].
    rewrite Hci. eapply registry_consistent_core; [apply same_core_sendError | done].
Qed.

(** The opening of a connection. *)
Lemma connection_step env ws st :
  step st (env, Connection ws) =
    match sockets st !! ws with
    | Some _ => st
    | None =>
        set_sent (λ s, s ++ [(ws, FSystem "连接成功" (now env))])
          (set_clients (<[ws := mkClientInfo (generateClientId env) None None (now env)]>)
             (set_wssClients (set_add ws)
                (set_sockets (<[ws := mkSocket OPEN None]>) st)))
    end.
Proof.
  unfold step, exec, onConnection; simpl.
  destruct (sockets st !! ws) eqn:Hs; [done |].
  unfold mbind, M_bind, modify, ws_send, is_open; simpl.
  by rewrite lookup_insert_eq.
Qed.

Lemma consistent_connection env ws st :
  registry_consistent st → registry_consistent (step st (env, Connection ws)).
Proof.
  intros (Ha & Hb & Hk). rewrite connection_step.
  destruct (sockets st !! ws) as [s|] eqn:Hs; [done |].
  assert (clients st !! ws = None) as Hnew.
  { apply eq_None_not_Some. intros Hsome. apply Hk in Hsome.
    rewrite Hs in Hsome. by destruct Hsome. }
  split; [| split].
  - intros r room x Hroom Hin. simpl in *.
    destruct (Ha r room x Hroom Hin) as (ci & Hci & Hbound).
    exists ci. split; [| done]. rewrite lookup_insert_ne; [done |].
    intros <-. by rewrite Hnew in Hci.
  - intros x ci r. simpl. destruct (decide (x = ws)) as [->|Hx].
    + rewrite lookup_insert_eq. by intros [= <-].
    + rewrite lookup_insert_ne by done. apply Hb.
  - intros x. simpl. destruct (decide (x = ws)) as [->|Hx].
    + intros _. rewrite lookup_insert_eq. by eexists.
    + rewrite !lookup_insert_ne by done. apply Hk.
Qed.

(** Socket updates that forget no socket. *)
Lemma consistent_sockets_alter f ws :
  preserves registry_consistent (modify (set_sockets (alter f ws))).
Proof.
  intros st (Ha & Hb & Hk). split; [done | split; [done |]].
  intros x Hx. simpl. destruct (decide (x = ws)) as [->|Hne].
  - rewrite lookup_alter_eq. apply fmap_is_Some. by apply Hk.
  - rewrite lookup_alter_ne by done. by apply Hk.
Qed.

Lemma consistent_sockets_probe ws s :
  preserves registry_consistent
    (λ st, if bool_decide (is_Some (sockets st !! ws))
           then modify (set_sockets (<[ws := s]>)) st else (Ok tt, st)).
Proof.
  intros st (Ha & Hb & Hk). case_bool_decide; [| done].
  split; [done | split; [done |]].
  intros x Hx. simpl. destruct (decide (x = ws)) as [->|Hne].
  - rewrite lookup_insert_eq. by eexists.
  - rewrite lookup_insert_ne by done. by apply Hk.
Qed.

Lemma consistent_core_only {A} (m : M A) :
  (∀ st0, preserves (same_core st0) m) → preserves registry_consistent m.
Proof.
  intros Hm st Hst. eapply registry_consistent_core; [| exact Hst].
  apply Hm, same_core_refl.
Qed.

(** One event keeps the registry consistent. *)
Lemma registry_consistent_step st ev :
  registry_consistent st → registry_consistent (step st ev).
Proof.
  intros Hst. destruct ev as [env ev].
  destruct ev as [ws|ws data|ws|ws|ws| |body|senderId].
  - by apply consistent_connection.
  - destruct data as [|message].
    { unfold step, exec, onMessage, try_catch, throw; simpl.
      eapply registry_consistent_core; [apply same_core_sendError | done]. }
    destruct (decide (in_type message = Some "join")) as [Hj|Hj].
    + destruct (truthy (in_roomId message)) as [roomId|] eqn:Hr;
        [destruct (truthy (in_senderId message)) as [senderId|] eqn:Hs;
         [destruct (clients st !! ws) as [clientInfo|] eqn:Hci |] |].
      * eapply registry_consistent_core;
          [by apply (join_core env ws message roomId senderId clientInfo) |].
        apply consistent_join_prefix; try done.
        by apply truthy_Some in Hr as [_ ?].
      * unfold step, exec, onMessage, try_catch, handleMessage; simpl.
        rewrite Hj, bool_decide_eq_true_2 by done.
        unfold handleJoin. rewrite Hr, Hs. unfold mbind, M_bind, getClient.
        rewrite Hci.
        eapply registry_consistent_core; [apply same_core_sendError | done].
      * unfold step, exec, onMessage, try_catch, handleMessage; simpl.
        rewrite Hj, bool_decide_eq_true_2 by done.
        unfold handleJoin. rewrite Hr, Hs.
        pose proof (same_core_sendError st (now env) ws
                      "roomId and senderId are required") as Hcore.
        unfold exec in Hcore.
        destruct (sendError _ _ _ st) as [[[]|e] st'];
          eapply registry_consistent_core; try exact Hst; try exact Hcore.
        eapply same_core_trans; [exact Hcore | apply same_core_sendError].
      * unfold step, exec, onMessage, try_catch, handleMessage; simpl.
        rewrite Hj, bool_decide_eq_true_2 by done.
        unfold handleJoin. rewrite Hr.
        pose proof (same_core_sendError st (now env) ws
                      "roomId and senderId are required") as Hcore.
        unfold exec in Hcore.
        destruct (sendError _ _ _ st) as [[[]|e] st'];
          eapply registry_consistent_core; try exact Hst; try exact Hcore.
        eapply same_core_trans; [exact Hcore | apply same_core_sendError].
    + destruct (decide (in_type message = Some "leave")) as [Hl|Hl].
      * by apply consistent_leave.
      * unfold step, exec, onMessage; simpl. revert st Hst.
        apply consistent_core_only. intros st0.
        apply preserves_try_catch.
        -- apply acts_other_frames; auto using same_core_send, same_core_save.
        -- intros _. apply acts_sendError, same_core_send.
  - unfold step, exec, onClose; simpl.
    unfold mbind at 1. unfold M_bind at 1. unfold modify at 1.
    unfold mbind at 1. unfold M_bind at 1. unfold modify at 1.
    apply consistent_handleDisconnect.
    apply (registry_consistent_ext
             (set_sockets (alter (λ s, mkSocket CLOSED (isAlive s)) ws) st));
      [done | done | done |].
    by apply consistent_sockets_alter.
  - by apply consistent_handleDisconnect.
  - done.
  - unfold step, exec; simpl. revert st Hst.
    apply acts_heartbeat.
    + intros ws frame. apply consistent_core_only. intros st0. apply same_core_send.
    + apply consistent_sockets_alter.
    + apply consistent_sockets_probe.
  - unfold step, exec; simpl. revert st Hst. apply consistent_core_only. intros st0.
    apply acts_apiSend; auto using same_core_save, same_core_recent.
  - unfold step, exec; simpl. revert st Hst. apply consistent_core_only. intros st0.
    apply acts_apiJoin; auto using same_core_save, same_core_recent.
Qed.

Lemma registry_consistent_init startup : registry_consistent (initState startup).
Proof.
  split; [| split].
  - intros r room ws Hr. simpl in Hr. by rewrite lookup_empty in Hr.
  - intros ws ci r Hci. simpl in Hci. by rewrite lookup_empty in Hci.
  - intros ws [ci Hci]. simpl in Hci. by rewrite lookup_empty in Hci.
Qed.

Lemma registry_consistent_run st trace :
  registry_consistent st → registry_consistent (run st trace).
Proof.
  revert st. induction trace as [|ev trace IH]; intros st Hst; [done |].
  simpl. by apply IH, registry_consistent_step.
Qed.

(** X8: in every state the server reaches from startup, a connection is a
    member of a room exactly when the client table binds it to that room; so
    no connection is a member of two rooms, and no room lists a connection
    that has been removed from the client table. *)
Theorem membership_matches_binding startup trace :
  let st := run (initState startup) trace in
  (∀ ws roomId,
     (∃ room, rooms st !! roomId = Some room ∧ ws ∈ room)
     ↔ (∃ clientInfo, clients st !! ws = Some clientInfo
                      ∧ truthy (ci_roomId clientInfo) = Some roomId))
  ∧ (∀ ws r1 r2 room1 room2,
       rooms st !! r1 = Some room1 → ws ∈ room1 →
       rooms st !! r2 = Some room2 → ws ∈ room2 → r1 = r2)
  ∧ (∀ ws roomId room,
       clients st !! ws = None → rooms st !! roomId = Some room → ws ∉ room).
Proof.
  intros st.
  destruct (registry_consistent_run (initState startup) trace
              (registry_consistent_init startup)) as (Ha & Hb & _).
  fold st in Ha, Hb. split; [| split].
  - intros ws roomId. split.
    + intros (room & Hroom & Hin). by apply (Ha roomId room).
    + intros (ci & Hci & Hbound). by apply (Hb ws ci).
  - intros ws r1 r2 room1 room2 H1 Hin1 H2 Hin2.
    destruct (Ha r1 room1 ws H1 Hin1) as (ci1 & Hci1 & Hb1).
    destruct (Ha r2 room2 ws H2 Hin2) as (ci2 & Hci2 & Hb2).
    rewrite Hci1 in Hci2. injection Hci2 as <-. rewrite Hb1 in Hb2. by injection Hb2.
  - intros ws roomId room Hnone Hroom Hin.
    destruct (Ha roomId room ws Hroom Hin) as (ci & Hci & _). by rewrite Hnone in Hci.
Qed.

Lemma membership_matches_binding_witness :
  let st := run (initState 1000)
              [ (calm 1001, Connection 1%nat);
                (calm 1003, Incoming 1%nat (join_frame "r1" "u1"));
                (calm 1005, Incoming 1%nat (join_frame "r2" "u1")) ] in
  (∀ ws roomId,
     (∃ room, rooms st !! roomId = Some room ∧ ws ∈ room)
     ↔ (∃ clientInfo, clients st !! ws = Some clientInfo
                      ∧ truthy (ci_roomId clientInfo) = Some roomId))
  ∧ (∀ ws r1 r2 room1 room2,
       rooms st !! r1 = Some room1 → ws ∈ room1 →
       rooms st !! r2 = Some room2 → ws ∈ room2 → r1 = r2)
  ∧ (∀ ws roomId room,
       clients st !! ws = None → rooms st !! roomId = Some room → ws ∉ room).
Proof. apply (membership_matches_binding 1000). Defined.

Lemma join_prefix_unfold ws roomId senderId (previous : option string) st :
  exec (match previous with
        | Some previous => leaveRoom ws previous
        | None => mret tt
        end;;
        modify (set_clients (alter (bind_room roomId senderId) ws));;
        addToRoom roomId ws) st
  = exec (addToRoom roomId ws)
      (set_clients (alter (bind_room roomId senderId) ws)
         match previous with
         | Some previous => exec (leaveRoom ws previous) st
         | None => st
         end).
Proof. by destruct previous. Qed.

(** X9: a valid join of a connected client puts the connection into the
    member set of the room and binds it to the room and identity of the
    frame, whatever the state before and whether or not the history query,
    the sends or the INSERT of the presence message fail. *)
Theorem join_registers_member env st ws message roomId senderId clientInfo :
  in_type message = Some "join" →
  truthy (in_roomId message) = Some roomId →
  truthy (in_senderId message) = Some senderId →
  clients st !! ws = Some clientInfo →
  let st' := step st (env, Incoming ws (Parsed message)) in
  (∃ room, rooms st' !! roomId = Some room ∧ ws ∈ room)
  ∧ clients st' !! ws
    = Some (mkClientInfo (ci_id clientInfo) (Some roomId) (Some senderId)
              (ci_connectedAt clientInfo)).
Proof.
  intros Hty Hr Hs Hci st'.
  destruct (join_core env ws message roomId senderId clientInfo st Hty Hr Hs Hci)
    as (Hrooms & Hclients & _).
  fold st' in Hrooms, Hclients. rewrite Hrooms, Hclients, join_prefix_unfold. split.
  - rewrite addToRoom_rooms, decide_True by done. eexists. split; [done |].
    apply elem_of_set_add. by left.
  - change (clients (exec (addToRoom roomId ws) ?s)) with (clients s).
    cbn [clients set_clients]. rewrite lookup_alter_eq.
    destruct (truthy (ci_roomId clientInfo)) as [previous|].
    + by rewrite leaveRoom_clients, lookup_alter_eq, Hci.
    + by rewrite Hci.
Qed.

Lemma join_registers_member_witness :
  let st' := step two_in_r1 (stormy 1005, Incoming 1%nat (join_frame "r2" "u9")) in
  (∃ room, rooms st' !! "r2" = Some room ∧ 1%nat ∈ room)
  ∧ clients st' !! 1%nat
    = Some (mkClientInfo "client_k3x9q_1001" (Some "r2") (Some "u9") 1001).
Proof.
  apply (join_registers_member (stormy 1005) two_in_r1 1%nat
           (mkInbound (Some "join") (Some "r2") (Some "u9") None None None None None None)
           "r2" "u9" (mkClientInfo "client_k3x9q_1001" (Some "r1") (Some "u1") 1001)).
  - reflexivity.
  - reflexivity.
  - reflexivity.
  - vm_compute. reflexivity.
Defined.

Lemma recipients_exclude roomId ws st c :
  c ∈ recipients roomId (Some ws) st → c ≠ ws.
Proof.
  unfold recipients. destruct (rooms st !! roomId) as [room|];
    [| by intros ?%not_elem_of_nil].
  intros Hc. apply list_elem_of_filter in Hc as [[Hne _] _]. congruence.
Qed.

Lemma recipients_spec roomId exclude st c :
  c ∈ recipients roomId exclude st
  ↔ Some c ≠ exclude ∧ is_open c st = true
    ∧ ∃ room, rooms st !! roomId = Some room ∧ c ∈ room.
Proof.
  unfold recipients. destruct (rooms st !! roomId) as [room|].
  - rewrite list_elem_of_filter. split.
    + intros [[? ?] ?]. eauto.
    + intros (? & ? & room' & [= <-] & ?). done.
  - split; [by intros ?%not_elem_of_nil |]. by intros (_ & _ & ? & ? & _).
Qed.

Lemma leaveRoom_db ws roomId st : db (exec (leaveRoom ws roomId) st) = db st.
Proof. by destruct (leaveRoom_frame ws roomId st) as (_ & ? & _). Qed.

Lemma leaveRoom_sent ws roomId st : sent (exec (leaveRoom ws roomId) st) = sent st.
Proof. by destruct (leaveRoom_frame ws roomId st) as (_ & _ & ?). Qed.

(** X10: an explicit leave of a connection bound to a room, when the store
    accepts the presence row: the "left" message goes to the other open
    members and never to the leaver, the row is stored, the connection is a
    member of no room afterwards and unbound, and keeps its user identity. *)
Theorem leave_releases_binding startup trace env ws message clientInfo roomId id d :
  let st := run (initState startup) trace in
  let leaveMessage :=
    systemMessage env roomId (Some (template (ci_userId clientInfo) +:+ " 离开了聊天室")) in
  let ev := (env, Incoming ws (Parsed message)) in
  in_type message = Some "leave" →
  clients st !! ws = Some clientInfo →
  truthy (ci_roomId clientInfo) = Some roomId →
  db_saveMessage (saveFails env) leaveMessage (db st) = inr (id, d) →
  frames_of st ev = (λ c, (c, FMessage leaveMessage)) <$> recipients roomId (Some ws) st
  ∧ (∀ c frame, (c, frame) ∈ frames_of st ev → c ≠ ws)
  ∧ db (step st ev) = d
  ∧ clients (step st ev) !! ws
    = Some (mkClientInfo (ci_id clientInfo) None (ci_userId clientInfo)
              (ci_connectedAt clientInfo))
  ∧ (∀ r room, rooms (step st ev) !! r = Some room → ws ∉ room).
Proof.
  intros st leaveMessage ev Hty Hci Hroom Hsave.
  assert (registry_consistent st) as Hst
    by apply registry_consistent_run, registry_consistent_init.
  assert (frames_of st ev
          = (λ c, (c, FMessage leaveMessage)) <$> recipients roomId (Some ws) st) as Hframes.
  { unfold frames_of. subst ev.
    rewrite (leave_step env ws message st clientInfo roomId) by done.
    fold leaveMessage. rewrite Hsave, leaveRoom_sent. cbn [sent set_db set_sent].
    by rewrite drop_app_length. }
  split; [done |]. split.
  { intros c frame. rewrite Hframes. intros Hin.
    apply list_elem_of_fmap in Hin as (c' & [= -> ->] & Hc').
    by apply recipients_exclude in Hc'. }
  subst ev. rewrite (leave_step env ws message st clientInfo roomId) by done.
  fold leaveMessage. rewrite Hsave.
  set (told := set_db _ _).
  destruct (consistent_leaveRoom told ws clientInfo roomId) as (_ & Hci' & Hnowhere);
    try done.
  split; [by rewrite leaveRoom_db |]. by split.
Qed.

Lemma leave_releases_binding_witness :
  let st := run (initState 1000)
              [ (calm 1001, Connection 1%nat);
                (calm 1002, Connection 2%nat);
                (calm 1003, Incoming 1%nat (join_frame "r1" "u1"));
                (calm 1004, Incoming 2%nat (join_frame "r1" "u2")) ] in
  let leaveMessage := systemMessage (calm 1005) "r1" (Some "u1 离开了聊天室") in
  let ev := (calm 1005, Incoming 1%nat leave_frame) in
  frames_of st ev = (λ c, (c, FMessage leaveMessage)) <$> recipients "r1" (Some 1%nat) st
  ∧ (∀ c frame, (c, frame) ∈ frames_of st ev → c ≠ 1%nat)
  ∧ db (step st ev)
    = mkDb (rows (db st)
            ++ [mkRow 4 "system" "r1" "system" 1005 "u1 离开了聊天室"
                  None None None None None]) 4
  ∧ clients (step st ev) !! 1%nat
    = Some (mkClientInfo "client_k3x9q_1001" None (Some "u1") 1001)
  ∧ (∀ r room, rooms (step st ev) !! r = Some room → 1%nat ∉ room).
Proof.
  apply (leave_releases_binding 1000
           [ (calm 1001, Connection 1%nat);
             (calm 1002, Connection 2%nat);
             (calm 1003, Incoming 1%nat (join_frame "r1" "u1"));
             (calm 1004, Incoming 2%nat (join_frame "r1" "u2")) ]
           (calm 1005) 1%nat
           (mkInbound (Some "leave") None None None None None None None None)
           (mkClientInfo "client_k3x9q_1001" (Some "r1") (Some "u1") 1001) "r1" 4).
  - reflexivity.
  - vm_compute. reflexivity.
  - reflexivity.
  - vm_compute. reflexivity.
Defined.

(** X11: an explicit leave while the INSERT fails: the other members are told
    that the user left and the leaver gets an error frame, but the binding
    is not released: rooms, client table and store are what they were. *)
Theorem leave_with_store_error_keeps_member env st ws message clientInfo roomId :
  let leaveMessage :=
    systemMessage env roomId (Some (template (ci_userId clientInfo) +:+ " 离开了聊天室")) in
  let ev := (env, Incoming ws (Parsed message)) in
  in_type message = Some "leave" →
  clients st !! ws = Some clientInfo →
  truthy (ci_roomId clientInfo) = Some roomId →
  saveFails env = true →
  rooms (step st ev) = rooms st
  ∧ clients (step st ev) = clients st
  ∧ db (step st ev) = db st
  ∧ frames_of st ev
    = ((λ c, (c, FMessage leaveMessage)) <$> recipients roomId (Some ws) st)
      ++ (if is_open ws st then [(ws, FError "Invalid message format" (now env))] else []).
Proof.
  intros leaveMessage ev Hty Hci Hroom Hfail. subst ev. unfold frames_of.
  rewrite (leave_step env ws message st clientInfo roomId) by done.
  unfold db_saveMessage. rewrite Hfail.
  unfold exec, sendError, ws_send. rewrite is_open_set_sent.
  destruct (is_open ws st); cbn [snd rooms clients db sent set_sent].
  - repeat (split; [done |]). fold leaveMessage.
    by rewrite <- app_assoc, drop_app_length.
  - repeat (split; [done |]). fold leaveMessage.
    by rewrite drop_app_length, app_nil_r.
Qed.

Lemma leave_with_store_error_keeps_member_witness :
  let leaveMessage := systemMessage (stormy 1005) "r1" (Some "u1 离开了聊天室") in
  let ev := (stormy 1005, Incoming 1%nat leave_frame) in
  rooms (step two_in_r1 ev) = rooms two_in_r1
  ∧ clients (step two_in_r1 ev) = clients two_in_r1
  ∧ db (step two_in_r1 ev) = db two_in_r1
  ∧ frames_of two_in_r1 ev
    = ((λ c, (c, FMessage leaveMessage)) <$> recipients "r1" (Some 1%nat) two_in_r1)
      ++ (if is_open 1%nat two_in_r1
          then [(1%nat, FError "Invalid message format" (now (stormy 1005)))] else []).
Proof.
  apply (leave_with_store_error_keeps_member (stormy 1005) two_in_r1 1%nat
           (mkInbound (Some "leave") None None None None None None None None)
           (mkClientInfo "client_k3x9q_1001" (Some "r1") (Some "u1") 1001) "r1").
  - reflexivity.
  - vm_compute. reflexivity.
  - reflexivity.
  - reflexivity.
Defined.

Lemma recipients_core roomId ws st st' :
  rooms st' = rooms st →
  (∀ c, c ≠ ws → sockets st' !! c = sockets st !! c) →
  recipients roomId (Some ws) st' = recipients roomId (Some ws) st.
Proof.
  intros Hr Hs. unfold recipients. rewrite Hr.
  destruct (rooms st !! roomId) as [room|]; [| done].
  apply list_filter_iff. intros c. unfold is_open.
  split; intros [Hne Hopen]; (split; [done |]);
    [rewrite <- Hs by congruence | rewrite Hs by congruence]; done.
Qed.

Lemma handleDisconnect_known env ws st clientInfo :
  clients st !! ws = Some clientInfo →
  exec (handleDisconnect env ws) st =
    set_clients (delete ws)
      match truthy (ci_roomId clientInfo) with
      | Some roomId =>
          exec (leaveRoom ws roomId)
            (set_sent (λ s, s ++ ((λ c, (c, FMessage
                 (systemMessage env roomId
                    (Some (template (or_str (ci_userId clientInfo) (Some "Unknown user"))
                           +:+ " 离开了聊天室"))))) <$> recipients roomId (Some ws) st))
               st)
      | None => st
      end.
Proof.
  intros Hci. unfold exec at 1, handleDisconnect. rewrite Hci.
  destruct (truthy (ci_roomId clientInfo)) as [roomId|]; [| done].
  unfold mbind at 1. unfold M_bind at 1.
  unfold mbind at 1. unfold M_bind at 1. by rewrite broadcastToRoom_sent.
Qed.

(** The ['close'] event of a connected client. *)
Lemma close_step env ws st clientInfo :
  clients st !! ws = Some clientInfo →
  let closed := set_wssClients (set_delete ws)
                  (set_sockets (alter (λ s, mkSocket CLOSED (isAlive s)) ws) st) in
  step st (env, Close ws) =
    set_clients (delete ws)
      match truthy (ci_roomId clientInfo) with
      | Some roomId =>
          exec (leaveRoom ws roomId)
            (set_sent (λ s, s ++ ((λ c, (c, FMessage
                 (systemMessage env roomId
                    (Some (template (or_str (ci_userId clientInfo) (Some "Unknown user"))
                           +:+ " 离开了聊天室"))))) <$> recipients roomId (Some ws) st))
               closed)
      | None => closed
      end.
Proof.
  intros Hci closed.
  change (step st (env, Close ws)) with (exec (handleDisconnect env ws) closed).
  rewrite (handleDisconnect_known env ws closed clientInfo) by done.
  destruct (truthy (ci_roomId clientInfo)) as [roomId|]; [| done].
  rewrite (recipients_core roomId ws st closed); [done | done |].
  intros c Hne. subst closed. simpl. by rewrite lookup_alter_ne.
Qed.

(** X12: when a connection closes, it disappears from the client table and
    from its room; the other open members of the room are told that the
    user left, the closing connection is told nothing, and, unlike an
    explicit leave, nothing is stored. *)
Theorem close_removes_connection startup trace env ws clientInfo :
  let st := run (initState startup) trace in
  let ev := (env, Close ws) in
  clients st !! ws = Some clientInfo →
  clients (step st ev) !! ws = None
  ∧ (∀ r room, rooms (step st ev) !! r = Some room → ws ∉ room)
  ∧ db (step st ev) = db st
  ∧ (∀ c frame, (c, frame) ∈ frames_of st ev → c ≠ ws)
  ∧ (∀ roomId, truthy (ci_roomId clientInfo) = Some roomId →
       frames_of st ev
       = (λ c, (c, FMessage
            (systemMessage env roomId
               (Some (template (or_str (ci_userId clientInfo) (Some "Unknown user"))
                      +:+ " 离开了聊天室"))))) <$> recipients roomId (Some ws) st)
  ∧ (truthy (ci_roomId clientInfo) = None → frames_of st ev = []).
Proof.
  intros st ev Hci.
  assert (registry_consistent st) as Hst
    by apply registry_consistent_run, registry_consistent_init.
  set (closed := set_wssClients (set_delete ws)
                   (set_sockets (alter (λ s, mkSocket CLOSED (isAlive s)) ws) st)).
  assert (registry_consistent closed) as Hclosed.
  { apply (registry_consistent_ext
             (set_sockets (alter (λ s, mkSocket CLOSED (isAlive s)) ws) st));
      [done | done | done |].
    by apply consistent_sockets_alter. }
  destruct (consistent_handleDisconnect env ws closed Hclosed) as (_ & Hgone & Hnowhere).
  assert (step st ev = exec (handleDisconnect env ws) closed) as Hstep by done.
  split; [by rewrite Hstep |].
  split; [rewrite Hstep; apply Hnowhere; by (change (clients closed) with (clients st);
                                              rewrite Hci) |].
  assert (frames_of st ev
          = match truthy (ci_roomId clientInfo) with
            | Some roomId =>
                (λ c, (c, FMessage
                   (systemMessage env roomId
                      (Some (template (or_str (ci_userId clientInfo) (Some "Unknown user"))
                             +:+ " 离开了聊天室"))))) <$> recipients roomId (Some ws) st
            | None => []
            end
          ∧ db (step st ev) = db st) as [Hframes Hdb].
  { unfold frames_of. subst ev. rewrite (close_step env ws st clientInfo Hci).
    destruct (truthy (ci_roomId clientInfo)) as [roomId|].
    - cbn [sent db set_clients]. rewrite leaveRoom_sent, leaveRoom_db.
      cbn [sent db set_sent set_wssClients set_sockets].
      by rewrite drop_app_length.
    - cbn [sent db set_clients set_wssClients set_sockets]. by rewrite drop_all. }
  split; [done |]. split; [| split].
  - intros c frame. rewrite Hframes.
    destruct (truthy (ci_roomId clientInfo)) as [roomId|];
      [| by intros ?%not_elem_of_nil].
    intros Hin. apply list_elem_of_fmap in Hin as (c' & [= -> ->] & Hc').
    by apply recipients_exclude in Hc'.
  - intros roomId Hroom. by rewrite Hframes, Hroom.
  - intros Hroom. by rewrite Hframes, Hroom.
Qed.

Lemma close_removes_connection_witness :
  let st := run (initState 1000)
              [ (calm 1001, Connection 1%nat);
                (calm 1002, Connection 2%nat);
                (calm 1003, Incoming 1%nat (join_frame "r1" "u1"));
                (calm 1004, Incoming 2%nat (join_frame "r1" "u2")) ] in
  let clientInfo := mkClientInfo "client_k3x9q_1001" (Some "r1") (Some "u1") 1001 in
  let ev := (calm 1005, Close 1%nat) in
  clients (step st ev) !! 1%nat = None
  ∧ (∀ r room, rooms (step st ev) !! r = Some room → 1%nat ∉ room)
  ∧ db (step st ev) = db st
  ∧ (∀ c frame, (c, frame) ∈ frames_of st ev → c ≠ 1%nat)
  ∧ (∀ roomId, truthy (ci_roomId clientInfo) = Some roomId →
       frames_of st ev
       = (λ c, (c, FMessage
            (systemMessage (calm 1005) roomId
               (Some (template (or_str (ci_userId clientInfo) (Some "Unknown user"))
                      +:+ " 离开了聊天室"))))) <$> recipients roomId (Some 1%nat) st)
  ∧ (truthy (ci_roomId clientInfo) = None → frames_of st ev = []).
Proof.
  apply (close_removes_connection 1000
           [ (calm 1001, Connection 1%nat);
             (calm 1002, Connection 2%nat);
             (calm 1003, Incoming 1%nat (join_frame "r1" "u1"));
             (calm 1004, Incoming 2%nat (join_frame "r1" "u2")) ]
           (calm 1005) 1%nat).
  vm_compute. reflexivity.
Defined.

(** ** Rejected frames *)

Lemma sendError_exec t ws error st :
  exec (sendError t ws error) st
  = if is_open ws st then set_sent (λ s, s ++ [(ws, FError error t)]) st else st.
Proof. unfold exec, sendError, ws_send. by destruct (is_open ws st). Qed.

(** X13: a join frame without a non-empty [roomId] or [senderId] changes
    nothing but the output of the sender: rooms, client table, store and
    poll buffer stay as they are and the sender, if open, gets the error
    frame 'roomId and senderId are required'. *)
Theorem join_without_ids_is_rejected env st ws message :
  in_type message = Some "join" →
  truthy (in_roomId message) = None ∨ truthy (in_senderId message) = None →
  step st (env, Incoming ws (Parsed message))
  = if is_open ws st
    then set_sent (λ s, s ++ [(ws, FError "roomId and senderId are required" (now env))]) st
    else st.
Proof.
  intros Hty Hmissing. rewrite <- sendError_exec.
  unfold step, exec, onMessage, try_catch, handleMessage; simpl.
  rewrite Hty, bool_decide_eq_true_2 by done. unfold handleJoin.
  destruct (truthy (in_roomId message)) as [roomId|];
    [destruct (truthy (in_senderId message)) as [senderId|] |];
    try (by destruct Hmissing);
    unfold sendError, ws_send; by destruct (is_open ws st).
Qed.

Lemma join_without_ids_is_rejected_witness :
  step one_in_r1
    (calm 1005, Incoming 1%nat
       (Parsed (mkInbound (Some "join") (Some "r2") None None None None None None None)))
  = if is_open 1%nat one_in_r1
    then set_sent (λ s, s ++ [(1%nat, FError "roomId and senderId are required"
                                        (now (calm 1005)))]) one_in_r1
    else one_in_r1.
Proof.
  apply (join_without_ids_is_rejected (calm 1005) one_in_r1 1%nat
           (mkInbound (Some "join") (Some "r2") None None None None None None None)).
  - reflexivity.
  - right. reflexivity.
Defined.

(** X14: a chat frame from a connection that is not bound to a room, or
    without content, is answered to the sender alone, with 'Not in a room.
    Please join a room first.' or 'Message content is required'; nothing is
    stored, broadcast or changed in the registry. *)
Theorem chat_is_rejected env st ws message clientInfo :
  chat_type (in_type message) →
  clients st !! ws = Some clientInfo →
  (truthy (ci_roomId clientInfo) = None →
     step st (env, Incoming ws (Parsed message))
     = if is_open ws st
       then set_sent (λ s, s ++ [(ws, FError "Not in a room. Please join a room first."
                                        (now env))]) st
       else st)
  ∧ (is_Some (truthy (ci_roomId clientInfo)) → truthy (in_content message) = None →
     step st (env, Incoming ws (Parsed message))
     = if is_open ws st
       then set_sent (λ s, s ++ [(ws, FError "Message content is required" (now env))]) st
       else st).
Proof.
  intros Hty Hci.
  assert (step st (env, Incoming ws (Parsed message))
          = (try_catch (handleChatMessage env ws message)
               (λ _, sendError (now env) ws "Invalid message format") st).2) as ->.
  { unfold step, exec, onMessage; simpl. by rewrite handleMessage_chat. }
  unfold try_catch, handleChatMessage, mbind, M_bind, getClient. rewrite Hci.
  split.
  - intros ->. rewrite <- sendError_exec. unfold exec.
    unfold sendError, ws_send; by destruct (is_open ws st).
  - intros [roomId ->] ->. rewrite <- sendError_exec. unfold exec.
    unfold sendError, ws_send; by destruct (is_open ws st).
Qed.

Lemma chat_is_rejected_witness :
  let st := run (initState 1000) [(calm 1001, Connection 1%nat)] in
  let clientInfo := mkClientInfo "client_k3x9q_1001" None None 1001 in
  let message := mkInbound (Some "text") None None (Some "hi") None None None None None in
  (truthy (ci_roomId clientInfo) = None →
     step st (calm 1005, Incoming 1%nat (Parsed message))
     = if is_open 1%nat st
       then set_sent (λ s, s ++ [(1%nat, FError "Not in a room. Please join a room first."
                                           (now (calm 1005)))]) st
       else st)
  ∧ (is_Some (truthy (ci_roomId clientInfo)) → truthy (in_content message) = None →
     step st (calm 1005, Incoming 1%nat (Parsed message))
     = if is_open 1%nat st
       then set_sent (λ s, s ++ [(1%nat, FError "Message content is required"
                                           (now (calm 1005)))]) st
       else st).
Proof.
  apply (chat_is_rejected (calm 1005)
           (run (initState 1000) [(calm 1001, Connection 1%nat)]) 1%nat
           (mkInbound (Some "text") None None (Some "hi") None None None None None)
           (mkClientInfo "client_k3x9q_1001" None None 1001)).
  - left. reflexivity.
  - vm_compute. reflexivity.
Defined.

(** ** System frames and echoes *)

Lemma system_step env ws message st clientInfo roomId :
  in_type message = Some "system" →
  clients st !! ws = Some clientInfo →
  truthy (ci_roomId clientInfo) = Some roomId →
  let sysMessage := systemMessage env roomId (in_content message) in
  step st (env, Incoming ws (Parsed message)) =
    match db_saveMessage (saveFails env) sysMessage (db st) with
    | inr (_, d) =>
        set_sent (λ s, s ++ ((λ c, (c, FMessage sysMessage)) <$> recipients roomId None st))
          (set_db (λ _, d) st)
    | inl _ => exec (sendError (now env) ws "Invalid message format") st
    end.
Proof.
  intros Hty Hci Hroom sysMessage.
  unfold step, exec, onMessage, try_catch, handleMessage; simpl.
  rewrite Hty.
  rewrite (bool_decide_eq_false_2 (Some "system" = Some "join")) by done.
  rewrite (bool_decide_eq_false_2 (Some "system" = Some "leave")) by done.
  rewrite (bool_decide_eq_false_2 (Some "system" = Some "text")) by done.
  rewrite (bool_decide_eq_false_2 (Some "system" = Some "audio")) by done.
  rewrite (bool_decide_eq_false_2 (Some "system" = Some "video")) by done.
  rewrite (bool_decide_eq_true_2 (Some "system" = Some "system")) by done. simpl.
  unfold handleSystemMessage, mbind at 1. unfold M_bind at 1, getClient.
  rewrite Hci, Hroom. fold sysMessage.
  unfold mbind, M_bind, saveMessage.
  destruct (db_saveMessage _ _ _) as [e|[id d]]; [done |].
  by rewrite broadcastToRoom_sent.
Qed.

(** X15: a [system] frame of a connection bound to a room is stored and
    broadcast under the sender id "system" with the server clock as
    timestamp, to every open member of the room; when the frame has no
    content the INSERT is refused and the only effect is an error frame to
    the sender. *)
Theorem system_frame_is_server_attributed env st ws message clientInfo roomId :
  in_type message = Some "system" →
  clients st !! ws = Some clientInfo →
  truthy (ci_roomId clientInfo) = Some roomId →
  let ev := (env, Incoming ws (Parsed message)) in
  (∀ content, in_content message = Some content → saveFails env = false →
     stored_by st ev
     = [ mkRow (lastID (db st) + 1) "system" roomId "system" (now env) content
           None None None None None ]
     ∧ frames_of st ev
       = (λ c, (c, FMessage (systemMessage env roomId (Some content))))
           <$> recipients roomId None st)
  ∧ (in_content message = None →
     stored_by st ev = []
     ∧ frames_of st ev
       = if is_open ws st then [(ws, FError "Invalid message format" (now env))] else []).
Proof.
  intros Hty Hci Hroom ev. subst ev. unfold stored_by, frames_of.
  rewrite (system_step env ws message st clientInfo roomId) by done.
  split.
  - intros content Hcontent Hsave. rewrite Hcontent.
    unfold db_saveMessage. rewrite Hsave. simpl. by rewrite !drop_app_length.
  - intros Hcontent. rewrite Hcontent.
    assert (∀ io, db_saveMessage io (systemMessage env roomId None) (db st)
                  = inl (if io then StoreError "SQLITE_IOERR"
                         else StoreError "NOT NULL constraint failed: messages.content"))
      as Hrefused by (by intros []).
    rewrite Hrefused, sendError_exec.
    destruct (is_open ws st); cbn [db sent set_sent].
    + by rewrite drop_all, drop_app_length.
    + by rewrite !drop_all.
Qed.

Lemma system_frame_is_server_attributed_witness :
  let message := mkInbound (Some "system") None None (Some "maintenance at noon")
                   None None None None None in
  let ev := (calm 1005, Incoming 1%nat (Parsed message)) in
  (∀ content, in_content message = Some content → saveFails (calm 1005) = false →
     stored_by two_in_r1 ev
     = [ mkRow (lastID (db two_in_r1) + 1) "system" "r1" "system" (now (calm 1005)) content
           None None None None None ]
     ∧ frames_of two_in_r1 ev
       = (λ c, (c, FMessage (systemMessage (calm 1005) "r1" (Some content))))
           <$> recipients "r1" None two_in_r1)
  ∧ (in_content message = None →
     stored_by two_in_r1 ev = []
     ∧ frames_of two_in_r1 ev
       = if is_open 1%nat two_in_r1
         then [(1%nat, FError "Invalid message format" (now (calm 1005)))] else []).
Proof.
  apply (system_frame_is_server_attributed (calm 1005) two_in_r1 1%nat
           (mkInbound (Some "system") None None (Some "maintenance at noon")
              None None None None None)
           (mkClientInfo "client_k3x9q_1001" (Some "r1") (Some "u1") 1001) "r1").
  - reflexivity.
  - vm_compute. reflexivity.
  - reflexivity.
Defined.

(** X16: in every state the server reaches from startup, a chat message that
    is accepted and stored is delivered exactly to the open members of the
    sender's room, and the sender, being a member, gets its own message
    back when its socket is open. *)
Theorem chat_reaches_members_and_sender
  startup trace env ws message clientInfo roomId content id d :
  let st := run (initState startup) trace in
  let normalized := normalizedMessage env clientInfo roomId message in
  let ev := (env, Incoming ws (Parsed message)) in
  chat_type (in_type message) →
  clients st !! ws = Some clientInfo →
  truthy (ci_roomId clientInfo) = Some roomId →
  truthy (in_content message) = Some content →
  db_saveMessage (saveFails env) normalized (db st) = inr (id, d) →
  (∀ c frame, (c, frame) ∈ frames_of st ev
     ↔ frame = FMessage normalized ∧ is_open c st = true
       ∧ ∃ room, rooms st !! roomId = Some room ∧ c ∈ room)
  ∧ (is_open ws st = true → (ws, FMessage normalized) ∈ frames_of st ev).
Proof.
  intros st normalized ev Hty Hci Hroom Hcontent Hsave.
  assert (registry_consistent st) as (_ & Hb & _)
    by apply registry_consistent_run, registry_consistent_init.
  assert (frames_of st ev
          = (λ c, (c, FMessage normalized)) <$> recipients roomId None st) as Hframes.
  { unfold frames_of. subst ev.
    rewrite (chat_step env ws message st clientInfo roomId content) by done.
    fold normalized. rewrite Hsave. cbn [sent set_sent set_db].
    by rewrite drop_app_length. }
  assert (∀ c frame, (c, frame) ∈ frames_of st ev
     ↔ frame = FMessage normalized ∧ is_open c st = true
       ∧ ∃ room, rooms st !! roomId = Some room ∧ c ∈ room) as Hexact.
  { intros c frame. rewrite Hframes, list_elem_of_fmap. split.
    - intros (c' & [= -> ->] & Hc'). apply recipients_spec in Hc' as (_ & ? & ?). done.
    - intros (-> & Hopen & Hroom'). exists c. split; [done |].
      apply recipients_spec. done. }
  split; [done |]. intros Hopen. apply Hexact. split; [done |]. split; [done |].
  by apply (Hb ws clientInfo).
Qed.

Lemma chat_reaches_members_and_sender_witness :
  let st := run (initState 1000)
              [ (calm 1001, Connection 1%nat);
                (calm 1002, Connection 2%nat);
                (calm 1003, Incoming 1%nat (join_frame "r1" "u1"));
                (calm 1004, Incoming 2%nat (join_frame "r1" "u2")) ] in
  let normalized := text_message "r1" "u1" "hi" 1005 in
  let ev := (calm 1005, Incoming 1%nat (text_frame None "hi" None)) in
  (∀ c frame, (c, frame) ∈ frames_of st ev
     ↔ frame = FMessage normalized ∧ is_open c st = true
       ∧ ∃ room, rooms st !! "r1" = Some room ∧ c ∈ room)
  ∧ (is_open 1%nat st = true → (1%nat, FMessage normalized) ∈ frames_of st ev).
Proof.
  apply (chat_reaches_members_and_sender 1000
           [ (calm 1001, Connection 1%nat);
             (calm 1002, Connection 2%nat);
             (calm 1003, Incoming 1%nat (join_frame "r1" "u1"));
             (calm 1004, Incoming 2%nat (join_frame "r1" "u2")) ]
           (calm 1005) 1%nat
           (mkInbound (Some "text") None None (Some "hi") None None None None None)
           (mkClientInfo "client_k3x9q_1001" (Some "r1") (Some "u1") 1001)
           "r1" "hi" 4
           (mkDb (rows (db two_in_r1)
                  ++ [mkRow 4 "text" "r1" "u1" 1005 "hi" None None None None None]) 4)).
  - left. reflexivity.
  - vm_compute. reflexivity.
  - reflexivity.
  - reflexivity.
  - vm_compute. reflexivity.
Defined.

(** X17: chat, system, ping, unknown and malformed frames, pongs and the two
    POST endpoints of the pull channel never change the rooms, the client
    table, the sockets or [wss.clients]. *)
Theorem neutral_events_keep_registry st env ev :
  registry_neutral ev → same_core st (step st (env, ev)).
Proof.
  intros Hev. destruct ev as [ws|ws data|ws|ws|ws| |body|senderId]; try done.
  - unfold step, exec, onMessage; simpl.
    apply preserves_try_catch; [| intros _; apply acts_sendError, same_core_send
                                 | apply same_core_refl].
    destruct data as [|message]; [apply preserves_throw |]. destruct Hev as [Hj Hl].
    apply acts_other_frames; auto using same_core_send, same_core_save.
  - unfold step, exec; simpl.
    apply acts_apiSend; auto using same_core_save, same_core_recent, same_core_refl.
  - unfold step, exec; simpl.
    apply acts_apiJoin; auto using same_core_save, same_core_recent, same_core_refl.
Qed.

Lemma neutral_events_keep_registry_witness :
  same_core two_in_r1 (step two_in_r1 (calm 1005, Incoming 1%nat (text_frame None "hi" None)))
  ∧ same_core two_in_r1 (step two_in_r1 (stormy 1006, send_request)).
Proof.
  split.
  - apply (neutral_events_keep_registry two_in_r1 (calm 1005)). split; discriminate.
  - apply (neutral_events_keep_registry two_in_r1 (stormy 1006)). exact I.
Defined.

(** ** Invariants of the heartbeat list and of the store *)

Lemma leaveRoom_wssClients ws roomId st :
  wssClients (exec (leaveRoom ws roomId) st) = wssClients st.
Proof.
  unfold leaveRoom, exec, modify, mbind, M_bind; simpl.
  destruct (rooms st !! roomId); [| done]. by destruct (bool_decide _).
Qed.

Lemma NoDup_set_add ws s : NoDup s → NoDup (set_add ws s).
Proof.
  intros Hs. unfold set_add. case_bool_decide as Hin; [done |].
  apply NoDup_app. split; [done |]. split; [| apply NoDup_singleton].
  intros x Hx Hx'. apply list_elem_of_singleton in Hx'. by subst.
Qed.

Lemma connection_or_other (ev : Env * Event) :
  (∃ env ws, ev = (env, Connection ws)) ∨ (∀ ws, ev.2 ≠ Connection ws).
Proof. destruct ev as [env []]; eauto. Qed.

Lemma wssClients_NoDup_step st ev :
  NoDup (wssClients st) → NoDup (wssClients (step st ev)).
Proof.
  intros Hst. destruct (connection_or_other ev) as [(env & ws & ->)|Hev].
  - rewrite connection_step.
    destruct (sockets st !! ws); [done |]. simpl. by apply NoDup_set_add.
  - revert Hst. apply (acts_step (P := λ st, NoDup (wssClients st)) (λ _, True));
      unfold preserves; try (intros; simpl; done).
    + intros ws frame st' Hst'. unfold ws_send; simpl. by destruct (is_open ws st').
    + intros env message st' Hst'. unfold saveMessage.
      by destruct (db_saveMessage _ _ _) as [e|[id d]].
    + intros ws roomId st' Hst'. fold (exec (leaveRoom ws roomId) st').
      by rewrite leaveRoom_wssClients.
    + intros ws s st' Hst'. by case_bool_decide.
    + intros ws st' Hst'. simpl. by apply NoDup_filter.
Qed.

Lemma wssClients_NoDup_run st trace :
  NoDup (wssClients st) → NoDup (wssClients (run st trace)).
Proof.
  revert st. induction trace as [|ev trace IH]; intros st Hst; [done |].
  simpl. by apply IH, wssClients_NoDup_step.
Qed.

(** X18: in every state the server reaches from startup, a connection that
    is open and listed in [wss.clients] is terminated by the second of two
    consecutive heartbeats at the latest, whatever pongs arrive in between. *)
Theorem heartbeat_terminates_within_two_ticks startup trace ws s env1 env2 pongs :
  let st := run (initState startup) trace in
  ws ∈ wssClients st →
  sockets st !! ws = Some s →
  readyState s = OPEN →
  Forall is_pong pongs →
  readyState <$>
    sockets (run st ([(env1, HeartbeatTick)] ++ pongs ++ [(env2, HeartbeatTick)])) !! ws
  = Some CLOSING.
Proof.
  intros st Hin Hs Hopen Hpongs.
  apply (two_heartbeats_terminate st ws s); try done.
  apply wssClients_NoDup_run. simpl. apply NoDup_nil_2.
Qed.

Lemma heartbeat_terminates_within_two_ticks_witness :
  readyState <$>
    sockets (run two_in_r1
               ([(calm 31000, HeartbeatTick)]
                ++ [(calm 31020, PongFrom 2%nat); (calm 31021, PongFrom 2%nat)]
                ++ [(calm 61000, HeartbeatTick)])) !! 2%nat
  = Some CLOSING.
Proof.
  apply (heartbeat_terminates_within_two_ticks 1000
           [ (calm 1001, Connection 1%nat);
             (calm 1002, Connection 2%nat);
             (calm 1003, Incoming 1%nat (join_frame "r1" "u1"));
             (calm 1004, Incoming 2%nat (join_frame "r1" "u2")) ]
           2%nat (mkSocket OPEN None)).
  - vm_compute. apply list_elem_of_further, list_elem_of_here.
  - vm_compute. reflexivity.
  - reflexivity.
  - repeat constructor; by eexists.
Defined.

Lemma db_wf_step st ev : db_wf (db st) → db_wf (db (step st ev)).
Proof.
  intros Hst. destruct (connection_or_other ev) as [(env & ws & ->)|Hev].
  - rewrite connection_step.
    by destruct (sockets st !! ws).
  - revert Hst. apply (acts_step (P := λ st, db_wf (db st)) (λ _, True));
      unfold preserves; try (intros; simpl; done).
    + intros ws frame st' Hst'. unfold ws_send; simpl. by destruct (is_open ws st').
    + intros env message st' Hst'. unfold saveMessage.
      destruct (db_saveMessage _ _ _) as [e|[id d]] eqn:Hsave; [done |].
      simpl. by eapply db_wf_saveMessage.
    + intros ws roomId st' Hst'. fold (exec (leaveRoom ws roomId) st').
      by rewrite leaveRoom_db.
    + intros ws s st' Hst'. by case_bool_decide.
Qed.

(** X20: POST /api/send with a [type] outside text, audio, video and system
    is answered with success and put into the poll buffer, but the store
    refuses the row: the buffer then holds a message that no history query
    will ever return. *)
Theorem send_with_unknown_type_is_buffered_only env st body senderId content type :
  truthy (sb_senderId body) = Some senderId →
  truthy (sb_content body) = Some content →
  sb_type body = Some type →
  type_check type = false →
  ∃ message,
    (apiSend env body st).1 = Ok (ResSent message)
    ∧ m_type message = Some type
    ∧ last (recentMessages (exec (apiSend env body) st)) = Some message
    ∧ db (exec (apiSend env body) st) = db st.
Proof.
  intros Hs Hc Hty Hcheck.
  destruct (apiSend_valid env body st senderId content Hs Hc)
    as (message & _ & _ & _ & Hrun).
  exists message. unfold exec. rewrite Hrun; simpl.
  assert (m_type message = Some type ∧ m_senderId message = Some senderId
          ∧ m_content message = Some content) as (Hmt & Hms & Hmc).
  { unfold apiSend in Hrun. rewrite Hs, Hc, Hty in Hrun.
    unfold mbind, M_bind, modify, try_catch, saveMessage, mret, M_ret in Hrun.
    simpl in Hrun.
    destruct (db_saveMessage _ _ _) as [e|[id d]] in Hrun;
      injection Hrun as <- _; done. }
  split; [done |]. split; [done |]. split.
  - case_bool_decide as Hfull.
    + apply last_shift_snoc. unfold MAX_MESSAGES in Hfull. lia.
    + apply last_snoc.
  - unfold db_saveMessage, insert_row. rewrite Hmt, Hms, Hmc, Hcheck.
    destruct (saveFails env); by destruct (db st).
Qed.

Lemma send_with_unknown_type_is_buffered_only_witness :
  let body := mkSendBody (Some "u1") (Some "hello") (Some "image") in
  ∃ message,
    (apiSend (calm 2000) body (initState 1000)).1 = Ok (ResSent message)
    ∧ m_type message = Some "image"
    ∧ last (recentMessages (exec (apiSend (calm 2000) body) (initState 1000)))
      = Some message
    ∧ db (exec (apiSend (calm 2000) body) (initState 1000)) = db (initState 1000).
Proof.
  apply (send_with_unknown_type_is_buffered_only (calm 2000) (initState 1000)
           (mkSendBody (Some "u1") (Some "hello") (Some "image")) "u1" "hello" "image").
  - reflexivity.
  - reflexivity.
  - reflexivity.
  - reflexivity.
Defined.

(** ** The last member of a room *)

Lemma leaveRoom_last_member ws roomId st :
  rooms st !! roomId = Some [ws] →
  rooms (exec (leaveRoom ws roomId) st) !! roomId = None.
Proof.
  intros Hroom. rewrite leaveRoom_rooms, Hroom.
  unfold set_delete. rewrite filter_cons_False by (intros Hne; by apply Hne).
  rewrite filter_nil. rewrite bool_decide_eq_true_2 by done.
  apply lookup_delete_eq.
Qed.

Lemma room_absent_intro roomId st : rooms st !! roomId = None → room_absent roomId st.
Proof. intros Hgone. split; [done |]. intros exclude. unfold recipients. by rewrite Hgone. Qed.

Lemma presence_row_accepted env roomId content d :
  saveFails env = false →
  ∃ id d', db_saveMessage (saveFails env) (systemMessage env roomId (Some content)) d
           = inr (id, d').
Proof. intros ->. unfold db_saveMessage, insert_row; simpl. eauto. Qed.

(** C9: every room present in the room map has at least one member after any
    sequence of events (joins, leaves, disconnects, heartbeats, HTTP
    requests), and a room whose last member goes is removed at once, so that
    no later membership query or broadcast finds it: [leaveRoom] deletes the
    entry, and so do the events that run it for the one member of a room,
    which are the close and the error of its connection, its leave frame
    when the presence row is stored, and its valid join of another room.
    When the INSERT of the leave fails the connection has not left: it is
    still the one member of the room. *)
Theorem C9_rooms_never_empty :
  (∀ startup trace, rooms_nonempty (run (initState startup) trace))
  ∧ (∀ st ws roomId,
       rooms st !! roomId = Some [ws] →
       rooms (exec (leaveRoom ws roomId) st) !! roomId = None
       ∧ ∀ exclude, recipients roomId exclude (exec (leaveRoom ws roomId) st) = [])
  ∧ (∀ st env ws roomId clientInfo,
       rooms st !! roomId = Some [ws] →
       clients st !! ws = Some clientInfo →
       truthy (ci_roomId clientInfo) = Some roomId →
       room_absent roomId (step st (env, Close ws))
       ∧ room_absent roomId (step st (env, SocketError ws))
       ∧ (∀ message,
            in_type message = Some "leave" → saveFails env = false →
            room_absent roomId (step st (env, Incoming ws (Parsed message))))
       ∧ (∀ message other senderId,
            in_type message = Some "join" →
            truthy (in_roomId message) = Some other →
            truthy (in_senderId message) = Some senderId →
            other ≠ roomId →
            room_absent roomId (step st (env, Incoming ws (Parsed message))))
       ∧ (∀ message,
            in_type message = Some "leave" → saveFails env = true →
            rooms (step st (env, Incoming ws (Parsed message))) !! roomId = Some [ws])).
Proof.
  split; [| split].
  - intros startup trace. apply rooms_nonempty_run, rooms_nonempty_init.
  - intros st ws roomId Hroom. by apply room_absent_intro, leaveRoom_last_member.
  - intros st env ws roomId clientInfo Hroom Hci Hbound.
    split; [| split; [| split; [| split]]].
    + apply room_absent_intro. rewrite (close_step env ws st clientInfo Hci), Hbound.
      cbn [rooms set_clients]. by apply leaveRoom_last_member.
    + apply room_absent_intro.
      change (step st (env, SocketError ws)) with (exec (handleDisconnect env ws) st).
      rewrite (handleDisconnect_known env ws st clientInfo Hci), Hbound.
      cbn [rooms set_clients]. by apply leaveRoom_last_member.
    + intros message Hty Hcalm. apply room_absent_intro.
      rewrite (leave_step env ws message st clientInfo roomId Hty Hci Hbound).
      destruct (presence_row_accepted env roomId
                  (template (ci_userId clientInfo) +:+ " 离开了聊天室") (db st) Hcalm)
        as (id & d' & ->).
      by apply leaveRoom_last_member.
    + intros message other senderId Hty Hother Hsender Hne. apply room_absent_intro.
      destruct (join_core env ws message other senderId clientInfo st Hty Hother Hsender Hci)
        as (-> & _).
      rewrite Hbound, (join_prefix_unfold ws other senderId (Some roomId) st).
      rewrite addToRoom_rooms, decide_False by done.
      cbn [rooms set_clients]. by apply leaveRoom_last_member.
    + intros message Hty Hstorm.
      rewrite (leave_step env ws message st clientInfo roomId Hty Hci Hbound).
      unfold db_saveMessage. rewrite Hstorm.
      destruct (same_core_sendError
                  (set_sent (λ s, s ++ ((λ c, (c, FMessage
                     (systemMessage env roomId
                        (Some (template (ci_userId clientInfo) +:+ " 离开了聊天室")))))
                     <$> recipients roomId (Some ws) st)) st)
                  (now env) ws "Invalid message format") as (-> & _).
      exact Hroom.
Qed.

Lemma C9_rooms_never_empty_witness :
  rooms_nonempty (run (initState 1000)
                    [ (calm 1001, Connection 1%nat);
                      (calm 1003, Incoming 1%nat (join_frame "r1" "u1"));
                      (calm 1005, Close 1%nat) ])
  ∧ rooms (exec (leaveRoom 1%nat "r1") one_in_r1) !! "r1" = None
  ∧ room_absent "r1" (step one_in_r1 (calm 1005, Close 1%nat))
  ∧ room_absent "r1" (step one_in_r1 (calm 1005, Incoming 1%nat leave_frame))
  ∧ room_absent "r1" (step one_in_r1 (calm 1005, Incoming 1%nat (join_frame "r2" "u1")))
  ∧ rooms (step one_in_r1 (stormy 1005, Incoming 1%nat leave_frame)) !! "r1"
    = Some [1%nat].
Proof.
  split; [apply (proj1 C9_rooms_never_empty) |].
  split.
  { apply (proj1 (proj2 C9_rooms_never_empty) one_in_r1 1%nat "r1").
    vm_compute. reflexivity. }
  assert (rooms one_in_r1 !! "r1" = Some [1%nat]) as Hroom by (vm_compute; reflexivity).
  assert (clients one_in_r1 !! 1%nat
          = Some (mkClientInfo "client_k3x9q_1001" (Some "r1") (Some "u1") 1001)) as Hci
    by (vm_compute; reflexivity).
  split; [| split; [| split]].
  - apply (proj2 (proj2 C9_rooms_never_empty) one_in_r1 (calm 1005) 1%nat "r1" _ Hroom Hci).
    reflexivity.
  - refine (proj1 (proj2 (proj2 (proj2 (proj2 C9_rooms_never_empty) one_in_r1 (calm 1005)
              1%nat "r1" _ Hroom Hci _))) _ _ _); reflexivity.
  - refine (proj1 (proj2 (proj2 (proj2 (proj2 (proj2 C9_rooms_never_empty) one_in_r1
              (calm 1005) 1%nat "r1" _ Hroom Hci _)))) _ "r2" "u1" _ _ _ _);
      [reflexivity | reflexivity | reflexivity | reflexivity | discriminate].
  - refine (proj2 (proj2 (proj2 (proj2 (proj2 (proj2 C9_rooms_never_empty) one_in_r1
              (stormy 1005) 1%nat "r1" _ Hroom Hci _)))) _ _ _); reflexivity.
Defined.

(** ** The history endpoints *)

Lemma length_ordered_rows roomId st :
  length (merge_sort newer_first (filter (λ r, row_roomId r = roomId) (rows (db st))))
  = length (rows_of roomId st).
Proof. unfold rows_of. by rewrite (proj1 (ordered_rows roomId (db st))). Qed.

Lemma getHistory_calm env roomId page size st :
  historyFails env = false →
  getHistory env roomId page size st
  = (Ok (select_history roomId size ((page - 1) * size) (db st)), st).
Proof. intros Hcalm. unfold getHistory, db_getHistory. by rewrite Hcalm. Qed.

Lemma db_getHistory_page_select roomId page size d :
  0 ≤ size →
  take (Z.to_nat size)
    (drop (Z.to_nat ((page - 1) * size))
       (merge_sort newer_first (filter (λ r, row_roomId r = roomId) (rows d))))
  = select_history roomId size ((page - 1) * size) d.
Proof.
  intros Hsize. unfold select_history, sql_limit, sql_offset.
  by rewrite (proj2 (Z.ltb_ge size 0)).
Qed.

(** X21: GET /history with a valid query answers with the page that
    [getHistory] selects, never more than 100 rows, and [hasMore] is true
    exactly when the room has at least [page * size] rows: when it is false
    the next page is empty, but when the room has exactly [page * size] rows
    it is true although the next page is empty. *)
Theorem history_hasMore_iff_page_is_full env st roomId room page size pageNum pageSize :
  truthy roomId = Some room →
  parseInt_default 1 page = Some pageNum → 1 ≤ pageNum →
  parseInt_default 20 size = Some pageSize → 1 ≤ pageSize ≤ 100 →
  historyFails env = false →
  let total := Z.of_nat (length (rows_of room st)) in
  ∃ messages hasMore,
    getHistoryPage env roomId page size st
    = (Ok (HistoryPage messages pageNum pageSize hasMore), st)
    ∧ db_getHistory false room pageNum pageSize (db st) = inr messages
    ∧ (length messages ≤ 100)%nat
    ∧ (hasMore = true ↔ pageNum * pageSize ≤ total)
    ∧ (hasMore = false →
       db_getHistory false room (pageNum + 1) pageSize (db st) = inr [])
    ∧ (total = pageNum * pageSize →
       hasMore = true
       ∧ db_getHistory false room (pageNum + 1) pageSize (db st) = inr []).
Proof.
  intros Hroom Hpage Hp Hsize Hs Hcalm total.
  pose proof (length_ordered_rows room st) as Hlen. fold total in Hlen.
  set (ordered := merge_sort newer_first _) in Hlen.
  assert (length (take (Z.to_nat pageSize)
                    (drop (Z.to_nat ((pageNum - 1) * pageSize)) ordered))
          = Z.to_nat (Z.min pageSize (Z.max 0 (total - (pageNum - 1) * pageSize))))
    as Hpagelen.
  { rewrite length_take, length_drop. unfold total. rewrite <- Hlen. nia. }
  eexists _, _. split; [| split; [| split; [| split; [| split]]]].
  - unfold getHistoryPage, try_catch. rewrite Hroom, Hpage, Hsize.
    rewrite (bool_decide_eq_false_2 (pageNum < 1)) by lia.
    rewrite (bool_decide_eq_false_2 (pageSize < 1 ∨ 100 < pageSize)) by lia.
    unfold mbind, M_bind. rewrite getHistory_calm by done. reflexivity.
  - unfold db_getHistory. reflexivity.
  - rewrite <- (db_getHistory_page_select room pageNum pageSize (db st)) by lia.
    fold ordered. rewrite Hpagelen. lia.
  - rewrite bool_decide_eq_true.
    rewrite <- (db_getHistory_page_select room pageNum pageSize (db st)) by lia.
    fold ordered. rewrite Hpagelen. nia.
  - intros Hmore%bool_decide_eq_false.
    rewrite <- (db_getHistory_page_select room pageNum pageSize (db st)) in Hmore by lia.
    fold ordered in Hmore. rewrite Hpagelen in Hmore.
    rewrite db_getHistory_page by lia. fold ordered. f_equal.
    rewrite drop_ge; [apply take_nil |]. unfold total in *. nia.
  - intros Htotal. split.
    + apply bool_decide_eq_true.
      rewrite <- (db_getHistory_page_select room pageNum pageSize (db st)) by lia.
      fold ordered. rewrite Hpagelen. nia.
    + rewrite db_getHistory_page by lia. fold ordered. f_equal.
      rewrite drop_ge; [apply take_nil |]. unfold total in *. nia.
Qed.

Lemma history_hasMore_iff_page_is_full_witness :
  let st := initState 1000 in
  let total := Z.of_nat (length (rows_of "default_room" st)) in
  ∃ messages hasMore,
    getHistoryPage (calm 2000) (Some "default_room") Absent (Num 1) st
    = (Ok (HistoryPage messages 1 1 hasMore), st)
    ∧ db_getHistory false "default_room" 1 1 (db st) = inr messages
    ∧ (length messages ≤ 100)%nat
    ∧ (hasMore = true ↔ 1 * 1 ≤ total)
    ∧ (hasMore = false → db_getHistory false "default_room" (1 + 1) 1 (db st) = inr [])
    ∧ (total = 1 * 1 →
       hasMore = true ∧ db_getHistory false "default_room" (1 + 1) 1 (db st) = inr []).
Proof.
  apply (history_hasMore_iff_page_is_full (calm 2000) (initState 1000)
           (Some "default_room") "default_room" Absent (Num 1) 1 1).
  - reflexivity.
  - reflexivity.
  - lia.
  - reflexivity.
  - lia.
  - reflexivity.
Defined.

Lemma getHistoryPage_state env roomId page size st :
  exec (getHistoryPage env roomId page size) st = st.
Proof.
  unfold getHistoryPage, exec, try_catch.
  destruct (truthy roomId) as [room|]; [| done].
  destruct (parseInt_default 1 page) as [p|]; [| done].
  case_bool_decide; [done |].
  destruct (parseInt_default 20 size) as [s|]; [| done].
  case_bool_decide; [done |].
  unfold mbind, M_bind, getHistory. by destruct (db_getHistory _ _ _ _ _).
Qed.

Lemma apiHistory_state env roomId page size st :
  exec (apiHistory env roomId page size) st = st.
Proof.
  unfold apiHistory, exec, try_catch, mbind, M_bind, getHistory.
  by destruct (db_getHistory _ _ _ _ _).
Qed.

(** X22: whatever the query and whether or not the store works, GET /history
    leaves the server state alone and answers: with a 400, with a 500, which
    happens only when the SELECT fails, or with a page, and then the page
    number is at least 1, the size is between 1 and 100, and the page has at
    most [size] rows, all of them stored rows of the room that was asked
    for. *)
Theorem history_page_is_bounded env st roomId page size :
  exec (getHistoryPage env roomId page size) st = st
  ∧ (∃ response,
       (getHistoryPage env roomId page size st).1 = Ok response
       ∧ ∀ messages, response ≠ HistoryMessages messages)
  ∧ (∀ error,
       (getHistoryPage env roomId page size st).1 = Ok (History500 error) →
       historyFails env = true ∧ error = "Internal server error")
  ∧ (∀ messages pageNum pageSize hasMore,
       (getHistoryPage env roomId page size st).1
       = Ok (HistoryPage messages pageNum pageSize hasMore) →
       1 ≤ pageNum
       ∧ 1 ≤ pageSize ≤ 100
       ∧ Z.of_nat (length messages) ≤ pageSize
       ∧ ∀ r, r ∈ messages → r ∈ rows (db st) ∧ Some (row_roomId r) = truthy roomId).
Proof.
  split; [apply getHistoryPage_state |].
  unfold getHistoryPage, try_catch.
  destruct (truthy roomId) as [room|];
    [| split; [by eexists | split; intros; discriminate]].
  destruct (parseInt_default 1 page) as [p|];
    [| split; [by eexists | split; intros; discriminate]].
  case_bool_decide as Hp; [split; [by eexists | split; intros; discriminate] |].
  destruct (parseInt_default 20 size) as [s|];
    [| split; [by eexists | split; intros; discriminate]].
  case_bool_decide as Hs; [split; [by eexists | split; intros; discriminate] |].
  unfold mbind, M_bind, getHistory, db_getHistory.
  destruct (historyFails env); simpl.
  { split; [by eexists |]. split; [by intros error [= <-] | intros; discriminate]. }
  split; [by eexists |]. split; [intros; discriminate |].
  intros messages pageNum pageSize hasMore [= <- <- <- _].
  split; [lia |]. split; [lia |].
  rewrite <- db_getHistory_page_select by lia. split.
  - rewrite length_take. lia.
  - intros r Hr.
    apply subseteq_take, subseteq_drop in Hr.
    rewrite merge_sort_Permutation in Hr.
    apply list_elem_of_filter in Hr as [<- Hr]. done.
Qed.

Lemma history_page_is_bounded_witness :
  let st := initState 1000 in
  let messages := [ mkRow 1 "system" "default_room" "system" 1000 "欢迎来到 Lynx Chat！"
                      None None None None None ] in
  exec (getHistoryPage (stormy 2000) None (Num 0) NotANumber) st = st
  ∧ exec (getHistoryPage (mkEnv 2000 "k3x9q" false true) (Some "default_room")
            Absent Absent) st = st
  ∧ (1 ≤ 1
     ∧ 1 ≤ 20 ≤ 100
     ∧ Z.of_nat (length messages) ≤ 20
     ∧ ∀ r, r ∈ messages →
         r ∈ rows (db st) ∧ Some (row_roomId r) = truthy (Some "default_room")).
Proof.
  split.
  - apply (proj1 (history_page_is_bounded (stormy 2000) (initState 1000) None
                    (Num 0) NotANumber)).
  - split.
    { apply (proj1 (history_page_is_bounded (mkEnv 2000 "k3x9q" false true)
                      (initState 1000) (Some "default_room") Absent Absent)). }
    apply (proj2 (proj2 (proj2 (history_page_is_bounded (calm 2000) (initState 1000)
                                  (Some "default_room") Absent Absent))) _ 1 20 false).
    vm_compute. reflexivity.
Defined.

(** X23: GET /api/history does not check its numbers: with a negative
    [size] the LIMIT is off and every page from 1 on is the whole room,
    oldest first. *)
Theorem apiHistory_negative_size_returns_whole_room env st roomId page size :
  historyFails env = false →
  size < 0 →
  1 ≤ or_num page 1 →
  ∃ messages,
    apiHistory env roomId page (Some size) st = (Ok (HistoryMessages messages), st)
    ∧ messages ≡ₚ rows_of (default "default_room" (truthy roomId)) st
    ∧ StronglySorted oldest_first messages.
Proof.
  intros Hcalm Hsize Hpage.
  eexists. split; [| split].
  - unfold apiHistory, try_catch, mbind, M_bind.
    rewrite getHistory_calm by done. reflexivity.
  - assert (or_num (Some size) 50 = size) as ->.
    { unfold or_num. by rewrite (proj2 (Z.eqb_neq size 0)) by lia. }
    unfold select_history, sql_limit, sql_offset.
    rewrite (proj2 (Z.ltb_lt size 0)) by done.
    replace (Z.to_nat ((or_num page 1 - 1) * size)) with 0%nat by nia.
    rewrite drop_0, reverse_Permutation. apply ordered_rows.
  - assert (or_num (Some size) 50 = size) as ->.
    { unfold or_num. by rewrite (proj2 (Z.eqb_neq size 0)) by lia. }
    unfold select_history, sql_limit, sql_offset.
    rewrite (proj2 (Z.ltb_lt size 0)) by done.
    replace (Z.to_nat ((or_num page 1 - 1) * size)) with 0%nat by nia.
    rewrite drop_0. apply reverse_oldest_first, ordered_rows.
Qed.

Lemma apiHistory_negative_size_returns_whole_room_witness :
  ∃ messages,
    apiHistory (calm 2000) None (Some 3) (Some (-1)) chatty_r1
    = (Ok (HistoryMessages messages), chatty_r1)
    ∧ messages ≡ₚ rows_of (default "default_room" (truthy None)) chatty_r1
    ∧ StronglySorted oldest_first messages.
Proof.
  apply (apiHistory_negative_size_returns_whole_room (calm 2000) chatty_r1 None
           (Some 3) (-1)).
  - reflexivity.
  - lia.
  - vm_compute. discriminate.
Defined.

(** ** Sending and polling *)

(** X24: a message that POST /api/send accepts is returned by
    GET /api/messages?since=t exactly for the [t] below its timestamp, the
    server clock of the send: a client that polls with the timestamp of the
    message itself does not get it. *)
Theorem sent_message_is_polled env st body senderId content since :
  truthy (sb_senderId body) = Some senderId →
  truthy (sb_content body) = Some content →
  ∃ message,
    (apiSend env body st).1 = Ok (ResSent message)
    ∧ m_timestamp message = now env
    ∧ (message ∈ poll since (exec (apiSend env body) st) ↔ since < now env).
Proof.
  intros Hs Hc.
  destruct (apiSend_valid env body st senderId content Hs Hc)
    as (message & _ & _ & Hts & Hrun).
  exists message. unfold exec. rewrite Hrun; simpl. split; [done |]. split; [done |].
  unfold poll, apiMessages; simpl.
  assert ((if since =? 0 then 0 else since) = since) as ->.
  { destruct (Z.eqb_spec since 0); by subst. }
  rewrite list_elem_of_filter, Hts.
  assert (message ∈ (if bool_decide (MAX_MESSAGES < length (recentMessages st ++ [message]))%nat
                     then shift (recentMessages st ++ [message])
                     else recentMessages st ++ [message])) as Hin.
  { case_bool_decide as Hfull.
    - apply last_Some_elem_of, last_shift_snoc. unfold MAX_MESSAGES in Hfull. lia.
    - apply elem_of_app. right. apply list_elem_of_here. }
  tauto.
Qed.

Lemma sent_message_is_polled_witness :
  ∃ message,
    (apiSend (calm 2000) (mkSendBody (Some "u1") (Some "hello") None) (initState 1000)).1
    = Ok (ResSent message)
    ∧ m_timestamp message = now (calm 2000)
    ∧ (message ∈ poll 1999 (exec (apiSend (calm 2000)
                                    (mkSendBody (Some "u1") (Some "hello") None))
                              (initState 1000))
       ↔ 1999 < now (calm 2000)).
Proof.
  apply (sent_message_is_polled (calm 2000) (initState 1000)
           (mkSendBody (Some "u1") (Some "hello") None) "u1" "hello" 1999).
  - reflexivity.
  - reflexivity.
Defined.

(** ** The two channels *)

(** Closes the goals about actions that do not touch the field in question. *)
Local Ltac untouched :=
  solve [ done
        | unfold preserves; intros; simpl; done
        | unfold preserves; intros; by case_bool_decide ].

(** X25: the push and the pull channel never meet in the running server: no
    WebSocket event, heartbeat included, changes the poll buffer, and no
    request of the HTTP polling API writes a frame to any socket. *)
Theorem push_and_pull_channels_are_separate st env ev :
  (¬ is_http ev → recentMessages (step st (env, ev)) = recentMessages st)
  ∧ (is_http ev → sent (step st (env, ev)) = sent st).
Proof.
  split.
  - intros Hev.
    assert (∀ ws frame, preserves (λ st', recentMessages st' = recentMessages st)
                          (ws_send ws frame)) as Hsend.
    { intros ws frame st' Hst'. unfold ws_send; simpl. by destruct (is_open ws st'). }
    assert (∀ env' message, preserves (λ st', recentMessages st' = recentMessages st)
                              (saveMessage env' message)) as Hsave.
    { intros env' message st' Hst'. unfold saveMessage.
      by destruct (db_saveMessage _ _ _) as [e|[id d]]. }
    assert (∀ ws roomId, preserves (λ st', recentMessages st' = recentMessages st)
                           (leaveRoom ws roomId)) as Hleave.
    { intros ws roomId st' Hst'. unfold leaveRoom, modify, mbind, M_bind; simpl.
      destruct (rooms st' !! roomId); [| done]. by destruct (bool_decide _). }
    destruct ev as [ws|ws data|ws|ws|ws| |body|senderId]; try done.
    + rewrite connection_step. by destruct (sockets st !! ws).
    + unfold step, exec; simpl.
      apply (acts_onMessage (P := λ st', recentMessages st' = recentMessages st)
               (λ _, True)); untouched.
    + unfold step, exec; simpl.
      apply (acts_onClose (P := λ st', recentMessages st' = recentMessages st));
        untouched.
    + unfold step, exec; simpl.
      apply (acts_handleDisconnect (P := λ st', recentMessages st' = recentMessages st));
        untouched.
    + unfold step, exec; simpl.
      apply (acts_heartbeat (P := λ st', recentMessages st' = recentMessages st));
        untouched.
  - intros Hev.
    assert (∀ env' message, preserves (λ st', sent st' = sent st)
                              (saveMessage env' message)) as Hsave.
    { intros env' message st' Hst'. unfold saveMessage.
      by destruct (db_saveMessage _ _ _) as [e|[id d]]. }
    destruct ev as [ws|ws data|ws|ws|ws| |body|senderId]; try done.
    + unfold step, exec; simpl.
      apply (acts_apiSend (P := λ st', sent st' = sent st)); untouched.
    + unfold step, exec; simpl.
      apply (acts_apiJoin (P := λ st', sent st' = sent st)); untouched.
Qed.

Lemma push_and_pull_channels_are_separate_witness :
  recentMessages (step two_in_r1 (calm 1005, Incoming 1%nat (text_frame None "hi" None)))
  = recentMessages two_in_r1
  ∧ sent (step two_in_r1 (calm 1006, send_request)) = sent two_in_r1.
Proof.
  split.
  - apply (proj1 (push_and_pull_channels_are_separate two_in_r1 (calm 1005)
                    (Incoming 1%nat (text_frame None "hi" None)))).
    intros [].
  - apply (proj2 (push_and_pull_channels_are_separate two_in_r1 (calm 1006) send_request)).
    exact I.
Defined.

(** ** Statistics of the registry *)

Lemma getRoomStats_fold (m : gmap string (list WebSocket)) :
  map_Forall (λ _ room, room ≠ []) m →
  let stats :=
    map_fold (λ roomId room (stats : Result (gmap string RoomStat)),
                match stats with
                | Ok stats =>
                    match mapR (member_userId room) room with
                    | Ok names => Ok (<[roomId := mkRoomStat (length room) names]> stats)
                    | Throw e => Throw e
                    end
                | Throw e => Throw e
                end) (Ok ∅) m in
  (m = ∅ ∧ stats = Ok ∅) ∨ (m ≠ ∅ ∧ stats = Throw TypeError).
Proof.
  simpl.
  apply (map_fold_weak_ind
           (λ (r : Result (gmap string RoomStat)) (m : gmap string (list WebSocket)),
              map_Forall (λ _ room, room ≠ []) m →
              (m = ∅ ∧ r = Ok ∅) ∨ (m ≠ ∅ ∧ r = Throw TypeError))).
  - intros _. by left.
  - intros roomId room m' r Hfresh IH Hall.
    apply map_Forall_insert in Hall as [Hroom Hall]; [| done].
    right. split; [apply insert_non_empty |].
    destruct (IH Hall) as [[_ ->]|[_ ->]]; [| done].
    by destruct room.
Qed.

(** X26: [getRoomStats] cannot report a room.  In every state the server
    reaches from startup the call leaves the state alone, returns the empty
    object while no connection is bound to a room, and throws a TypeError
    as soon as one is. *)
Theorem getRoomStats_throws_when_a_room_exists startup trace :
  let st := run (initState startup) trace in
  exec getRoomStats st = st
  ∧ ((∀ ws clientInfo, clients st !! ws = Some clientInfo →
        truthy (ci_roomId clientInfo) = None) →
     (getRoomStats st).1 = Ok ∅)
  ∧ (∀ ws clientInfo, clients st !! ws = Some clientInfo →
       is_Some (truthy (ci_roomId clientInfo)) →
       (getRoomStats st).1 = Throw TypeError).
Proof.
  intros st.
  assert (rooms_nonempty st) as Hne by apply rooms_nonempty_run, rooms_nonempty_init.
  destruct (registry_consistent_run (initState startup) trace
              (registry_consistent_init startup)) as (Hmb & Hbm & _).
  fold st in Hmb, Hbm.
  assert ((rooms st = ∅ ∧ getRoomStats st = (Ok ∅, st))
          ∨ (rooms st ≠ ∅ ∧ getRoomStats st = (Throw TypeError, st))) as Hstats.
  { unfold getRoomStats.
    destruct (getRoomStats_fold (rooms st) Hne) as [[? ->]|[? ->]]; auto. }
  split; [| split].
  - unfold exec. by destruct Hstats as [[_ ->]|[_ ->]].
  - intros Hunbound. destruct Hstats as [[_ ->]|[Hrooms _]]; [done |].
    destruct Hrooms. apply map_empty. intros roomId.
    destruct (rooms st !! roomId) as [room|] eqn:Hroom; [| done].
    destruct room as [|ws room]; [by destruct (Hne roomId [] Hroom) |].
    destruct (Hmb roomId (ws :: room) ws Hroom) as (ci & Hci & Hbound);
      [apply list_elem_of_here |].
    by rewrite (Hunbound ws ci Hci) in Hbound.
  - intros ws ci Hci [roomId Hbound].
    destruct (Hbm ws ci roomId Hci Hbound) as (room & Hroom & _).
    destruct Hstats as [[Hempty _]|[_ ->]]; [| done].
    by rewrite Hempty in Hroom.
Qed.

Lemma getRoomStats_throws_when_a_room_exists_witness :
  (getRoomStats two_in_r1).1 = Throw TypeError.
Proof.
  apply (proj2 (proj2 (getRoomStats_throws_when_a_room_exists 1000
           [ (calm 1001, Connection 1%nat);
             (calm 1002, Connection 2%nat);
             (calm 1003, Incoming 1%nat (join_frame "r1" "u1"));
             (calm 1004, Incoming 2%nat (join_frame "r1" "u2")) ]))
           1%nat (mkClientInfo "client_k3x9q_1001" (Some "r1") (Some "u1") 1001)).
  - vm_compute. reflexivity.
  - by eexists.
Defined.

Lemma size_alter_clients (f : ClientInfo → ClientInfo) ws (m : gmap WebSocket ClientInfo) :
  size (alter f ws m) = size m.
Proof. by rewrite <- !(size_dom (D := gset WebSocket)), dom_alter_L. Qed.

(** X27: [getTotalClients] counts the connections that were opened and have
    not closed or failed since: in every state the server reaches from
    startup, the count goes up by one when a connection opens, down by one
    when a connection of the client table closes or reports an error, and
    no other event changes it. *)
Theorem total_clients_counts_open_connections startup trace env ev :
  let st := run (initState startup) trace in
  getTotalClients (step st (env, ev)) =
    match ev with
    | Connection ws =>
        match sockets st !! ws with
        | None => S (getTotalClients st)
        | Some _ => getTotalClients st
        end
    | Close ws | SocketError ws =>
        match clients st !! ws with
        | Some _ => pred (getTotalClients st)
        | None => getTotalClients st
        end
    | _ => getTotalClients st
    end.
Proof.
  intros st.
  destruct (registry_consistent_run (initState startup) trace
              (registry_consistent_init startup)) as (_ & _ & Hsock).
  fold st in Hsock. unfold getTotalClients.
  assert (∀ ws frame, preserves (λ st', size (clients st') = size (clients st))
                        (ws_send ws frame)) as Hsend.
  { intros ws frame st' Hst'. unfold ws_send; simpl. by destruct (is_open ws st'). }
  assert (∀ env' message, preserves (λ st', size (clients st') = size (clients st))
                            (saveMessage env' message)) as Hsave.
  { intros env' message st' Hst'. unfold saveMessage.
    by destruct (db_saveMessage _ _ _) as [e|[id d]]. }
  assert (∀ ws roomId, preserves (λ st', size (clients st') = size (clients st))
                         (leaveRoom ws roomId)) as Hleave.
  { intros ws roomId st' Hst'. fold (exec (leaveRoom ws roomId) st').
    by rewrite leaveRoom_clients, size_alter_clients. }
  destruct ev as [ws|ws data|ws|ws|ws| |body|senderId].
  - rewrite connection_step. destruct (sockets st !! ws) as [s|] eqn:Hs; [done |].
    simpl. apply map_size_insert_None.
    destruct (clients st !! ws) as [ci|] eqn:Hci; [| done].
    destruct (Hsock ws) as [s Hs']; [by eexists | congruence].
  - unfold step, exec; simpl.
    apply (acts_onMessage (P := λ st', size (clients st') = size (clients st))
             (λ _, True)); try untouched.
    intros ws' roomId senderId _ st' Hst'. simpl. by rewrite size_alter_clients.
  - destruct (clients st !! ws) as [ci|] eqn:Hci.
    + rewrite (close_step env ws st ci Hci). simpl.
      rewrite map_size_delete_Some.
      * f_equal. destruct (truthy (ci_roomId ci)); [| done].
        by rewrite leaveRoom_clients, size_alter_clients.
      * destruct (truthy (ci_roomId ci)); [| simpl; rewrite Hci; by eexists].
        rewrite leaveRoom_clients. simpl. rewrite lookup_alter_eq, Hci. by eexists.
    + unfold step, exec, onClose, handleDisconnect, modify, mbind, M_bind; simpl.
      by rewrite Hci.
  - destruct (clients st !! ws) as [ci|] eqn:Hci.
    + change (step st (env, SocketError ws)) with (exec (handleDisconnect env ws) st).
      rewrite (handleDisconnect_known env ws st ci Hci). simpl.
      rewrite map_size_delete_Some.
      * f_equal. destruct (truthy (ci_roomId ci)); [| done].
        by rewrite leaveRoom_clients, size_alter_clients.
      * destruct (truthy (ci_roomId ci)); [| simpl; rewrite Hci; by eexists].
        rewrite leaveRoom_clients. simpl. rewrite lookup_alter_eq, Hci. by eexists.
    + unfold step, exec, onError, handleDisconnect; simpl. by rewrite Hci.
  - done.
  - unfold step, exec; simpl.
    apply (acts_heartbeat (P := λ st', size (clients st') = size (clients st)));
      untouched.
  - unfold step, exec; simpl.
    apply (acts_apiSend (P := λ st', size (clients st') = size (clients st))); untouched.
  - unfold step, exec; simpl.
    apply (acts_apiJoin (P := λ st', size (clients st') = size (clients st))); untouched.
Qed.

(** ** Uploads *)

Lemma storage_destination_cases part :
  storage_destination part = "audio" ∨ storage_destination part = "video".
Proof. unfold storage_destination. destruct (startsWith _ _); auto. Qed.

(** X28: an upload that is accepted and stored writes the file into the
    directory chosen from its MIME type, [audio] or [video], but builds the
    path it answers with, and stores as message content, from the [type]
    field of the form; the two directories agree only when that field names
    the directory, and never when the field is missing or empty, where the
    path points into [media]. *)
Theorem upload_path_follows_form_type extname env suffix part body disk d roomId senderId :
  let name := storage_filename extname env suffix part in
  let directory := default "media" (truthy (ub_type body)) in
  let message_type := default (storage_destination part) (truthy (ub_type body)) in
  fileFilter part = true →
  truthy (ub_roomId body) = Some roomId →
  truthy (ub_senderId body) = Some senderId →
  saveFails env = false →
  type_check message_type = true →
  postUpload extname env suffix (Some part) body disk d
  = (Uploaded ("/uploads/" +:+ directory +:+ "/" +:+ name)
       (originalname part) (file_size part) (mimetype part),
     {[ (storage_destination part, name) ]} ∪ disk,
     mkDb (rows d ++ [ mkRow (lastID d + 1) message_type roomId senderId (now env)
                         ("/uploads/" +:+ directory +:+ "/" +:+ name)
                         (Some (originalname part)) (Some (file_size part)) None None
                         (Some (mimetype part)) ])
       (lastID d + 1))
  ∧ (directory = storage_destination part
     ↔ truthy (ub_type body) = Some (storage_destination part))
  ∧ (truthy (ub_type body) = None → directory ≠ storage_destination part).
Proof.
  intros name directory message_type Hfilter Hroom Hsender Hcalm Hcheck.
  split; [| split].
  - unfold postUpload, uploadHandler. rewrite Hfilter; simpl.
    rewrite Hroom, Hsender. unfold db_saveMessage, insert_row. rewrite Hcalm; simpl.
    fold (storage_destination part). fold message_type. by rewrite Hcheck.
  - unfold directory. destruct (truthy (ub_type body)) as [type|]; simpl.
    + split; [by intros -> | by intros [= ->]].
    + split; [| done]. by destruct (storage_destination_cases part) as [-> | ->].
  - unfold directory. intros ->; simpl.
    by destruct (storage_destination_cases part) as [-> | ->].
Qed.

Lemma upload_path_follows_form_type_witness :
  let extname := λ _ : string, ".mp3" in
  let part := mkFilePart "song.mp3" "audio/mpeg" 4096 in
  let body := mkUploadBody (Some "r1") (Some "u1") None in
  postUpload extname (calm 5000) 42 (Some part) body ∅ (mkDb [] 0)
  = (Uploaded "/uploads/media/5000-42.mp3" "song.mp3" 4096 "audio/mpeg",
     {[ ("audio", "5000-42.mp3") ]} ∪ ∅,
     mkDb [ mkRow 1 "audio" "r1" "u1" 5000 "/uploads/media/5000-42.mp3"
              (Some "song.mp3") (Some 4096) None None (Some "audio/mpeg") ] 1)
  ∧ ("media" = "audio" ↔ @None string = Some "audio")
  ∧ (@None string = None → "media" ≠ "audio").
Proof.
  intros extname part body.
  apply (upload_path_follows_form_type extname (calm 5000) 42 part body ∅ (mkDb [] 0)
           "r1" "u1").
  - reflexivity.
  - reflexivity.
  - reflexivity.
  - reflexivity.
  - reflexivity.
Defined.

(** X29: an upload without a room or sender id is answered with 400 and
    leaves no file behind: the file that was just written is removed again,
    and so is a file that had the same directory and name before; nothing
    is stored. *)
Theorem upload_without_ids_removes_file extname env suffix part body disk d :
  let name := storage_filename extname env suffix part in
  fileFilter part = true →
  truthy (ub_roomId body) = None ∨ truthy (ub_senderId body) = None →
  postUpload extname env suffix (Some part) body disk d
  = (Upload400 "roomId and senderId are required",
     disk ∖ {[ (storage_destination part, name) ]}, d).
Proof.
  intros name Hfilter Hids. unfold postUpload, uploadHandler.
  rewrite Hfilter; simpl. fold name.
  rewrite bool_decide_eq_true_2
    by (apply elem_of_union_l, elem_of_singleton; reflexivity).
  rewrite difference_union_distr_l_L, difference_diag_L, union_empty_l_L.
  destruct Hids as [-> | ->]; [done |]. by destruct (truthy (ub_roomId body)).
Qed.

Lemma upload_without_ids_removes_file_witness :
  let extname := λ _ : string, ".mp3" in
  let part := mkFilePart "song.mp3" "audio/mpeg" 4096 in
  let body := mkUploadBody None (Some "u1") (Some "audio") in
  postUpload extname (calm 5000) 42 (Some part) body ∅ (mkDb [] 0)
  = (Upload400 "roomId and senderId are required",
     ∅ ∖ {[ ("audio", "5000-42.mp3") ]}, mkDb [] 0).
Proof.
  intros extname part body.
  apply (upload_without_ids_removes_file extname (calm 5000) 42 part body ∅ (mkDb [] 0)).
  - reflexivity.
  - left. reflexivity.
Defined.

(** X30: an upload with both ids whose message the store refuses, because
    the INSERT fails or because the [type] field is not one of text, audio,
    video and system, is answered with 500 while the file stays on disk
    and no row refers to it. *)
Theorem upload_refused_by_store_keeps_file extname env suffix part body disk d roomId senderId :
  let name := storage_filename extname env suffix part in
  let message_type := default (storage_destination part) (truthy (ub_type body)) in
  fileFilter part = true →
  truthy (ub_roomId body) = Some roomId →
  truthy (ub_senderId body) = Some senderId →
  saveFails env = true ∨ type_check message_type = false →
  postUpload extname env suffix (Some part) body disk d
  = (Upload500 "Failed to upload file",
     {[ (storage_destination part, name) ]} ∪ disk, d).
Proof.
  intros name message_type Hfilter Hroom Hsender Hrefused.
  unfold postUpload, uploadHandler. rewrite Hfilter; simpl.
  rewrite Hroom, Hsender. unfold db_saveMessage, insert_row; simpl.
  fold (storage_destination part). fold message_type.
  destruct Hrefused as [-> | ->]; [done |]. by destruct (saveFails env).
Qed.

Lemma upload_refused_by_store_keeps_file_witness :
  let extname := λ _ : string, ".mp4" in
  let part := mkFilePart "clip.mp4" "video/mp4" 4096 in
  let body := mkUploadBody (Some "r1") (Some "u1") (Some "image") in
  postUpload extname (calm 5000) 42 (Some part) body ∅ (mkDb [] 0)
  = (Upload500 "Failed to upload file", {[ ("video", "5000-42.mp4") ]} ∪ ∅, mkDb [] 0).
Proof.
  intros extname part body.
  apply (upload_refused_by_store_keeps_file extname (calm 5000) 42 part body ∅ (mkDb [] 0)
           "r1" "u1").
  - reflexivity.
  - reflexivity.
  - reflexivity.
  - right. reflexivity.
Defined.

(** ** The whole server *)

Lemma db_wf_postUpload extname env suffix part body disk d :
  db_wf d → db_wf (postUpload extname env suffix part body disk d).2.
Proof.
  intros Hd. unfold postUpload, uploadHandler.
  destruct part as [part|]; [| done].
  destruct (fileFilter part); [| done]. simpl.
  destruct (truthy (ub_roomId body)) as [roomId|];
    [destruct (truthy (ub_senderId body)) as [senderId|] |].
  - destruct (db_saveMessage _ _ _) as [e|[id d']] eqn:Hsave; [done |].
    simpl. by eapply db_wf_saveMessage.
  - by case_bool_decide.
  - by case_bool_decide.
Qed.

Lemma db_wf_serve extname sv rq :
  db_wf (db sv.1) → db_wf (db (serve extname sv rq).1).
Proof.
  intros Hsv. destruct rq as [env [ev|since|roomId page size|roomId page size|suffix part body]];
    unfold serve; simpl.
  - by apply db_wf_step.
  - done.
  - by rewrite getHistoryPage_state.
  - by rewrite apiHistory_state.
  - by apply db_wf_postUpload.
Qed.

(** X19: the table of every state the server reaches from startup, through
    the events of the push channel, the polling API, the history endpoints
    and uploads, satisfies the schema: row ids are unique and not above the
    AUTOINCREMENT counter, and every stored [type] is one of text, audio,
    video and system. *)
Theorem store_keeps_schema extname startup disk trace :
  db_wf (db (serve_all extname (initState startup, disk) trace).1).
Proof.
  assert (∀ sv, db_wf (db sv.1) → db_wf (db (serve_all extname sv trace).1)) as Hall.
  { induction trace as [|rq trace IH]; intros sv Hsv; [done |].
    simpl. by apply IH, db_wf_serve. }
  apply Hall, db_wf_init.
Qed.

Lemma store_keeps_schema_witness :
  let extname := λ _ : string, ".mp3" in
  let part := mkFilePart "song.mp3" "audio/mpeg" 4096 in
  let body := mkUploadBody (Some "default_room") (Some "u1") (Some "audio") in
  let trace :=
    [ (calm 1001, OfEvent (Connection 1%nat));
      (calm 1003, OfEvent (Incoming 1%nat (join_frame "r1" "u1")));
      (calm 1005, PostUploadFile 42 (Some part) body);
      (calm 1006, OfEvent send_request);
      (calm 1007, GetHistoryPage (Some "default_room") Absent Absent) ] in
  length (rows (db (serve_all extname (initState 1000, ∅) trace).1)) = 4%nat
  ∧ db_wf (db (serve_all extname (initState 1000, ∅) trace).1).
Proof.
  intros extname part body trace. split.
  - vm_compute. reflexivity.
  - apply (store_keeps_schema extname 1000 ∅ trace).
Defined.
